(** * Glasgow [program-ecp5] applet: SPI-NOR flash behind an ECP5 JTAG port

    A shallow embedding of [software/glasgow/applet/program_ecp5/__init__.py]
    and the properties its specification states about it.

    Conventions.
    - A Python [int] is a [Z]; a [bytes]/[bytearray] object is a
      [list byte].
    - A [str] is a [list ascii].
    - A [bitarray(endian="little")] is a [list bool]: position [8k+i] of the
      list is bit [i] (least significant first) of byte [k] of the buffer.
    - The JTAG link ([self.lower]) is external: it is an abstract state with
      the three operations the driver calls on it. *)

From Stdlib Require Import String.
From Stdlib Require Import ZArith List Ascii Bool Lia.
From Stdlib Require Import Strings.Byte.
Import ListNotations.
Local Open Scope Z_scope.

(** ** Bytes *)

Definition is_byte (z : Z) : Prop := 0 <= z < 256.

(** The integer a byte stands for, as Python sees an element of [bytes]. *)
Definition byte_val (b : byte) : Z := Z.of_N (Byte.to_N b).

(** [bytes([z])]: [None] stands for the [ValueError] Python raises when
    [z] is not in [range(0, 256)]. *)
Definition byte_of_Z (z : Z) : option byte :=
  if z <? 0 then None else Byte.of_N (Z.to_N z).

(** [z & 0xff] stored as a byte; the mask keeps it in range. *)
Definition low_byte (z : Z) : byte :=
  match byte_of_Z (Z.land z 255) with
  | Some b => b
  | None => x00
  end.

(** [len(x)] as a Python integer. *)
Definition len {A : Type} (l : list A) : Z := Z.of_nat (length l).

(** *** Python slices *)

(** An index of a slice on a sequence of length [n], clamped as Python
    does: a negative index counts from the end. *)
Definition slice_index (i n : Z) : nat :=
  Z.to_nat (if i <? 0 then Z.max 0 (i + n) else Z.min i n).

(** [s[:n]] *)
Definition slice_to {A : Type} (n : Z) (s : list A) : list A :=
  firstn (slice_index n (len s)) s.

(** [s[i:j] = x] on a [bytearray] *)
Definition slice_assign {A : Type} (i j : Z) (x s : list A) : list A :=
  let i' := slice_index i (len s) in
  let j' := Nat.max i' (slice_index j (len s)) in
  firstn i' s ++ x ++ skipn j' s.

(** ** Hexadecimal text *)

Module Hex.

Local Open Scope char_scope.

(** The digit for a value below 16, in lower case as the [x] format
    writes it: ['0'] is character 48 and ['a'] is character 97. *)
Definition hexdigit (d : Z) : ascii :=
  if (0 <=? d)%Z && (d <? 10)%Z then ascii_of_N (Z.to_N (48 + d))
  else if (10 <=? d)%Z && (d <? 16)%Z then ascii_of_N (Z.to_N (87 + d))
  else "?".

(** Value of a hexadecimal digit, either case, as [bytes.fromhex] reads
    it: ['0'..'9'] are characters 48 to 57, ['a'..'f'] 97 to 102 and
    ['A'..'F'] 65 to 70. *)
Definition hexval (c : ascii) : option Z :=
  let n := Z.of_N (N_of_ascii c) in
  if (48 <=? n)%Z && (n <=? 57)%Z then Some (n - 48)%Z
  else if (97 <=? n)%Z && (n <=? 102)%Z then Some (n - 87)%Z
  else if (65 <=? n)%Z && (n <=? 70)%Z then Some (n - 55)%Z
  else None.

(** Digits of a non-negative integer in base 16, most significant first. *)
Fixpoint hex_digits (fuel : nat) (x : Z) : list ascii :=
  match fuel with
  | O => []
  | S f => if (x <? 16)%Z then [hexdigit x]
           else hex_digits f (x / 16)%Z ++ [hexdigit (x mod 16)%Z]
  end.

Definition to_hex (x : Z) : list ascii :=
  hex_digits (S (Z.to_nat (Z.log2 x))) x.

(** [s.rjust(width, "0")] *)
Definition rjust0 (width : Z) (s : list ascii) : list ascii :=
  repeat "0" (Z.to_nat (width - len s)) ++ s.

(** ['{:02x}'.format(x)]: a sign if negative, then the digits padded with
    zeros so that the whole field is at least two characters wide. *)
Definition format_02x (x : Z) : list ascii :=
  if (x <? 0)%Z then "-" :: rjust0 1 (to_hex (- x))
  else rjust0 2 (to_hex x).

(** [bytes.fromhex(s)]: pairs of hexadecimal digits; [None] stands for the
    [ValueError] raised on any other character or on a lone final digit.
    (Python also skips white space between pairs; the driver's strings
    contain none.) *)
Fixpoint fromhex (s : list ascii) : option (list byte) :=
  match s with
  | [] => Some []
  | [_] => None
  | h :: l :: rest =>
      match hexval h, hexval l, fromhex rest with
      | Some hv, Some lv, Some bs => Some (low_byte (16 * hv + lv)%Z :: bs)
      | _, _, _ => None
      end
  end.

(** [''.join('{:02x}'.format(x) for x in xs)] *)
Definition hexlify (xs : list Z) : list ascii := flat_map format_02x xs.

End Hex.

(** ** The [bitarray] operations the driver uses *)

Module Bitarray.

Definition bitarray := list bool.

(** The eight bits of one byte, least significant first
    ([endian="little"]). *)
Definition byte_bits (b : byte) : list bool :=
  let '(b0, (b1, (b2, (b3, (b4, (b5, (b6, b7))))))) := Byte.to_bits b in
  [b0; b1; b2; b3; b4; b5; b6; b7].

(** The byte made of eight bits, least significant first. *)
Definition bits_byte (b0 b1 b2 b3 b4 b5 b6 b7 : bool) : byte :=
  Byte.of_bits (b0, (b1, (b2, (b3, (b4, (b5, (b6, b7))))))).

(** [bits.frombytes(data)] on an empty little-endian bitarray. *)
Definition frombytes (data : list byte) : bitarray := flat_map byte_bits data.

(** [bits.reverse()]: the order of all the bits is reversed. *)
Definition reverse (v : bitarray) : bitarray := rev v.

(** [bits.bytereverse()]: the bit order inside every byte of the buffer is
    reversed, the length stays.  A last, incomplete byte is reversed
    together with its zero padding. *)
Fixpoint bytereverse (v : bitarray) : bitarray :=
  match v with
  | b0 :: b1 :: b2 :: b3 :: b4 :: b5 :: b6 :: b7 :: rest =>
      b7 :: b6 :: b5 :: b4 :: b3 :: b2 :: b1 :: b0 :: bytereverse rest
  | [] => []
  | part =>
      firstn (length part) (rev (part ++ repeat false (8 - length part)))
  end.

(** [bits.tobytes()]: a last, incomplete byte is completed with zeros. *)
Fixpoint tobytes (v : bitarray) : list byte :=
  match v with
  | b0 :: b1 :: b2 :: b3 :: b4 :: b5 :: b6 :: b7 :: rest =>
      bits_byte b0 b1 b2 b3 b4 b5 b6 b7 :: tobytes rest
  | [] => []
  | part =>
      match part ++ repeat false 8 with
      | b0 :: b1 :: b2 :: b3 :: b4 :: b5 :: b6 :: b7 :: _ =>
          [bits_byte b0 b1 b2 b3 b4 b5 b6 b7]
      | _ => []
      end
  end.

(** The byte whose bits are those of [b] in the opposite order. *)
Definition bitrev8 (b : byte) : byte :=
  let '(b0, (b1, (b2, (b3, (b4, (b5, (b6, b7))))))) := Byte.to_bits b in
  bits_byte b7 b6 b5 b4 b3 b2 b1 b0.

End Bitarray.

(** ** The two codecs *)

Import Hex Bitarray.

(** [_hex_to_bitarray(input_nibbles)] *)
Definition _hex_to_bitarray (input_nibbles : list ascii) : option bitarray :=
  let byte_len := (len input_nibbles + 1) / 2 in
  match fromhex (rjust0 (byte_len * 2) input_nibbles) with
  | Some input_bytes =>
      let bits := frombytes input_bytes in
      let bits := reverse bits in
      let bits := bytereverse bits in
      Some bits
  | None => None
  end.

(** [_bitarray(input_nibbles)] *)
Definition _bitarray (input_nibbles : list ascii) : option bitarray :=
  let byte_len := (len input_nibbles + 1) / 2 in
  match fromhex (rjust0 (byte_len * 2) input_nibbles) with
  | Some input_bytes =>
      let bits := frombytes input_bytes in
      let bits := bytereverse bits in
      Some bits
  | None => None
  end.

(** The decoding step at the end of [_command]:
    [value.reverse(); value.bytereverse(); return value.tobytes()]. *)
Definition decode_response (value : bitarray) : list byte :=
  tobytes (bytereverse (reverse value)).

(** The hexadecimal text [_command] builds from a list of integers, then
    encoded for the wire: [_bitarray(''.join('{:02x}'.format(x) ...))]. *)
Definition encode_command (xs : list Z) : option bitarray :=
  _bitarray (hexlify xs).

(** The same text through the instruction-direction codec, which [_sir]
    and [_sdr] apply to their argument. *)
Definition encode_instruction (xs : list Z) : option bitarray :=
  _hex_to_bitarray (hexlify xs).

(** ** Status register bits *)

Definition BIT_WIP  : Z := 1.    (* 0b00000001 *)
Definition BIT_WEL  : Z := 2.    (* 0b00000010 *)
Definition MSK_PROT : Z := 60.   (* 0b00111100 *)
Definition BIT_CP   : Z := 64.   (* 0b01000000 *)
Definition BIT_ERR  : Z := 128.  (* 0b10000000 *)

(** ** Observable behaviour: faults, log lines, events *)

(** Exceptions that can leave the driver. *)
Inductive exn : Type :=
| ValueError
| ZeroDivisionError
| UnboundLocalError
(** ["{} command failed (status {:08b})".format(command, status)] *)
| ProgramECP5Error (command : String.string) (status : Z)
| GlasgowAppletError (msg : String.string).

(** The status text handed to a progress callback. *)
Inductive status_text : Type :=
| ReadingAddress (address : Z)     (* "reading address {:#08x}" *)
| ProgrammingPage (address : Z)    (* "programming page {:#08x}" *)
| ErasingSector (sector_start : Z) (* "erasing sector {:#08x}" *).

(** One constructor per logging call of the file, with the values the
    call formats. *)
Inductive log_msg : Type :=
| LogCmd (cmd : Z) (arg : list byte) (dummy ret : Z)
| LogResult (value : bitarray)
| LogWakeup
| LogRead (address length : Z)
| LogFastRead (address length : Z)
| LogReadStatus (status : Z)
| LogWriteEnable
| LogWriteDisable
| LogWriteStatus (status : Z)
| LogSectorErase (address : Z)
| LogBlockErase (address : Z)
| LogChipErase
| LogPageProgram (address : Z) (data : list byte)
| InfoVerifyPass
| ErrorFirstDiffering (different_at gold_byte flash_byte : Z)
| InfoBlockProtect (bits : Z).

Inductive event : Type :=
(** calls on the JTAG link *)
| EnterShiftDR
| ShiftTDIO (tdi tdo : bitarray)
| EnterPauseDR
(** a line handed to the logger *)
| Log (m : log_msg)
(** a call of the caller's progress observer *)
| Progress (done total : Z) (status : option status_text).

(** A progress callback only reports; it is a function to the events it
    causes. *)
Definition callback_t : Type := Z -> Z -> option status_text -> list event.

(** [lambda done, total, status: None] *)
Definition no_callback : callback_t := fun _ _ _ => [].

(** An observer that records every call. *)
Definition observe : callback_t := fun done total status =>
  [Progress done total status].

(** ** The JTAG link *)

(** What the driver calls on [self.lower], as state transformers.  The
    bit string that [shift_tdio] returns is taken to be little-endian
    like the one it is given, and to support the calls that [_command]
    makes on it ([hex] for the log line, [reverse], [bytereverse] and
    [tobytes]).  Faults of the link itself are not modelled. *)
Class JTAG (T : Type) : Type := {
  enter_shift_dr : T -> T;
  shift_tdio : bitarray -> T -> bitarray * T;
  enter_pause_dr : T -> T
}.

(** ** Computations *)

(** The [while] loops of the driver have no bound in the source.  Here
    every loop runs on a supply of fuel, one unit per turn; a loop that
    uses it up ends the computation with [Timeout].  The functions with
    loops take the supply as their first argument, [gas]. *)
Inductive outcome (A : Type) : Type :=
| Ret (a : A)          (* the coroutine returns [a] *)
| Raise (e : exn)      (* an exception propagates *)
| Timeout              (* a loop was cut off: the fuel ran out *).
Arguments Ret {A} a.
Arguments Raise {A} e.
Arguments Timeout {A}.

(** The result of running a computation from a link state: how it ends,
    the link state then, and the events in order. *)
Record run (T A : Type) : Type := Run {
  outcome_of : outcome A;
  link_of : T;
  events_of : list event
}.
Arguments Run {T A}.
Arguments outcome_of {T A}.
Arguments link_of {T A}.
Arguments events_of {T A}.

Definition M (T A : Type) : Type := T -> run T A.

Definition mret {T A} (a : A) : M T A := fun t => Run (Ret a) t [].

Definition mbind {T A B} (m : M T A) (f : A -> M T B) : M T B := fun t =>
  let r := m t in
  match outcome_of r with
  | Ret a =>
      let r' := f a (link_of r) in
      Run (outcome_of r') (link_of r') (events_of r ++ events_of r')
  | Raise e => Run (Raise e) (link_of r) (events_of r)
  | Timeout => Run Timeout (link_of r) (events_of r)
  end.

Definition raise {T A} (e : exn) : M T A := fun t => Run (Raise e) t [].
Definition timeout {T A} : M T A := fun t => Run Timeout t [].
Definition emit {T} (evs : list event) : M T unit := fun t => Run (Ret tt) t evs.
Definition lift_option {T A} (e : exn) (o : option A) : M T A :=
  match o with Some a => mret a | None => raise e end.

Declare Scope m_scope.
Delimit Scope m_scope with M.
Notation "x <- m ;; k" := (mbind m (fun x => k))
  (at level 61, m at next level, right associativity) : m_scope.
Notation "m ;; k" := (mbind m (fun _ => k))
  (at level 61, right associativity) : m_scope.

(** [re.match(rb"^\xff*$", data)]: a run of [0xff] bytes up to the end of
    the data, where [$] (without [re.MULTILINE]) also matches just before
    a line feed that is the last byte. *)
Fixpoint re_match_ff (data : list byte) : bool :=
  match data with
  | [] => true
  | [b] => Byte.eqb b xff || Byte.eqb b x0a
  | b :: rest => Byte.eqb b xff && re_match_ff rest
  end.

(** Every byte is [0xff]. *)
Definition all_ff (data : list byte) : bool := forallb (Byte.eqb xff) data.

(** ** The driver: [class ECP5ProgramInterface] *)

Section Driver.

Context {T : Type} {link : JTAG T}.
Local Open Scope m_scope.

(** [self._log(message, *args)] *)
Definition _log (m : log_msg) : M T unit := emit [Log m].

(** [_sdr_array(tdi)] *)
Definition _sdr_array (tdi : bitarray) : M T bitarray := fun t =>
  let t1 := enter_shift_dr t in
  let '(tdo_bits, t2) := shift_tdio tdi t1 in
  let t3 := enter_pause_dr t2 in
  Run (Ret tdo_bits) t3 [EnterShiftDR; ShiftTDIO tdi tdo_bits; EnterPauseDR].

(** [_command(cmd, arg, dummy, ret)]; [arg] is already a [bytes] object
    at every call site but [write_status], which converts first. *)
Definition _command (cmd : Z) (arg : list byte) (dummy ret : Z)
  : M T (list byte) :=
  _log (LogCmd cmd arg dummy ret) ;;
  let xmit := hexlify (cmd :: map byte_val arg ++ repeat 0 (Z.to_nat dummy)) in
  tdi <- lift_option ValueError (_bitarray xmit) ;;
  value <- _sdr_array tdi ;;
  (* Clock in return value *)
  let xmit := hexlify (repeat 0 (Z.to_nat ret)) in
  tdi <- lift_option ValueError (_bitarray xmit) ;;
  value <- _sdr_array tdi ;;
  _log (LogResult value) ;;
  mret (decode_response value).

Definition wakeup : M T unit :=
  _log LogWakeup ;;
  _command 171 [] 4 0 ;;
  mret tt.

(** [_format_addr(addr)] *)
Definition _format_addr (addr : Z) : list byte :=
  [low_byte (Z.land (Z.shiftr addr 16) 255);
   low_byte (Z.land (Z.shiftr addr 8) 255);
   low_byte (Z.land addr 255)].

(** The [while length > len(data)] loop of [_read_command]. *)
Fixpoint _read_loop (fuel : nat) (address length chunk_size cmd dummy : Z)
    (callback : callback_t) (data : list byte) : M T (list byte) :=
  if len data <? length then
    match fuel with
    | O => timeout
    | S fuel' =>
        emit (callback (len data) length (Some (ReadingAddress address))) ;;
        chunk <- _command cmd (_format_addr address) dummy
                          (Z.min chunk_size (length - len data)) ;;
        _read_loop fuel' (address + len chunk) length chunk_size cmd dummy
                   callback (data ++ chunk)
    end
  else mret data.

(** [_read_command(address, length, chunk_size, cmd, dummy, callback)] *)
Definition _read_command (gas : nat) (address length : Z)
    (chunk_size : option Z) (cmd dummy : Z) (callback : callback_t)
  : M T (list byte) :=
  let chunk_size := match chunk_size with None => 255 | Some c => c end in
  _read_loop gas address length chunk_size cmd dummy callback [].

Definition read (gas : nat) (address length : Z) (chunk_size : option Z)
    (callback : callback_t) : M T (list byte) :=
  _log (LogRead address length) ;;
  _read_command gas address length chunk_size 3 0 callback.

Definition fast_read (gas : nat) (address length : Z) (chunk_size : option Z)
    (callback : callback_t) : M T (list byte) :=
  _log (LogFastRead address length) ;;
  _read_command gas address length chunk_size 11 1 callback.

(** [status, = await self._command(0x05, ret=1)]: unpacking anything but
    one byte is a [ValueError]. *)
Definition read_status : M T Z :=
  r <- _command 5 [] 0 1 ;;
  match r with
  | [status] =>
      let status := byte_val status in
      _log (LogReadStatus status) ;;
      mret status
  | _ => raise ValueError
  end.

Definition write_enable : M T unit :=
  _log LogWriteEnable ;;
  _command 6 [] 0 0 ;;
  mret tt.

Definition write_disable : M T unit :=
  _log LogWriteDisable ;;
  _command 4 [] 0 0 ;;
  mret tt.

(** [status & BIT_WEL and not status & BIT_WIP] *)
Definition wel_without_wip (status : Z) : bool :=
  negb (Z.land status BIT_WEL =? 0) && (Z.land status BIT_WIP =? 0).

Definition write_in_progress (command : String.string) : M T bool :=
  status <- read_status ;;
  if wel_without_wip status then
    status <- read_status ;;
    if wel_without_wip status then
      raise (ProgramECP5Error command status)
    else mret (negb (Z.land status BIT_WIP =? 0))
  else mret (negb (Z.land status BIT_WIP =? 0)).

(** [while await self.write_in_progress(command=...): pass] *)
Fixpoint wait_write (fuel : nat) (command : String.string) : M T unit :=
  match fuel with
  | O => timeout
  | S fuel' =>
      busy <- write_in_progress command ;;
      if busy then wait_write fuel' command else mret tt
  end.

(** [write_status(status)]; [arg=[status]] becomes [bytes] inside
    [_command], before anything is sent. *)
Definition write_status (gas : nat) (status : Z) : M T unit :=
  _log (LogWriteStatus status) ;;
  arg <- lift_option ValueError (byte_of_Z status) ;;
  _command 1 [arg] 0 0 ;;
  wait_write gas "WRITE STATUS"%string.

Definition sector_erase (gas : nat) (address : Z) : M T unit :=
  _log (LogSectorErase address) ;;
  _command 32 (_format_addr address) 0 0 ;;
  wait_write gas "SECTOR ERASE"%string.

Definition block_erase (gas : nat) (address : Z) : M T unit :=
  _log (LogBlockErase address) ;;
  _command 82 (_format_addr address) 0 0 ;;
  wait_write gas "BLOCK ERASE"%string.

Definition chip_erase (gas : nat) : M T unit :=
  _log LogChipErase ;;
  _command 96 [] 0 0 ;;
  wait_write gas "CHIP ERASE"%string.

Definition page_program (gas : nat) (address : Z) (data : list byte) : M T unit :=
  _log (LogPageProgram address data) ;;
  _command 2 (_format_addr address ++ data) 0 0 ;;
  wait_write gas "PAGE PROGRAM"%string.

(** The [while len(data) > 0] loop of [program]; it returns [done]. *)
Fixpoint program_loop (fuel gas : nat) (address : Z) (data : list byte)
    (page_size : Z) (callback : callback_t) (done total : Z) : M T Z :=
  if 0 <? len data then
    match fuel with
    | O => timeout
    | S fuel' =>
        if page_size =? 0 then raise ZeroDivisionError else
        let chunk := slice_to (page_size - address mod page_size) data in
        let data := skipn (length chunk) data in
        emit (callback done total (Some (ProgrammingPage address))) ;;
        write_enable ;;
        page_program gas address chunk ;;
        program_loop fuel' gas (address + len chunk) data page_size callback
                     (done + len chunk) total
    end
  else mret done.

Definition program (gas : nat) (address : Z) (data : list byte)
    (page_size : Z) (callback : callback_t) : M T unit :=
  let total := len data in
  done <- program_loop gas gas address data page_size callback 0 total ;;
  emit (callback done total None).

(** The sector image [sector_data] that [erase_program] builds for a
    [chunk] to be written at [address]: the chunk itself when it is a
    whole aligned sector, else the sector as read back with the chunk
    assigned to its slice. *)
Definition sector_image (gas : nat) (address : Z) (chunk : list byte)
    (sector_size : Z) : M T (list byte) :=
  let sector_start := Z.land address (Z.lnot (sector_size - 1)) in
  if (address mod sector_size =? 0) && (len chunk =? sector_size) then
    mret chunk
  else
    sector_data <- read gas sector_start sector_size None no_callback ;;
    mret (slice_assign (address mod sector_size)
                       (address mod sector_size + len chunk)
                       chunk sector_data).

(** What one turn of the loop of [erase_program] does with its [chunk],
    from [sector_start = ...] to the conditional [program]. *)
Definition erase_program_chunk (gas : nat) (address : Z) (chunk : list byte)
    (sector_size page_size : Z) (callback : callback_t) (done total : Z)
  : M T unit :=
  let sector_start := Z.land address (Z.lnot (sector_size - 1)) in
  sector_data <- sector_image gas address chunk sector_size ;;
  emit (callback done total (Some (ErasingSector sector_start))) ;;
  write_enable ;;
  sector_erase gas sector_start ;;
  if negb (re_match_ff sector_data) then
    program gas sector_start sector_data page_size
            (fun page_done page_total status =>
               callback (done + page_done) total status)
  else mret tt.

(** The [while len(data) > 0] loop of [erase_program]; it returns [done]. *)
Fixpoint erase_program_loop (fuel gas : nat) (address : Z) (data : list byte)
    (sector_size page_size : Z) (callback : callback_t) (done total : Z)
  : M T Z :=
  if 0 <? len data then
    match fuel with
    | O => timeout
    | S fuel' =>
        if sector_size =? 0 then raise ZeroDivisionError else
        let chunk := slice_to (sector_size - address mod sector_size) data in
        let data := skipn (length chunk) data in
        erase_program_chunk gas address chunk sector_size page_size callback
                            done total ;;
        erase_program_loop fuel' gas (address + len chunk) data sector_size
                           page_size callback (done + len chunk) total
    end
  else mret done.

Definition erase_program (gas : nat) (address : Z) (data : list byte)
    (sector_size page_size : Z) (callback : callback_t) : M T unit :=
  let total := len data in
  done <- erase_program_loop gas gas address data sector_size page_size
                             callback 0 total ;;
  emit (callback done total None).

(** ** The applet: branches of [ProgramECP5Applet.interact] *)

(** The [for offset, (gold_byte, flash_byte) in enumerate(zip(...))] loop
    with its [break]: the first offset at which the two differ, with the
    two bytes there. *)
Fixpoint first_differing (offset : Z) (gold_data flash_data : list byte)
  : option (Z * byte * byte) :=
  match gold_data, flash_data with
  | gold_byte :: gold', flash_byte :: flash' =>
      if Byte.eqb gold_byte flash_byte
      then first_differing (offset + 1) gold' flash'
      else Some (offset, gold_byte, flash_byte)
  | _, _ => None
  end.

(** [gold_data == flash_data] *)
Fixpoint bytes_eqb (a b : list byte) : bool :=
  match a, b with
  | [], [] => true
  | x :: a', y :: b' => Byte.eqb x y && bytes_eqb a' b'
  | _, _ => false
  end.

(** The comparison of [verify], once [flash_data] has been read.  When
    the loop ends without a [break], [different_at] was never bound and
    the logging call fails. *)
Definition verify_compare (address : Z) (gold_data flash_data : list byte)
  : M T unit :=
  if bytes_eqb gold_data flash_data then
    _log InfoVerifyPass
  else
    match first_differing 0 gold_data flash_data with
    | Some (offset, gold_byte, flash_byte) =>
        let different_at := address + offset in
        _log (ErrorFirstDiffering different_at (byte_val gold_byte)
                                  (byte_val flash_byte)) ;;
        raise (GlasgowAppletError "verify FAIL"%string)
    | None => raise UnboundLocalError
    end.

(** [if args.operation == "verify": ...] *)
Definition interact_verify (gas : nat) (address : Z) (gold_data : list byte)
  : M T unit :=
  flash_data <- read gas address (len gold_data) None no_callback ;;
  verify_compare address gold_data flash_data.

(** [(status & MSK_PROT) >> 2] *)
Definition protect_field (status : Z) : Z :=
  Z.shiftr (Z.land status MSK_PROT) 2.

(** [(status & ~MSK_PROT) | ((args.bits << 2) & MSK_PROT)] *)
Definition protect_update (status bits : Z) : Z :=
  Z.lor (Z.land status (Z.lnot MSK_PROT)) (Z.land (Z.shiftl bits 2) MSK_PROT).

(** [if args.operation == "protect": ...] *)
Definition interact_protect (gas : nat) (bits : option Z) : M T unit :=
  status <- read_status ;;
  match bits with
  | None => _log (InfoBlockProtect (protect_field status))
  | Some bits =>
      let status := protect_update status bits in
      write_enable ;;
      write_status gas status
  end.

End Driver.

(** ** Two concrete links *)

(** A link with nothing behind it: every shift reads back zeros. *)
#[export] Instance silent_link : JTAG unit := {
  enter_shift_dr t := t;
  shift_tdio tdi t := (repeat false (length tdi), t);
  enter_pause_dr t := t
}.

(** [v] cut or zero-filled to [n] bits. *)
Definition resize (n : nat) (v : bitarray) : bitarray :=
  firstn n (v ++ repeat false n).

(** A link that plays back a script: the state is the list of the
    bit strings still to be returned, one per shift, each fitted to the
    number of bits shifted in; after the script it reads zeros. *)
#[export] Instance scripted_link : JTAG (list bitarray) := {
  enter_shift_dr t := t;
  shift_tdio tdi t :=
    match t with
    | [] => (repeat false (length tdi), [])
    | r :: t' => (resize (length tdi) r, t')
    end;
  enter_pause_dr t := t
}.

(** The bits a link must return for [_command] to decode them to [bs]. *)
Definition wire_of_bytes (bs : list byte) : bitarray :=
  reverse (bytereverse (frombytes bs)).

(** The script in which the flash answers the successive commands with
    the given responses (the first shift of a command returns nothing of
    interest). *)
Definition script_of (responses : list (list byte)) : list bitarray :=
  flat_map (fun r => [[]; wire_of_bytes r]) responses.

(** ** Vocabulary of the statements *)

(** *** Contracts on the link *)

(** A shift is full-duplex: as many bits come back as went in. *)
Definition full_duplex {T : Type} (link : JTAG T) : Prop :=
  forall tdi t, length (fst (shift_tdio tdi t)) = length tdi.

(** The flash is never seen busy: whenever the status register is read,
    WIP and WEL are both clear. *)
Definition always_ready {T : Type} (link : JTAG T) : Prop :=
  forall t : T, exists status,
    outcome_of (read_status t) = Ret status /\
    Z.land status BIT_WIP = 0 /\ Z.land status BIT_WEL = 0.

(** *** Views of a trace *)

(** Events below the command layer: the calls on the link, and the log
    lines of [_command] and [read_status]. *)
Definition low (e : event) : bool :=
  match e with
  | EnterShiftDR | ShiftTDIO _ _ | EnterPauseDR => true
  | Log (LogCmd _ _ _ _) | Log (LogResult _) | Log (LogReadStatus _) => true
  | _ => false
  end.

(** The trace at the level of flash commands and progress reports. *)
Definition high (evs : list event) : list event :=
  filter (fun e => negb (low e)) evs.

(** The calls on the JTAG link. *)
Definition link_calls (evs : list event) : list event :=
  filter (fun e => match e with
                   | EnterShiftDR | ShiftTDIO _ _ | EnterPauseDR => true
                   | _ => false
                   end) evs.

Definition select {X : Type} (pick : event -> list X) (evs : list event)
  : list X := flat_map pick evs.

(** The page-program calls: address and data. *)
Definition page_programs : list event -> list (Z * list byte) :=
  select (fun e => match e with
                   | Log (LogPageProgram a d) => [(a, d)]
                   | _ => []
                   end).

(** The addresses of the sector-erase calls. *)
Definition sector_erases : list event -> list Z :=
  select (fun e => match e with Log (LogSectorErase a) => [a] | _ => [] end).

(** The [read] calls: address and length. *)
Definition sector_reads : list event -> list (Z * Z) :=
  select (fun e => match e with Log (LogRead a n) => [(a, n)] | _ => [] end).

(** The commands sent: opcode and argument bytes. *)
Definition commands_sent : list event -> list (Z * list byte) :=
  select (fun e => match e with
                   | Log (LogCmd cmd arg _ _) => [(cmd, arg)]
                   | _ => []
                   end).

(** The write-enable calls. *)
Definition write_enables : list event -> list unit :=
  select (fun e => match e with Log LogWriteEnable => [tt] | _ => [] end).

(** The values read from the status register. *)
Definition status_reads : list event -> list Z :=
  select (fun e => match e with Log (LogReadStatus s) => [s] | _ => [] end).

(** The values written to the status register. *)
Definition status_writes : list event -> list Z :=
  select (fun e => match e with Log (LogWriteStatus s) => [s] | _ => [] end).

(** The calls of the progress observer. *)
Definition progress_calls : list event -> list (Z * Z * option status_text) :=
  select (fun e => match e with Progress d t s => [(d, t, s)] | _ => [] end).

(** *** Pages and sectors *)

(** The [n] bytes from [a] lie in one page of [page_size] bytes. *)
Definition within_one_page (page_size a n : Z) : Prop :=
  exists k, k * page_size <= a /\ a + n <= (k + 1) * page_size.

(** Chunks laid end to end from [a]. *)
Fixpoint contiguous_from (a : Z) (chunks : list (Z * list byte)) : Prop :=
  match chunks with
  | [] => True
  | (a', c) :: rest => a' = a /\ contiguous_from (a + len c) rest
  end.

(** The progress reports that go with a list of page programs: before
    each chunk, the number of bytes of the chunks before it. *)
Fixpoint progress_plan (done total : Z) (chunks : list (Z * list byte))
  : list (Z * Z * option status_text) :=
  match chunks with
  | [] => []
  | (a, c) :: rest =>
      (done, total, Some (ProgrammingPage a))
        :: progress_plan (done + len c) total rest
  end.

(** The command-level trace of [program] over a list of chunks: before
    each chunk what the callback makes of the report, then write-enable
    and page-program. *)
Fixpoint program_plan (callback : callback_t) (done total : Z)
    (chunks : list (Z * list byte)) : list event :=
  match chunks with
  | [] => []
  | (a, c) :: rest =>
      callback done total (Some (ProgrammingPage a))
        ++ Log LogWriteEnable
        :: Log (LogPageProgram a c)
        :: program_plan callback (done + len c) total rest
  end.

(** A callback that does nothing but report to the observer. *)
Definition is_progress (e : event) : bool :=
  match e with Progress _ _ _ => true | _ => false end.

Definition reporting (callback : callback_t) : Prop :=
  forall done total status,
    forallb is_progress (callback done total status) = true.

(** [data], starting at address [a], cut at the page boundaries: every
    chunk runs to the end of its page or to the end of the data,
    whichever comes first. *)
Fixpoint paged (page_size a : Z) (data : list byte)
    (chunks : list (Z * list byte)) : Prop :=
  match chunks with
  | [] => data = []
  | (a', c) :: rest =>
      a' = a /\ c <> [] /\
      len c = Z.min (len data) (page_size - a mod page_size) /\
      c = firstn (length c) data /\
      paged page_size (a + len c) (skipn (length c) data) rest
  end.



(** A run of [0xff] bytes closed by one line feed: the images that are
    not all [0xff] and that [re_match_ff] accepts all the same. *)
Definition ff_then_newline (data : list byte) : bool :=
  match rev data with
  | b :: front => Byte.eqb b x0a && all_ff front
  | [] => false
  end.

(** WEL (bit 1) set and WIP (bit 0) clear. *)
Definition wel_set_wip_clear (status : Z) : Prop :=
  Z.testbit status 1 = true /\ Z.testbit status 0 = false.

(** *** More views and measures *)

(** The commands sent, in full: opcode, argument bytes, number of dummy
    bytes and number of bytes asked back. *)
Definition requests : list event -> list (Z * list byte * Z * Z) :=
  select (fun e => match e with
                   | Log (LogCmd cmd arg dummy ret) => [(cmd, arg, dummy, ret)]
                   | _ => []
                   end).

(** The read commands that fetch [length] bytes from [address] in chunks
    of [chunk_size]: one per chunk, each at the address after the chunk
    before it, the last one asking for what is left. *)
Definition read_requests (cmd dummy chunk_size address length : Z)
  : list (Z * list byte * Z * Z) :=
  map (fun i => (cmd, _format_addr (address + chunk_size * Z.of_nat i), dummy,
                 Z.min chunk_size (length - chunk_size * Z.of_nat i)))
      (seq 0 (Z.to_nat ((length + chunk_size - 1) / chunk_size))).

(** The integer that a bit string spells, first bit least significant. *)
Fixpoint bits_to_Z (bits : bitarray) : Z :=
  match bits with
  | [] => 0
  | b :: rest => Z.b2z b + 2 * bits_to_Z rest
  end.

(** The integer that a byte string spells, first byte most significant:
    what the hexadecimal text of the bytes reads as. *)
Definition be_value (bs : list byte) : Z :=
  fold_left (fun acc b => 256 * acc + byte_val b) bs 0.

(** The commands that change the flash, and so need the write-enable
    latch. *)
Definition is_write_command (e : event) : bool :=
  match e with
  | Log (LogPageProgram _ _) | Log (LogSectorErase _) | Log (LogBlockErase _)
  | Log LogChipErase | Log (LogWriteStatus _) => true
  | _ => false
  end.

Definition is_write_enable (e : event) : bool :=
  match e with Log LogWriteEnable => true | _ => false end.

(** In a command-level trace, every command that changes the flash comes
    right after a write-enable; [armed] tells whether the event before
    the trace was one. *)
Fixpoint write_enabled_before (armed : bool) (evs : list event) : bool :=
  match evs with
  | [] => true
  | e :: rest =>
      if is_write_command e then armed && write_enabled_before false rest
      else write_enabled_before (is_write_enable e) rest
  end.

(** ** The erase branches of [ProgramECP5Applet.interact] *)

(** [args.operation] in the branch for ["erase-sector"] and
    ["erase-block"]. *)
Inductive erase_operation : Type := EraseSector | EraseBlock.

Section Erasing.

Context {T : Type} {link : JTAG T}.
Local Open Scope m_scope.

(** [for address in args.addresses: ...] *)
Fixpoint interact_erase (gas : nat) (operation : erase_operation)
    (addresses : list Z) : M T unit :=
  match addresses with
  | [] => mret tt
  | address :: addresses' =>
      write_enable ;;
      match operation with
      | EraseSector => sector_erase gas address
      | EraseBlock => block_erase gas address
      end ;;
      interact_erase gas operation addresses'
  end.

(** [if args.operation == "erase-chip": ...] *)
Definition interact_erase_chip (gas : nat) : M T unit :=
  write_enable ;;
  chip_erase gas.

(** [if args.operation == "program-page": ...] *)
Definition interact_program_page (gas : nat) (address : Z) (data : list byte)
  : M T unit :=
  write_enable ;;
  page_program gas address data.

End Erasing.


(** The reports made with no status: [(done, total)] of each. *)
Definition completion_reports : list event -> list (Z * Z) :=
  select (fun e => match e with Progress d t None => [(d, t)] | _ => [] end).

(** The opcodes that change the flash: write status, page program,
    sector erase, block erase and chip erase. *)
Definition is_write_opcode (cmd : Z) : bool :=
  (cmd =? 1) || (cmd =? 2) || (cmd =? 32) || (cmd =? 82) || (cmd =? 96).

(** In the list of the commands sent on the link, every command that
    changes the flash comes right after a write enable (opcode 6, no
    argument), with no command of any kind between the two; [armed]
    tells whether the command before the list was a write enable. *)
Fixpoint write_enabled_on_wire (armed : bool) (cmds : list (Z * list byte))
  : bool :=
  match cmds with
  | [] => true
  | (cmd, arg) :: rest =>
      if is_write_opcode cmd then armed && write_enabled_on_wire false rest
      else write_enabled_on_wire ((cmd =? 6) && (len arg =? 0)) rest
  end.

(** * Properties *)

(** ** Bytes and hexadecimal text *)

Module HexFacts.
Import Hex.

Lemma byte_val_range (b : byte) : is_byte (byte_val b).
Proof.
  unfold is_byte, byte_val. pose proof (Byte.to_N_bounded b). lia.
Qed.

Lemma byte_of_Z_val (b : byte) : byte_of_Z (byte_val b) = Some b.
Proof.
  unfold byte_of_Z, byte_val.
  destruct (Z.ltb_spec (Z.of_N (Byte.to_N b)) 0); [lia|].
  rewrite N2Z.id. apply Byte.of_to_N.
Qed.

Lemma is_byte_val (z : Z) : is_byte z -> exists b, byte_of_Z z = Some b /\ byte_val b = z.
Proof.
  intros [Hlo Hhi]. unfold byte_of_Z.
  destruct (Z.ltb_spec z 0); [lia|].
  destruct (Byte.of_N (Z.to_N z)) as [b|] eqn:E.
  - exists b. split; [reflexivity|].
    unfold byte_val. rewrite (Byte.to_of_N _ E). lia.
  - apply Byte.of_N_None_iff in E. lia.
Qed.

Lemma low_byte_val (b : byte) : low_byte (byte_val b) = b.
Proof. destruct b; reflexivity. Qed.

(** The two digits that [format_02x] gives a byte read back as that byte. *)
Lemma format_02x_byte_check (b : byte) :
  match format_02x (byte_val b) with
  | [h; l] =>
      match hexval h, hexval l with
      | Some hv, Some lv => Byte.eqb (low_byte (16 * hv + lv)) b
      | _, _ => false
      end
  | _ => false
  end = true.
Proof. destruct b; vm_compute; reflexivity. Qed.

Lemma format_02x_byte (b : byte) :
  exists h l hv lv,
    format_02x (byte_val b) = [h; l] /\
    hexval h = Some hv /\ hexval l = Some lv /\
    low_byte (16 * hv + lv) = b.
Proof.
  pose proof (format_02x_byte_check b) as H.
  destruct (format_02x (byte_val b)) as [|h [|l [|]]]; try discriminate H.
  destruct (hexval h) as [hv|] eqn:Hh; [|discriminate H].
  destruct (hexval l) as [lv|] eqn:Hl; [|discriminate H].
  exists h, l, hv, lv. repeat split; try assumption.
  apply Byte.byte_dec_bl. exact H.
Qed.

Lemma fromhex_hexlify (bs : list byte) :
  fromhex (hexlify (map byte_val bs)) = Some bs.
Proof.
  induction bs as [|b bs IH]; [reflexivity|].
  unfold hexlify in *. cbn [map flat_map].
  destruct (format_02x_byte b) as (h & l & hv & lv & E & Hh & Hl & Hb).
  rewrite E. cbn [app fromhex]. rewrite Hh, Hl, IH, Hb. reflexivity.
Qed.

Lemma length_hexlify (bs : list byte) :
  len (hexlify (map byte_val bs)) = 2 * len bs.
Proof.
  unfold len. induction bs as [|b bs IH]; [reflexivity|].
  unfold hexlify in *. cbn [map flat_map].
  destruct (format_02x_byte b) as (h & l & hv & lv & E & _).
  rewrite E. cbn [app length]. lia.
Qed.

Lemma rjust0_hexlify (bs : list byte) :
  let s := hexlify (map byte_val bs) in
  rjust0 ((len s + 1) / 2 * 2) s = s.
Proof.
  cbv zeta. rewrite length_hexlify. unfold rjust0.
  rewrite length_hexlify.
  replace ((2 * len bs + 1) / 2) with (len bs)
    by (apply Z.div_unique with (r := 1); lia).
  replace (Z.to_nat (len bs * 2 - 2 * len bs)) with 0%nat by lia.
  reflexivity.
Qed.

End HexFacts.

(** ** Bit strings *)

Module BitFacts.
Import Hex Bitarray HexFacts.

Ltac open_byte b :=
  unfold byte_bits, bitrev8, bits_byte;
  let E := fresh "E" in
  destruct (Byte.to_bits b) as (?b0 & ?b1 & ?b2 & ?b3 & ?b4 & ?b5 & ?b6 & ?b7) eqn:E.

Lemma byte_bits_length (b : byte) : length (byte_bits b) = 8%nat.
Proof. open_byte b. reflexivity. Qed.

Lemma tobytes_bits (b : byte) (rest : bitarray) :
  tobytes (byte_bits b ++ rest) = b :: tobytes rest.
Proof.
  open_byte b. cbn [app tobytes]. unfold bits_byte.
  rewrite <- E, Byte.of_bits_to_bits. reflexivity.
Qed.

Lemma tobytes_rev_bits (b : byte) (rest : bitarray) :
  tobytes (rev (byte_bits b) ++ rest) = bitrev8 b :: tobytes rest.
Proof. open_byte b. reflexivity. Qed.

Lemma bytereverse_bits (b : byte) (rest : bitarray) :
  bytereverse (byte_bits b ++ rest) = rev (byte_bits b) ++ bytereverse rest.
Proof. open_byte b. reflexivity. Qed.

Lemma bytereverse_rev_bits (b : byte) (rest : bitarray) :
  bytereverse (rev (byte_bits b) ++ rest) = byte_bits b ++ bytereverse rest.
Proof. open_byte b. reflexivity. Qed.

(** The bits of every byte turned round, the bytes in place: what
    [bytereverse] makes of [frombytes]. *)
Lemma bytereverse_frombytes (bs : list byte) :
  bytereverse (frombytes bs) = flat_map (fun b => rev (byte_bits b)) bs.
Proof.
  unfold frombytes. induction bs as [|b bs IH]; [reflexivity|].
  cbn [flat_map]. rewrite bytereverse_bits, IH. reflexivity.
Qed.

Lemma bytereverse_turned (bs : list byte) :
  bytereverse (flat_map (fun b => rev (byte_bits b)) bs) = frombytes bs.
Proof.
  unfold frombytes. induction bs as [|b bs IH]; [reflexivity|].
  cbn [flat_map]. rewrite bytereverse_rev_bits, IH. reflexivity.
Qed.

Lemma reverse_frombytes (bs : list byte) :
  reverse (frombytes bs) = flat_map (fun b => rev (byte_bits b)) (rev bs).
Proof.
  unfold reverse, frombytes. induction bs as [|b bs IH]; [reflexivity|].
  cbn [flat_map rev]. rewrite rev_app_distr, IH, flat_map_app.
  cbn [flat_map]. rewrite app_nil_r. reflexivity.
Qed.

Lemma reverse_turned (bs : list byte) :
  reverse (flat_map (fun b => rev (byte_bits b)) bs) = frombytes (rev bs).
Proof.
  unfold reverse, frombytes. induction bs as [|b bs IH]; [reflexivity|].
  cbn [flat_map rev]. rewrite rev_app_distr, IH, flat_map_app, rev_involutive.
  cbn [flat_map]. rewrite app_nil_r. reflexivity.
Qed.

Lemma tobytes_frombytes (bs : list byte) : tobytes (frombytes bs) = bs.
Proof.
  unfold frombytes. induction bs as [|b bs IH]; [reflexivity|].
  cbn [flat_map]. rewrite tobytes_bits, IH. reflexivity.
Qed.

Lemma tobytes_turned (bs : list byte) :
  tobytes (flat_map (fun b => rev (byte_bits b)) bs) = map bitrev8 bs.
Proof.
  induction bs as [|b bs IH]; [reflexivity|].
  cbn [flat_map map]. rewrite tobytes_rev_bits, IH. reflexivity.
Qed.

Lemma length_frombytes (bs : list byte) :
  length (frombytes bs) = (8 * length bs)%nat.
Proof.
  unfold frombytes. induction bs as [|b bs IH]; [reflexivity|].
  cbn [flat_map]. rewrite length_app, byte_bits_length, IH. cbn [length]. lia.
Qed.

Lemma length_turned (bs : list byte) :
  length (flat_map (fun b => rev (byte_bits b)) bs) = (8 * length bs)%nat.
Proof.
  induction bs as [|b bs IH]; [reflexivity|].
  cbn [flat_map]. rewrite length_app, length_rev, byte_bits_length, IH.
  cbn [length]. lia.
Qed.

(** Every bit string of [8 * n] bits is [frombytes] of [n] bytes. *)
Lemma frombytes_onto (n : nat) :
  forall v : bitarray, length v = (8 * n)%nat ->
  exists bs, v = frombytes bs /\ length bs = n.
Proof.
  induction n as [|n IH]; intros v Hv.
  - destruct v; [|discriminate]. exists []. split; reflexivity.
  - destruct v as [|b0 [|b1 [|b2 [|b3 [|b4 [|b5 [|b6 [|b7 v]]]]]]]];
      try (cbn in Hv; lia).
    destruct (IH v) as (bs & -> & Hbs); [cbn in Hv; lia|].
    exists (bits_byte b0 b1 b2 b3 b4 b5 b6 b7 :: bs). split.
    + unfold frombytes. cbn [flat_map]. unfold byte_bits, bits_byte.
      rewrite Byte.to_bits_of_bits. reflexivity.
    + cbn [length]. rewrite Hbs. reflexivity.
Qed.

(** What the two encoders give for the text of a byte string. *)
Lemma _bitarray_hexlify (bs : list byte) :
  _bitarray (hexlify (map byte_val bs)) = Some (bytereverse (frombytes bs)).
Proof.
  unfold _bitarray. rewrite rjust0_hexlify, fromhex_hexlify. reflexivity.
Qed.

Lemma _hex_to_bitarray_hexlify (bs : list byte) :
  _hex_to_bitarray (hexlify (map byte_val bs)) = Some (frombytes (rev bs)).
Proof.
  unfold _hex_to_bitarray. rewrite rjust0_hexlify, fromhex_hexlify.
  rewrite reverse_frombytes, bytereverse_turned. reflexivity.
Qed.

Lemma decode_response_frombytes (bs : list byte) :
  decode_response (frombytes bs) = rev bs.
Proof.
  unfold decode_response.
  rewrite reverse_frombytes, bytereverse_turned, tobytes_frombytes.
  reflexivity.
Qed.

Lemma decode_response_turned (bs : list byte) :
  decode_response (bytereverse (frombytes bs)) = map bitrev8 (rev bs).
Proof.
  unfold decode_response.
  rewrite bytereverse_frombytes, reverse_turned, bytereverse_frombytes.
  apply tobytes_turned.
Qed.

(** Decoding keeps the number of bytes. *)
Lemma length_decode_response (n : nat) (v : bitarray) :
  length v = (8 * n)%nat -> length (decode_response v) = n.
Proof.
  intros Hv. destruct (frombytes_onto n v Hv) as (bs & -> & Hbs).
  rewrite decode_response_frombytes, length_rev. exact Hbs.
Qed.

Lemma decode_wire_of_bytes (bs : list byte) :
  decode_response (wire_of_bytes bs) = bs.
Proof.
  unfold wire_of_bytes.
  rewrite bytereverse_frombytes, reverse_turned, decode_response_frombytes.
  apply rev_involutive.
Qed.

End BitFacts.

(** ** The codecs (claim C1) *)

Import HexFacts BitFacts.

(** C1, as the code has it.  The instruction-direction codec
    ([_hex_to_bitarray]) round-trips: its output, put through the
    reverse-then-bytereverse decoding step, is the byte string again
    (and read directly with [tobytes] it is the byte string in the
    opposite byte order).  The command-direction pair does not: what
    [_bitarray] encodes, the decoding step of [_command] turns into the
    byte string in the opposite byte order with the bits of every byte
    reversed. *)
Theorem codec_round_trip (B : list byte) :
  (exists bits,
     encode_instruction (map byte_val B) = Some bits /\
     decode_response bits = B /\
     tobytes bits = rev B) /\
  (exists bits,
     encode_command (map byte_val B) = Some bits /\
     decode_response bits = map bitrev8 (rev B)).
Proof.
  split.
  - exists (frombytes (rev B)). split; [apply _hex_to_bitarray_hexlify|].
    split.
    + rewrite decode_response_frombytes. apply rev_involutive.
    + apply tobytes_frombytes.
  - exists (bytereverse (frombytes B)). split; [apply _bitarray_hexlify|].
    apply decode_response_turned.
Qed.

(** C1 as stated fails for the command-direction codec: the single byte
    [0x01] comes back as [0x80]. *)
Lemma codec_command_round_trip_fails :
  ~ (forall B bits,
       encode_command (map byte_val B) = Some bits ->
       decode_response bits = B).
Proof.
  intros H. specialize (H [x01] _ eq_refl). vm_compute in H. discriminate H.
Qed.

(** ** Running computations *)

Section MonadFacts.

Context {T : Type}.

Lemma outcome_mbind {A B} (m : M T A) (f : A -> M T B) (t : T) :
  outcome_of (mbind m f t) =
  match outcome_of (m t) with
  | Ret a => outcome_of (f a (link_of (m t)))
  | Raise e => Raise e
  | Timeout => Timeout
  end.
Proof. unfold mbind. destruct (outcome_of (m t)); reflexivity. Qed.

Lemma events_mbind {A B} (m : M T A) (f : A -> M T B) (t : T) :
  events_of (mbind m f t) =
  events_of (m t) ++
  match outcome_of (m t) with
  | Ret a => events_of (f a (link_of (m t)))
  | _ => []
  end.
Proof.
  unfold mbind. destruct (outcome_of (m t)); cbn [events_of];
    rewrite ?app_nil_r; reflexivity.
Qed.

Lemma link_mbind {A B} (m : M T A) (f : A -> M T B) (t : T) :
  link_of (mbind m f t) =
  match outcome_of (m t) with
  | Ret a => link_of (f a (link_of (m t)))
  | _ => link_of (m t)
  end.
Proof. unfold mbind. destruct (outcome_of (m t)); reflexivity. Qed.

(** A bind that returns: both halves returned. *)
Lemma mbind_Ret {A B} (m : M T A) (f : A -> M T B) (t : T) (b : B) :
  outcome_of (mbind m f t) = Ret b ->
  exists a, outcome_of (m t) = Ret a /\
            outcome_of (f a (link_of (m t))) = Ret b.
Proof.
  rewrite outcome_mbind. destruct (outcome_of (m t)) as [a| |];
    try discriminate. intros H. exists a. split; [reflexivity|exact H].
Qed.

Lemma select_app {X} (pick : event -> list X) (e1 e2 : list event) :
  select pick (e1 ++ e2) = select pick e1 ++ select pick e2.
Proof. apply flat_map_app. Qed.

Lemma high_app (e1 e2 : list event) : high (e1 ++ e2) = high e1 ++ high e2.
Proof. apply filter_app. Qed.

(** Events below the command layer do not show in the command-level
    views. *)
Lemma high_low (evs : list event) :
  Forall (fun e => low e = true) evs -> high evs = [].
Proof.
  induction 1 as [|e evs He _ IH]; [reflexivity|].
  unfold high in *. cbn [filter]. rewrite He. exact IH.
Qed.

Lemma select_low {X} (pick : event -> list X) (evs : list event) :
  (forall e, low e = true -> pick e = []) ->
  Forall (fun e => low e = true) evs -> select pick evs = [].
Proof.
  intros Hp. induction 1 as [|e evs He _ IH]; [reflexivity|].
  unfold select in *. cbn [flat_map]. rewrite (Hp e He), IH. reflexivity.
Qed.

Lemma select_high {X} (pick : event -> list X) (evs : list event) :
  (forall e, low e = true -> pick e = []) ->
  select pick (high evs) = select pick evs.
Proof.
  intros Hp. induction evs as [|e evs IH]; [reflexivity|].
  unfold select, high in *. cbn [filter flat_map].
  destruct (low e) eqn:He; cbn [negb flat_map].
  - rewrite (Hp e He). exact IH.
  - rewrite IH. reflexivity.
Qed.

End MonadFacts.

(** ** The transceiver (claim C7) *)

Section Transceiver.

Context {T : Type} (link : JTAG T).

(** What one [_command] does, step by step, for an opcode that is a
    byte. *)
Lemma _command_run (cmd : Z) (arg : list byte) (dummy ret : Z) (t : T) :
  is_byte cmd ->
  let tdi1 := bytereverse (frombytes
                (low_byte cmd :: arg ++ repeat x00 (Z.to_nat dummy))) in
  let s1 := shift_tdio tdi1 (enter_shift_dr t) in
  let tdi2 := bytereverse (frombytes (repeat x00 (Z.to_nat ret))) in
  let s2 := shift_tdio tdi2 (enter_shift_dr (enter_pause_dr (snd s1))) in
  encode_command (cmd :: map byte_val arg ++ repeat 0 (Z.to_nat dummy))
    = Some tdi1 /\
  encode_command (repeat 0 (Z.to_nat ret)) = Some tdi2 /\
  _command cmd arg dummy ret t =
  Run (Ret (decode_response (fst s2))) (enter_pause_dr (snd s2))
      [Log (LogCmd cmd arg dummy ret);
       EnterShiftDR; ShiftTDIO tdi1 (fst s1); EnterPauseDR;
       EnterShiftDR; ShiftTDIO tdi2 (fst s2); EnterPauseDR;
       Log (LogResult (fst s2))].
Proof.
  intros Hcmd. cbv zeta.
  assert (E1 : encode_command
                 (cmd :: map byte_val arg ++ repeat 0 (Z.to_nat dummy)) =
               Some (bytereverse (frombytes
                 (low_byte cmd :: arg ++ repeat x00 (Z.to_nat dummy))))).
  { destruct (is_byte_val cmd Hcmd) as (c & _ & Hc). subst cmd.
    rewrite low_byte_val. unfold encode_command.
    replace (byte_val c :: map byte_val arg ++ repeat 0 (Z.to_nat dummy))
      with (map byte_val (c :: arg ++ repeat x00 (Z.to_nat dummy))).
    - apply _bitarray_hexlify.
    - cbn [map]. rewrite map_app, map_repeat. reflexivity. }
  assert (E2 : encode_command (repeat 0 (Z.to_nat ret)) =
               Some (bytereverse (frombytes (repeat x00 (Z.to_nat ret))))).
  { unfold encode_command.
    replace (repeat 0 (Z.to_nat ret))
      with (map byte_val (repeat x00 (Z.to_nat ret)))
      by (rewrite map_repeat; reflexivity).
    apply _bitarray_hexlify. }
  split; [exact E1|]. split; [exact E2|].
  unfold encode_command in E1, E2.
  unfold _command, mbind, _log, emit, _sdr_array. cbn [outcome_of link_of events_of].
  rewrite E1. cbn [lift_option mret outcome_of link_of events_of].
  destruct (shift_tdio _ (enter_shift_dr t)) as [tdo1 t2].
  cbn [outcome_of link_of events_of fst snd].
  rewrite E2. cbn [lift_option mret outcome_of link_of events_of].
  destruct (shift_tdio _ (enter_shift_dr (enter_pause_dr t2))) as [tdo2 t4].
  reflexivity.
Qed.

(** The zero bytes of the second buffer are zero bits on the wire. *)
Lemma zero_buffer (n : nat) :
  bytereverse (frombytes (repeat x00 n)) = repeat false (8 * n).
Proof.
  rewrite bytereverse_frombytes.
  induction n as [|n IH]; [reflexivity|].
  cbn [repeat flat_map]. rewrite IH.
  replace (8 * S n)%nat with (8 + 8 * n)%nat by lia. reflexivity.
Qed.

(** C7.  Over a full-duplex link, every call of [_command] with a
    one-byte opcode makes exactly two DR shift cycles, each one whole
    buffer between entering Shift-DR and entering Pause-DR: first the
    encoded opcode, argument bytes and [dummy] zero bytes, then [ret]
    zero bytes; what the link returns for the second buffer, decoded, is
    the result, [ret] bytes long. *)
Theorem _command_two_dr_shifts
    (cmd : Z) (arg : list byte) (dummy ret : Z) (t : T) :
  full_duplex link -> is_byte cmd -> 0 <= ret ->
  exists tdi1 tdo1 tdi2 tdo2,
    link_calls (events_of (_command cmd arg dummy ret t)) =
      [EnterShiftDR; ShiftTDIO tdi1 tdo1; EnterPauseDR;
       EnterShiftDR; ShiftTDIO tdi2 tdo2; EnterPauseDR] /\
    encode_command (cmd :: map byte_val arg ++ repeat 0 (Z.to_nat dummy))
      = Some tdi1 /\
    tobytes (bytereverse tdi1)
      = low_byte cmd :: arg ++ repeat x00 (Z.to_nat dummy) /\
    encode_command (repeat 0 (Z.to_nat ret)) = Some tdi2 /\
    tdi2 = repeat false (8 * Z.to_nat ret) /\
    tdo2 = fst (shift_tdio tdi2
             (enter_shift_dr (enter_pause_dr
                (snd (shift_tdio tdi1 (enter_shift_dr t)))))) /\
    outcome_of (_command cmd arg dummy ret t) = Ret (decode_response tdo2) /\
    len (decode_response tdo2) = ret.
Proof.
  intros Hfd Hcmd Hret.
  destruct (_command_run cmd arg dummy ret t Hcmd) as (E1 & E2 & E).
  cbv zeta in E. rewrite E. cbn [events_of outcome_of link_calls filter].
  do 4 eexists. split; [reflexivity|].
  split; [exact E1|]. split.
  { rewrite bytereverse_frombytes, bytereverse_turned.
    apply tobytes_frombytes. }
  split; [exact E2|]. split; [apply zero_buffer|].
  split; [reflexivity|]. split; [reflexivity|].
  unfold len. rewrite (length_decode_response (Z.to_nat ret)); [lia|].
  rewrite Hfd, zero_buffer. apply repeat_length.
Qed.

End Transceiver.

Lemma silent_full_duplex : full_duplex silent_link.
Proof. intros tdi t. apply repeat_length. Qed.

Lemma scripted_full_duplex : full_duplex scripted_link.
Proof.
  intros tdi [|r t]; cbn [shift_tdio scripted_link fst].
  - apply repeat_length.
  - unfold resize. rewrite length_firstn, length_app, repeat_length. lia.
Qed.

(** The status read [_command(0x05, ret=1)] on a link that answers
    [0x03]. *)
Lemma _command_two_dr_shifts_witness :
  exists tdi1 tdo1 tdi2 tdo2,
    link_calls (events_of (_command 5 [] 0 1 (script_of [[x03]]))) =
      [EnterShiftDR; ShiftTDIO tdi1 tdo1; EnterPauseDR;
       EnterShiftDR; ShiftTDIO tdi2 tdo2; EnterPauseDR] /\
    encode_command (5 :: map byte_val [] ++ repeat 0 (Z.to_nat 0))
      = Some tdi1 /\
    tobytes (bytereverse tdi1) = low_byte 5 :: [] ++ repeat x00 (Z.to_nat 0) /\
    encode_command (repeat 0 (Z.to_nat 1)) = Some tdi2 /\
    tdi2 = repeat false (8 * Z.to_nat 1) /\
    tdo2 = fst (shift_tdio tdi2
             (enter_shift_dr (enter_pause_dr
                (snd (shift_tdio tdi1 (enter_shift_dr (script_of [[x03]]))))))) /\
    outcome_of (_command 5 [] 0 1 (script_of [[x03]]))
      = Ret (decode_response tdo2) /\
    len (decode_response tdo2) = 1.
Proof.
  apply (_command_two_dr_shifts scripted_link 5 [] 0 1 (script_of [[x03]])).
  - intros tdi [|r t]; cbn [shift_tdio scripted_link fst].
    + apply repeat_length.
    + unfold resize. rewrite length_firstn, length_app, repeat_length. lia.
  - unfold is_byte. lia.
  - lia.
Defined.

(** ** The flash command layer *)

Lemma land_single_bit (s n : Z) :
  0 <= n -> Z.land s (2 ^ n) = if Z.testbit s n then 2 ^ n else 0.
Proof.
  intros Hn. apply Z.bits_inj'. intros m Hm.
  rewrite Z.land_spec, Z.pow2_bits_eqb by exact Hn.
  destruct (Z.eqb_spec n m) as [->|Hne].
  - destruct (Z.testbit s m) eqn:E; cbn [andb].
    + rewrite Z.pow2_bits_eqb, Z.eqb_refl by exact Hm. reflexivity.
    + rewrite Z.bits_0. reflexivity.
  - rewrite andb_false_r. destruct (Z.testbit s n).
    + rewrite Z.pow2_bits_eqb by exact Hn.
      symmetry. apply Z.eqb_neq. exact Hne.
    + rewrite Z.bits_0. reflexivity.
Qed.

Lemma wip_bit (s : Z) : negb (Z.land s BIT_WIP =? 0) = Z.testbit s 0.
Proof.
  change BIT_WIP with (2 ^ 0). rewrite land_single_bit by lia.
  destruct (Z.testbit s 0); reflexivity.
Qed.

Lemma wel_without_wip_spec (s : Z) :
  wel_without_wip s = true <-> wel_set_wip_clear s.
Proof.
  unfold wel_without_wip, wel_set_wip_clear.
  change BIT_WEL with (2 ^ 1). change BIT_WIP with (2 ^ 0).
  rewrite !land_single_bit by lia.
  destruct (Z.testbit s 1), (Z.testbit s 0); cbn; intuition congruence.
Qed.

Section CommandLayer.

Context {T : Type} (link : JTAG T).

Lemma high_mbind {A B} (m : M T A) (f : A -> M T B) (t : T) :
  high (events_of (mbind m f t)) =
  high (events_of (m t)) ++
  match outcome_of (m t) with
  | Ret a => high (events_of (f a (link_of (m t))))
  | _ => []
  end.
Proof.
  rewrite events_mbind, high_app. destruct (outcome_of (m t)); reflexivity.
Qed.

Lemma high_command (cmd : Z) (arg : list byte) (dummy ret : Z) (t : T) :
  high (events_of (_command cmd arg dummy ret t)) = [].
Proof.
  unfold _command, _log, _sdr_array, mbind, emit.
  cbn [outcome_of link_of events_of].
  destruct (_bitarray _) as [tdi1|]; cbn [lift_option mret raise outcome_of link_of events_of];
    [|reflexivity].
  destruct (shift_tdio tdi1 _) as [tdo1 t2]. cbn [outcome_of link_of events_of].
  destruct (_bitarray _) as [tdi2|]; cbn [lift_option mret raise outcome_of link_of events_of];
    [|reflexivity].
  destruct (shift_tdio tdi2 _) as [tdo2 t4]. reflexivity.
Qed.

(** An opcode that is a byte is always sent, whatever the link does. *)
Lemma command_returns (cmd : Z) (arg : list byte) (dummy ret : Z) (t : T) :
  is_byte cmd ->
  exists resp, outcome_of (_command cmd arg dummy ret t) = Ret resp /\
    (full_duplex link -> length resp = Z.to_nat ret).
Proof.
  intros Hcmd.
  destruct (_command_run link cmd arg dummy ret t Hcmd) as (_ & _ & E).
  cbv zeta in E. rewrite E. cbn [outcome_of]. eexists. split; [reflexivity|].
  intros Hfd. apply length_decode_response.
  rewrite Hfd, zero_buffer. apply repeat_length.
Qed.

Lemma high_read_status (t : T) : high (events_of (read_status t)) = [].
Proof.
  unfold read_status. rewrite high_mbind, high_command.
  destruct (outcome_of (_command 5 [] 0 1 t)) as [r| |]; [|reflexivity..].
  destruct r as [|status [|]]; try reflexivity.
Qed.

(** Over a full-duplex link a status read returns the byte read and logs
    it. *)
Lemma read_status_run (t : T) :
  full_duplex link ->
  exists b : byte,
    outcome_of (read_status t) = Ret (byte_val b) /\
    status_reads (events_of (read_status t)) = [byte_val b].
Proof.
  intros Hfd.
  assert (Hb : is_byte 5) by (unfold is_byte; lia).
  destruct (_command_run link 5 [] 0 1 t Hb) as (_ & _ & E).
  cbv zeta in E. unfold read_status, mbind. rewrite E.
  cbn [outcome_of link_of events_of].
  match goal with
  | |- context [decode_response ?v] =>
      assert (L : length (decode_response v) = 1%nat)
  end.
  { apply length_decode_response. rewrite Hfd, zero_buffer. apply repeat_length. }
  destruct (decode_response _) as [|b [|]]; try discriminate L.
  exists b. split; reflexivity.
Qed.

Lemma high_write_in_progress (command : string) (t : T) :
  high (events_of (write_in_progress command t)) = [].
Proof.
  unfold write_in_progress. rewrite high_mbind, high_read_status.
  destruct (outcome_of (read_status t)) as [s| |]; [|reflexivity..].
  destruct (wel_without_wip s); [|reflexivity].
  rewrite high_mbind, high_read_status.
  destruct (outcome_of (read_status _)) as [s'| |]; [|reflexivity..].
  destruct (wel_without_wip s'); reflexivity.
Qed.

Lemma high_wait_write (fuel : nat) (command : string) (t : T) :
  high (events_of (wait_write fuel command t)) = [].
Proof.
  revert t. induction fuel as [|fuel IH]; intros t; [reflexivity|].
  cbn [wait_write]. rewrite high_mbind, high_write_in_progress.
  destruct (outcome_of (write_in_progress command t)) as [[|]| |];
    try reflexivity. apply IH.
Qed.

(** C5.  Over a full-duplex link, [write_in_progress] reads the status
    once, and once more exactly when the first value shows WEL set and
    WIP clear; it raises the error naming the command if and only if
    there were two reads and both show WEL set and WIP clear; in every
    other case it returns the WIP bit of the last value read. *)
Theorem write_in_progress_double_read (command : string) (t : T) :
  full_duplex link ->
  let r := write_in_progress command t in
  let reads := status_reads (events_of r) in
  ((exists s1, reads = [s1] /\ ~ wel_set_wip_clear s1 /\
               outcome_of r = Ret (Z.testbit s1 0)) \/
   (exists s1 s2, reads = [s1; s2] /\ wel_set_wip_clear s1 /\
                  ~ wel_set_wip_clear s2 /\
                  outcome_of r = Ret (Z.testbit s2 0)) \/
   (exists s1 s2, reads = [s1; s2] /\ wel_set_wip_clear s1 /\
                  wel_set_wip_clear s2 /\
                  outcome_of r = Raise (ProgramECP5Error command s2))) /\
  ((exists e, outcome_of r = Raise e) <->
   (exists s1 s2, reads = [s1; s2] /\ wel_set_wip_clear s1 /\
                  wel_set_wip_clear s2)).
Proof.
  intros Hfd r reads.
  assert (Cases :
    (exists s1, reads = [s1] /\ ~ wel_set_wip_clear s1 /\
                outcome_of r = Ret (Z.testbit s1 0)) \/
    (exists s1 s2, reads = [s1; s2] /\ wel_set_wip_clear s1 /\
                   ~ wel_set_wip_clear s2 /\
                   outcome_of r = Ret (Z.testbit s2 0)) \/
    (exists s1 s2, reads = [s1; s2] /\ wel_set_wip_clear s1 /\
                   wel_set_wip_clear s2 /\
                   outcome_of r = Raise (ProgramECP5Error command s2))).
  { subst reads r. unfold write_in_progress.
    rewrite events_mbind, outcome_mbind.
    destruct (read_status_run t Hfd) as (b1 & O1 & R1).
    rewrite O1. unfold status_reads in R1 |- *. rewrite select_app, R1.
    destruct (wel_without_wip (byte_val b1)) eqn:W1.
    - apply wel_without_wip_spec in W1.
      rewrite events_mbind, outcome_mbind.
      destruct (read_status_run (link_of (read_status t)) Hfd) as (b2 & O2 & R2).
      unfold status_reads in R2. rewrite O2, select_app, R2.
      destruct (wel_without_wip (byte_val b2)) eqn:W2.
      + apply wel_without_wip_spec in W2. right. right.
        exists (byte_val b1), (byte_val b2). repeat split; assumption || apply W1 || apply W2.
      + right. left. exists (byte_val b1), (byte_val b2).
        split; [reflexivity|]. split; [exact W1|]. split.
        * intros H. apply wel_without_wip_spec in H. congruence.
        * cbn [mret outcome_of]. rewrite wip_bit. reflexivity.
    - left. exists (byte_val b1). split; [reflexivity|]. split.
      + intros H. apply wel_without_wip_spec in H. congruence.
      + cbn [mret outcome_of]. rewrite wip_bit. reflexivity. }
  split; [exact Cases|]. split.
  - intros [e He].
    destruct Cases as [(s1 & _ & _ & O) | [(s1 & s2 & _ & _ & _ & O) |
                       (s1 & s2 & R & W1 & W2 & _)]];
      try congruence.
    exists s1, s2. auto.
  - intros (s1 & s2 & R & W1 & W2).
    destruct Cases as [(s1' & R' & _) | [(s1' & s2' & R' & _ & W2' & _) |
                       (s1' & s2' & _ & _ & _ & O)]].
    + rewrite R in R'. discriminate.
    + rewrite R in R'. injection R' as -> ->. contradiction.
    + eexists. exact O.
Qed.

End CommandLayer.

(** A poll that sees WEL set and WIP clear twice in a row. *)
Lemma write_in_progress_double_read_witness :
  let r := write_in_progress "PAGE PROGRAM" (script_of [[x02]; [x02]]) in
  let reads := status_reads (events_of r) in
  ((exists s1, reads = [s1] /\ ~ wel_set_wip_clear s1 /\
               outcome_of r = Ret (Z.testbit s1 0)) \/
   (exists s1 s2, reads = [s1; s2] /\ wel_set_wip_clear s1 /\
                  ~ wel_set_wip_clear s2 /\
                  outcome_of r = Ret (Z.testbit s2 0)) \/
   (exists s1 s2, reads = [s1; s2] /\ wel_set_wip_clear s1 /\
                  wel_set_wip_clear s2 /\
                  outcome_of r = Raise (ProgramECP5Error "PAGE PROGRAM" s2))) /\
  ((exists e, outcome_of r = Raise e) <->
   (exists s1 s2, reads = [s1; s2] /\ wel_set_wip_clear s1 /\
                  wel_set_wip_clear s2)).
Proof.
  apply (write_in_progress_double_read scripted_link "PAGE PROGRAM"
           (script_of [[x02]; [x02]])).
  intros tdi [|r t]; cbn [shift_tdio scripted_link fst].
  - apply repeat_length.
  - unfold resize. rewrite length_firstn, length_app, repeat_length. lia.
Defined.

(** ** Slices *)

Lemma len_nonneg {A} (l : list A) : 0 <= len l.
Proof. unfold len. lia. Qed.

Lemma len_app {A} (l1 l2 : list A) : len (l1 ++ l2) = len l1 + len l2.
Proof. unfold len. rewrite length_app. lia. Qed.

Lemma len_pos {A} (l : list A) : l <> [] -> 0 < len l.
Proof. destruct l; [congruence|]. unfold len. cbn [length]. lia. Qed.

Lemma len_zero {A} (l : list A) : len l <= 0 -> l = [].
Proof. destruct l; [reflexivity|]. unfold len. cbn [length]. lia. Qed.

(** [data[:n]] for a positive [n] on data that is not empty. *)
Lemma slice_to_facts {A} (n : Z) (s : list A) :
  1 <= n -> s <> [] ->
  let c := slice_to n s in
  c <> [] /\ len c = Z.min (len s) n /\
  c = firstn (length c) s /\ c ++ skipn (length c) s = s.
Proof.
  intros Hn Hs. cbv zeta. unfold slice_to, slice_index.
  destruct (Z.ltb_spec n 0); [lia|].
  pose proof (len_pos s Hs) as Hl.
  set (k := Z.to_nat (Z.min n (len s))).
  assert (Hk : length (firstn k s) = k).
  { rewrite length_firstn. unfold len in *. lia. }
  rewrite Hk. split.
  - intros E. rewrite E in Hk. cbn in Hk. unfold len in *. lia.
  - split; [unfold len in *; rewrite Hk; lia|].
    split; [reflexivity|apply firstn_skipn].
Qed.

(** ** [program] (claims C4, C8 and C10) *)

Section Program.

Context {T : Type} (link : JTAG T).
Local Open Scope m_scope.

Lemma reporting_high (cb : callback_t) (d t : Z) (s : option status_text) :
  reporting cb -> high (cb d t s) = cb d t s.
Proof.
  intros H. specialize (H d t s). unfold high.
  induction (cb d t s) as [|e l IH]; [reflexivity|].
  cbn [forallb] in H. apply andb_prop in H as [He Hl].
  cbn [filter]. destruct e; try discriminate He. cbn [low negb].
  rewrite (IH Hl). reflexivity.
Qed.

Lemma reporting_select {X} (pick : event -> list X) (cb : callback_t)
    (d t : Z) (s : option status_text) :
  reporting cb -> (forall d t s, pick (Progress d t s) = []) ->
  select pick (cb d t s) = [].
Proof.
  intros H Hp. specialize (H d t s). unfold select.
  induction (cb d t s) as [|e l IH]; [reflexivity|].
  cbn [forallb] in H. apply andb_prop in H as [He Hl].
  cbn [flat_map]. destruct e; try discriminate He.
  rewrite Hp, (IH Hl). reflexivity.
Qed.

Lemma reporting_observe : reporting observe.
Proof. intros d t s. reflexivity. Qed.

Lemma reporting_no_callback : reporting no_callback.
Proof. intros d t s. reflexivity. Qed.

Lemma write_enable_run (t : T) :
  outcome_of (write_enable t) = Ret tt /\
  high (events_of (write_enable t)) = [Log LogWriteEnable].
Proof.
  unfold write_enable. rewrite outcome_mbind, high_mbind.
  cbn [_log emit outcome_of link_of events_of].
  rewrite outcome_mbind, high_mbind, high_command.
  destruct (command_returns link 6 [] 0 0 t) as (resp & O & _);
    [unfold is_byte; lia|].
  rewrite O. split; reflexivity.
Qed.

(** A command that is logged, sent and then waited for: the log line is
    all that shows at command level. *)
Lemma high_logged_command (x : log_msg) (cmd : Z) (arg : list byte)
    (gas : nat) (c : string) (t : T) :
  low (Log x) = false ->
  high (events_of ((_log x ;; _command cmd arg 0 0 ;; wait_write gas c) t))
  = [Log x].
Proof.
  intros Hx. rewrite high_mbind. cbn [_log emit outcome_of link_of events_of].
  rewrite high_mbind, high_command.
  unfold high at 1. cbn [filter]. rewrite Hx. cbn [negb app].
  destruct (outcome_of (_command cmd arg 0 0 t)); try reflexivity.
  rewrite high_wait_write. reflexivity.
Qed.

Lemma write_in_progress_ready (c : string) (t : T) :
  always_ready link -> outcome_of (write_in_progress c t) = Ret false.
Proof.
  intros Hr. unfold write_in_progress. rewrite outcome_mbind.
  destruct (Hr t) as (s & O & Hwip & Hwel). rewrite O.
  unfold wel_without_wip. rewrite Hwip, Hwel. reflexivity.
Qed.

Lemma wait_write_ready (n : nat) (c : string) (t : T) :
  always_ready link -> outcome_of (wait_write (S n) c t) = Ret tt.
Proof.
  intros Hr. cbn [wait_write]. rewrite outcome_mbind.
  rewrite (write_in_progress_ready c t Hr). reflexivity.
Qed.

Lemma logged_command_returns (x : log_msg) (cmd : Z) (arg : list byte)
    (n : nat) (c : string) (t : T) :
  always_ready link -> is_byte cmd ->
  outcome_of ((_log x ;; _command cmd arg 0 0 ;; wait_write (S n) c) t)
  = Ret tt.
Proof.
  intros Hr Hcmd. rewrite outcome_mbind.
  cbn [_log emit outcome_of link_of]. rewrite outcome_mbind.
  destruct (command_returns link cmd arg 0 0 t Hcmd) as (resp & O & _).
  rewrite O. apply wait_write_ready. exact Hr.
Qed.

Lemma high_page_program (gas : nat) (a : Z) (d : list byte) (t : T) :
  high (events_of (page_program gas a d t)) = [Log (LogPageProgram a d)].
Proof. apply high_logged_command. reflexivity. Qed.

Lemma high_sector_erase (gas : nat) (a : Z) (t : T) :
  high (events_of (sector_erase gas a t)) = [Log (LogSectorErase a)].
Proof. apply high_logged_command. reflexivity. Qed.

Lemma page_program_returns (n : nat) (a : Z) (d : list byte) (t : T) :
  always_ready link -> outcome_of (page_program (S n) a d t) = Ret tt.
Proof. intros Hr. apply logged_command_returns; [exact Hr|unfold is_byte; lia]. Qed.

Lemma sector_erase_returns (n : nat) (a : Z) (t : T) :
  always_ready link -> outcome_of (sector_erase (S n) a t) = Ret tt.
Proof. intros Hr. apply logged_command_returns; [exact Hr|unfold is_byte; lia]. Qed.

(** One turn of the loop of [program]. *)
Lemma program_loop_turn (fuel gas : nat) (a : Z) (data : list byte)
    (ps : Z) (cb : callback_t) (done total : Z) (t : T) :
  data <> [] -> 1 <= ps -> reporting cb ->
  let chunk := slice_to (ps - a mod ps) data in
  let r1 := page_program gas a chunk (link_of (write_enable t)) in
  let rest := program_loop fuel gas (a + len chunk)
                (skipn (length chunk) data) ps cb (done + len chunk) total
                (link_of r1) in
  outcome_of (program_loop (S fuel) gas a data ps cb done total t) =
    match outcome_of r1 with
    | Ret _ => outcome_of rest
    | Raise e => Raise e
    | Timeout => Timeout
    end /\
  high (events_of (program_loop (S fuel) gas a data ps cb done total t)) =
    cb done total (Some (ProgrammingPage a))
      ++ Log LogWriteEnable :: Log (LogPageProgram a chunk)
      :: match outcome_of r1 with
         | Ret _ => high (events_of rest)
         | _ => []
         end.
Proof.
  intros Hd Hps Hcb. cbv zeta. cbn [program_loop].
  pose proof (len_pos data Hd) as Hl.
  destruct (Z.ltb_spec 0 (len data)); [|lia].
  destruct (Z.eqb_spec ps 0); [lia|].
  destruct (write_enable_run t) as (Owe & Hwe).
  rewrite outcome_mbind, high_mbind.
  cbn [emit outcome_of link_of events_of].
  rewrite outcome_mbind, high_mbind, Owe, Hwe.
  rewrite outcome_mbind, high_mbind, high_page_program.
  rewrite reporting_high by exact Hcb.
  split; [reflexivity|].
  destruct (outcome_of (page_program _ _ _ _)); reflexivity.
Qed.

Lemma program_loop_done (fuel gas : nat) (a : Z) (ps : Z)
    (cb : callback_t) (done total : Z) (t : T) :
  program_loop fuel gas a [] ps cb done total t = Run (Ret done) t [].
Proof. destruct fuel; reflexivity. Qed.

(** A run of the loop that returns has cut the data at the page
    boundaries. *)
Lemma program_loop_Ret (ps : Z) (cb : callback_t) (gas : nat) (total : Z) :
  1 <= ps -> reporting cb ->
  forall (fuel : nat) (a : Z) (data : list byte) (done : Z) (t : T) (d' : Z),
  outcome_of (program_loop fuel gas a data ps cb done total t) = Ret d' ->
  d' = done + len data /\
  exists chunks,
    paged ps a data chunks /\
    high (events_of (program_loop fuel gas a data ps cb done total t))
    = program_plan cb done total chunks.
Proof.
  intros Hps Hcb. induction fuel as [|fuel IH]; intros a data done t d' O.
  - destruct data as [|b data]; [|discriminate O].
    cbn in O. injection O as <-. split; [unfold len; cbn; lia|].
    exists []. split; reflexivity.
  - destruct data as [|b data].
    + rewrite program_loop_done in *. cbn in O. injection O as <-.
      split; [unfold len; cbn; lia|]. exists []. split; reflexivity.
    + assert (Hd : b :: data <> []) by discriminate.
      destruct (program_loop_turn fuel gas a (b :: data) ps cb done total t
                  Hd Hps Hcb) as (HO & HE).
      cbv zeta in HO, HE. rewrite HO in O. rewrite HE. clear HO HE.
      pose proof (Z.mod_pos_bound a ps ltac:(lia)) as Hm.
      destruct (slice_to_facts (ps - a mod ps) (b :: data) ltac:(lia) Hd)
        as (Hc1 & Hc2 & Hc3 & Hc4).
      cbv zeta in Hc1, Hc2, Hc3, Hc4.
      set (chunk := slice_to (ps - a mod ps) (b :: data)) in *.
      destruct (outcome_of (page_program gas a chunk _)); try discriminate O.
      destruct (IH _ _ _ _ _ O) as (Hd' & chunks & Hp & Hh).
      split.
      * rewrite Hd'. rewrite <- Hc4 at 2. rewrite len_app. lia.
      * exists ((a, chunk) :: chunks). split.
        -- cbn [paged]. repeat split; assumption.
        -- cbn [program_plan]. rewrite Hh. reflexivity.
Qed.

(** With a flash that is never busy the loop needs one unit of fuel per
    byte at most. *)
Lemma program_loop_returns (ps : Z) (cb : callback_t) (n : nat) (total : Z) :
  1 <= ps -> reporting cb -> always_ready link ->
  forall (fuel : nat) (a : Z) (data : list byte) (done : Z) (t : T),
  (length data <= fuel)%nat ->
  outcome_of (program_loop fuel (S n) a data ps cb done total t)
  = Ret (done + len data).
Proof.
  intros Hps Hcb Hr. induction fuel as [|fuel IH]; intros a data done t Hf.
  - destruct data; [|cbn in Hf; lia]. cbn. f_equal. unfold len. cbn. lia.
  - destruct data as [|b data].
    + rewrite program_loop_done. cbn. f_equal. unfold len. cbn. lia.
    + assert (Hd : b :: data <> []) by discriminate.
      destruct (program_loop_turn fuel (S n) a (b :: data) ps cb done total t
                  Hd Hps Hcb) as (HO & _).
      cbv zeta in HO. rewrite HO. clear HO.
      pose proof (Z.mod_pos_bound a ps ltac:(lia)) as Hm.
      destruct (slice_to_facts (ps - a mod ps) (b :: data) ltac:(lia) Hd)
        as (Hc1 & Hc2 & Hc3 & Hc4).
      cbv zeta in Hc1, Hc2, Hc3, Hc4.
      set (chunk := slice_to (ps - a mod ps) (b :: data)) in *.
      rewrite (page_program_returns n a chunk _ Hr).
      rewrite IH.
      * f_equal. rewrite <- Hc4 at 2. rewrite len_app. lia.
      * rewrite length_skipn. destruct chunk; [congruence|].
        cbn [length] in *. lia.
Qed.

End Program.

(** *** What a paged cut looks like *)

Lemma paged_concat (ps : Z) (chunks : list (Z * list byte)) :
  forall a data, paged ps a data chunks -> concat (map snd chunks) = data.
Proof.
  induction chunks as [|[a' c] rest IH]; intros a data H.
  - cbn in *. congruence.
  - cbn [paged] in H. destruct H as (_ & _ & _ & Hc & Hr).
    cbn [map snd concat]. rewrite (IH _ _ Hr).
    rewrite Hc at 1. apply firstn_skipn.
Qed.

Lemma paged_contiguous (ps : Z) (chunks : list (Z * list byte)) :
  forall a data, paged ps a data chunks -> contiguous_from a chunks.
Proof.
  induction chunks as [|[a' c] rest IH]; intros a data H; [exact I|].
  cbn [paged] in H. destruct H as (-> & _ & _ & _ & Hr).
  cbn [contiguous_from]. split; [reflexivity|]. exact (IH _ _ Hr).
Qed.

Lemma fits_in_page (ps a n : Z) :
  1 <= ps -> 0 <= n <= ps - a mod ps -> within_one_page ps a n.
Proof.
  intros Hps Hn. exists (a / ps).
  pose proof (Z.div_mod a ps ltac:(lia)) as E.
  pose proof (Z.mod_pos_bound a ps ltac:(lia)) as Hm. lia.
Qed.

Lemma paged_within (ps : Z) (chunks : list (Z * list byte)) :
  1 <= ps ->
  forall a data, paged ps a data chunks ->
  Forall (fun ac => snd ac <> [] /\ within_one_page ps (fst ac) (len (snd ac)))
         chunks.
Proof.
  intros Hps. induction chunks as [|[a' c] rest IH]; intros a data H;
    constructor.
  - cbn [paged] in H. destruct H as (-> & Hne & Hl & _ & _).
    cbn [fst snd]. split; [exact Hne|].
    apply fits_in_page; [exact Hps|]. pose proof (len_nonneg c). lia.
  - cbn [paged] in H. destruct H as (_ & _ & _ & _ & Hr). exact (IH _ _ Hr).
Qed.

(** A chunk that is not the last one runs to the end of its page. *)
Lemma paged_not_last (ps a : Z) (data c : list byte) (a' : Z)
    (rest : list (Z * list byte)) :
  paged ps a data ((a', c) :: rest) -> rest <> [] ->
  len c = ps - a mod ps.
Proof.
  cbn [paged]. intros (_ & _ & Hl & _ & Hr) Hrest.
  destruct rest as [|[a'' c''] rest']; [congruence|].
  cbn [paged] in Hr. destruct Hr as (_ & Hne & _ & Hc'' & _).
  assert (Hlt : (length c < length data)%nat).
  { destruct (Nat.lt_ge_cases (length c) (length data)) as [|Hge]; [assumption|].
    rewrite skipn_all2 in Hc'' by exact Hge.
    rewrite firstn_nil in Hc''. congruence. }
  unfold len in *. lia.
Qed.

Lemma paged_aligned (ps : Z) (chunks : list (Z * list byte)) :
  1 <= ps ->
  forall a data, paged ps a data chunks -> a mod ps = 0 ->
  forall pre x post, chunks = pre ++ x :: post ->
    fst x mod ps = 0 /\ len (snd x) <= ps /\
    (post <> [] -> len (snd x) = ps).
Proof.
  intros Hps. induction chunks as [|[a' c] rest IH];
    intros a data H Ha pre x post E.
  - destruct pre; discriminate E.
  - assert (Hnext : rest <> [] -> (a + len c) mod ps = 0).
    { intros Hrest. rewrite (paged_not_last _ _ _ _ _ _ H Hrest), Ha.
      replace (a + (ps - 0)) with (a + 1 * ps) by lia.
      rewrite Z.mod_add by lia. exact Ha. }
    destruct pre as [|p pre].
    + cbn [app] in E. injection E as <- <-. cbn [fst snd].
      pose proof H as H'. cbn [paged] in H'.
      destruct H' as (-> & _ & Hl & _ & _).
      split; [exact Ha|]. split; [lia|].
      intros Hpost. rewrite (paged_not_last _ _ _ _ _ _ H Hpost). lia.
    + cbn [app] in E. injection E as _ ->.
      cbn [paged] in H. destruct H as (_ & _ & _ & _ & Hr).
      apply (IH _ _ Hr) with (pre := pre).
      * apply Hnext. destruct pre; discriminate.
      * reflexivity.
Qed.

Lemma paged_full_pages (ps a : Z) (data : list byte)
    (chunks : list (Z * list byte)) :
  1 <= ps -> paged ps a data chunks ->
  forall pre x post, chunks = pre ++ x :: post -> pre <> [] ->
    fst x mod ps = 0 /\ len (snd x) <= ps /\
    (post <> [] -> len (snd x) = ps).
Proof.
  intros Hps H pre x post E Hpre.
  destruct chunks as [|[a' c] rest]; [destruct pre; discriminate E|].
  destruct pre as [|p pre]; [congruence|].
  cbn [app] in E. injection E as _ Erest.
  assert (Hrest : rest <> []) by (rewrite Erest; destruct pre; discriminate).
  pose proof (paged_not_last _ _ _ _ _ _ H Hrest) as Hl.
  cbn [paged] in H. destruct H as (_ & _ & _ & _ & Hr).
  apply (paged_aligned ps rest Hps _ _ Hr) with (pre := pre); [|exact Erest].
  rewrite Hl. pose proof (Z.div_mod a ps ltac:(lia)) as E.
  replace (a + (ps - a mod ps)) with (0 + (a / ps + 1) * ps) by lia.
  rewrite Z.mod_add by lia. reflexivity.
Qed.

(** *** Views of the trace of [program] *)

Lemma page_programs_high (evs : list event) :
  page_programs (high evs) = page_programs evs.
Proof.
  apply select_high. intros [| | |[]|]; cbn; congruence.
Qed.

Lemma progress_calls_high (evs : list event) :
  progress_calls (high evs) = progress_calls evs.
Proof.
  apply select_high. intros [| | |[]|]; cbn; congruence.
Qed.

Lemma page_programs_plan (cb : callback_t) (chunks : list (Z * list byte)) :
  reporting cb ->
  forall done total, page_programs (program_plan cb done total chunks) = chunks.
Proof.
  intros Hcb. induction chunks as [|[a c] rest IH]; intros done total;
    [reflexivity|].
  cbn [program_plan]. unfold page_programs in *. rewrite select_app.
  rewrite reporting_select by (exact Hcb || reflexivity).
  unfold select in *. cbn [flat_map app]. rewrite IH. reflexivity.
Qed.

Lemma progress_calls_plan (chunks : list (Z * list byte)) :
  forall done total,
  progress_calls (program_plan observe done total chunks)
  = progress_plan done total chunks.
Proof.
  induction chunks as [|[a c] rest IH]; intros done total; [reflexivity|].
  cbn [program_plan progress_plan]. unfold progress_calls, select in *.
  cbn [observe flat_map app]. rewrite IH. reflexivity.
Qed.

Section ProgramClaims.

Context {T : Type} (link : JTAG T).

(** Whatever becomes of the run, every page program lies in one page. *)
Lemma program_loop_within (ps : Z) (cb : callback_t) (gas : nat) (total : Z) :
  1 <= ps -> reporting cb ->
  forall (fuel : nat) (a : Z) (data : list byte) (done : Z) (t : T),
  Forall (fun ac => snd ac <> [] /\ within_one_page ps (fst ac) (len (snd ac)))
    (page_programs
       (events_of (program_loop fuel gas a data ps cb done total t))).
Proof.
  intros Hps Hcb. induction fuel as [|fuel IH]; intros a data done t.
  - destruct data; cbn; constructor.
  - destruct data as [|b data].
    + rewrite program_loop_done. constructor.
    + assert (Hd : b :: data <> []) by discriminate.
      destruct (program_loop_turn link fuel gas a (b :: data) ps cb done total t
                  Hd Hps Hcb) as (_ & HE).
      cbv zeta in HE. rewrite <- page_programs_high, HE.
      pose proof (Z.mod_pos_bound a ps ltac:(lia)) as Hm.
      destruct (slice_to_facts (ps - a mod ps) (b :: data) ltac:(lia) Hd)
        as (Hc1 & Hc2 & _ & _).
      cbv zeta in Hc1, Hc2.
      set (chunk := slice_to (ps - a mod ps) (b :: data)) in *.
      unfold page_programs at 1. rewrite select_app.
      rewrite reporting_select by (exact Hcb || reflexivity).
      unfold select. cbn [flat_map app]. constructor.
      * cbn [fst snd]. split; [exact Hc1|].
        apply fits_in_page; [exact Hps|]. pose proof (len_nonneg chunk). lia.
      * destruct (outcome_of (page_program gas a chunk _));
          try constructor.
        fold (select (fun e => match e with
                               | Log (LogPageProgram a0 d) => [(a0, d)]
                               | _ => []
                               end)).
        fold page_programs. rewrite page_programs_high. apply IH.
Qed.

(** The trace of a [program] that returns. *)
Lemma program_Ret (gas : nat) (a : Z) (data : list byte) (ps : Z)
    (cb : callback_t) (t : T) :
  1 <= ps -> reporting cb ->
  outcome_of (program gas a data ps cb t) = Ret tt ->
  exists chunks,
    paged ps a data chunks /\
    high (events_of (program gas a data ps cb t))
    = program_plan cb 0 (len data) chunks ++ cb (len data) (len data) None.
Proof.
  intros Hps Hcb O. unfold program in *.
  rewrite outcome_mbind in O. rewrite high_mbind.
  destruct (outcome_of (program_loop gas gas a data ps cb 0 (len data) t))
    as [d'| |] eqn:OL; try discriminate O.
  destruct (program_loop_Ret link ps cb gas (len data) Hps Hcb _ _ _ _ _ _ OL)
    as (-> & chunks & Hp & Hh).
  exists chunks. split; [exact Hp|].
  rewrite Hh. cbn [emit events_of]. rewrite reporting_high by exact Hcb.
  reflexivity.
Qed.

Lemma program_returns (gas : nat) (a : Z) (data : list byte) (ps : Z)
    (cb : callback_t) (t : T) :
  1 <= ps -> reporting cb -> always_ready link ->
  (length data <= gas)%nat ->
  outcome_of (program gas a data ps cb t) = Ret tt.
Proof.
  intros Hps Hcb Hr Hg. unfold program. rewrite outcome_mbind.
  destruct data as [|b data].
  - rewrite program_loop_done. reflexivity.
  - destruct gas as [|n]; [cbn in Hg; lia|].
    rewrite (program_loop_returns link ps cb n _ Hps Hcb Hr) by exact Hg.
    reflexivity.
Qed.

(** C4.  For every address, page size of at least one byte and data,
    no page program of [program] crosses a page boundary, however the
    run ends.  When [program] returns, the page programs are the data
    cut in order from the start address: the first chunk has
    [min(len(data), page_size - address mod page_size)] bytes, every
    later chunk starts on a page boundary and is a full page, but for
    the last which may be shorter.  With a flash that is never busy and
    a unit of gas per byte, [program] does return. *)
Theorem program_never_crosses_a_page
    (gas : nat) (address : Z) (data : list byte) (page_size : Z)
    (callback : callback_t) (t : T) :
  1 <= page_size -> reporting callback ->
  let r := program gas address data page_size callback t in
  let chunks := page_programs (events_of r) in
  Forall (fun ac => snd ac <> [] /\
                    within_one_page page_size (fst ac) (len (snd ac)))
         chunks /\
  (outcome_of r = Ret tt ->
     concat (map snd chunks) = data /\
     contiguous_from address chunks /\
     match chunks with
     | (a, c) :: _ =>
         len c = Z.min (len data) (page_size - address mod page_size)
     | [] => data = []
     end /\
     (forall pre x post, chunks = pre ++ x :: post -> pre <> [] ->
        fst x mod page_size = 0 /\ len (snd x) <= page_size /\
        (post <> [] -> len (snd x) = page_size))) /\
  (always_ready link -> (length data <= gas)%nat -> outcome_of r = Ret tt).
Proof.
  intros Hps Hcb r chunks. split; [|split].
  - subst chunks r. unfold program. rewrite events_mbind.
    unfold page_programs at 1. rewrite select_app.
    fold page_programs.
    assert (E : forall evs, evs = [] \/ (exists d tot, evs = callback d tot None) ->
                page_programs evs = []).
    { intros evs [->|(d & tot & ->)]; [reflexivity|].
      apply reporting_select; [exact Hcb|reflexivity]. }
    match goal with
    | |- Forall _ (_ ++ page_programs ?evs) =>
        rewrite (E evs), app_nil_r;
          [apply (program_loop_within page_size callback gas _ Hps Hcb)|]
    end.
    destruct (outcome_of (program_loop _ _ _ _ _ _ _ _ _)); auto.
    right. cbn [emit events_of]. eauto.
  - intros O.
    destruct (program_Ret gas address data page_size callback t Hps Hcb O)
      as (cs & Hp & Hh).
    assert (Ecs : chunks = cs).
    { subst chunks r. rewrite <- page_programs_high, Hh.
      unfold page_programs at 1. rewrite select_app. fold page_programs.
      rewrite page_programs_plan by exact Hcb.
      unfold page_programs.
      rewrite reporting_select by (exact Hcb || reflexivity).
      apply app_nil_r. }
    rewrite Ecs. split; [exact (paged_concat _ _ _ _ Hp)|].
    split; [exact (paged_contiguous _ _ _ _ Hp)|]. split.
    + destruct cs as [|[a c] rest]; [exact Hp|].
      cbn [paged] in Hp. tauto.
    + exact (paged_full_pages _ _ _ _ Hps Hp).
  - intros Hr Hg. apply program_returns; assumption.
Qed.

(** C8.  For every address, page size of at least one byte and data, a
    [program] that returns has called the progress callback before each
    chunk, with the number of bytes of the chunks before it, the total,
    and the page address as status, and after the last chunk exactly
    once more with [done = total = len(data)] and no status.  The
    chunks are those of the data: cut at the page boundaries from
    [address] on, contiguous, and joined they are the data, so data that
    is not empty has a report before its first chunk.  With a flash that
    is never busy and a unit of gas per byte, [program] does return. *)
Theorem program_reports_progress
    (gas : nat) (address : Z) (data : list byte) (page_size : Z) (t : T) :
  1 <= page_size ->
  let r := program gas address data page_size observe t in
  let chunks := page_programs (events_of r) in
  (outcome_of r = Ret tt ->
     high (events_of r) =
       program_plan observe 0 (len data) chunks
         ++ [Progress (len data) (len data) None] /\
     progress_calls (events_of r) =
       progress_plan 0 (len data) chunks ++ [(len data, len data, None)] /\
     paged page_size address data chunks /\
     concat (map snd chunks) = data /\
     contiguous_from address chunks /\
     (data <> [] -> chunks <> [])) /\
  (always_ready link -> (length data <= gas)%nat -> outcome_of r = Ret tt).
Proof.
  intros Hps r chunks. split.
  - intros O.
    destruct (program_Ret gas address data page_size observe t Hps
                reporting_observe O) as (cs & Hp & Hh).
    assert (Ecs : chunks = cs).
    { subst chunks r. rewrite <- page_programs_high, Hh.
      unfold page_programs at 1. rewrite select_app. fold page_programs.
      rewrite page_programs_plan by exact reporting_observe.
      apply app_nil_r. }
    rewrite Ecs. split; [exact Hh|]. split.
    { subst r. rewrite <- progress_calls_high, Hh.
      unfold progress_calls at 1. rewrite select_app. fold progress_calls.
      rewrite progress_calls_plan. reflexivity. }
    split; [exact Hp|].
    split; [exact (paged_concat _ _ _ _ Hp)|].
    split; [exact (paged_contiguous _ _ _ _ Hp)|].
    intros Hd Hc. rewrite Hc in Hp. cbn [paged] in Hp. contradiction.
  - intros Hr Hg. apply program_returns; try assumption.
    exact reporting_observe.
Qed.

(** C10.  [program] with no data sends nothing: no write-enable, no
    page program, the link is left as it was; the progress callback is
    called exactly once, with [done = 0], [total = 0] and no status.
    This holds for every address and page size. *)
Theorem program_empty_data (gas : nat) (address page_size : Z) (t : T) :
  let r := program gas address [] page_size observe t in
  outcome_of r = Ret tt /\
  events_of r = [Progress 0 0 None] /\
  progress_calls (events_of r) = [(0, 0, None)] /\
  write_enables (events_of r) = [] /\
  page_programs (events_of r) = [] /\
  link_calls (events_of r) = [] /\
  link_of r = t.
Proof.
  cbv zeta. unfold program. unfold mbind.
  rewrite program_loop_done. cbn. repeat split; reflexivity.
Qed.

End ProgramClaims.

Lemma silent_always_ready : always_ready silent_link.
Proof.
  intros []. exists 0. split; [vm_compute; reflexivity|].
  split; reflexivity.
Qed.

(** Four bytes from [0x1001] in pages of two bytes: one byte, a full
    page, one byte. *)
Lemma program_never_crosses_a_page_witness :
  let r := program 4 4097 [x01; x02; x03; x04] 2 observe tt in
  let chunks := page_programs (events_of r) in
  Forall (fun ac => snd ac <> [] /\ within_one_page 2 (fst ac) (len (snd ac)))
         chunks /\
  (concat (map snd chunks) = [x01; x02; x03; x04] /\
   contiguous_from 4097 chunks /\
   match chunks with
   | (a, c) :: _ => len c = Z.min (len [x01; x02; x03; x04]) (2 - 4097 mod 2)
   | [] => [x01; x02; x03; x04] = []
   end /\
   (forall pre x post, chunks = pre ++ x :: post -> pre <> [] ->
      fst x mod 2 = 0 /\ len (snd x) <= 2 /\
      (post <> [] -> len (snd x) = 2))) /\
  outcome_of r = Ret tt.
Proof.
  cbv zeta.
  destruct (program_never_crosses_a_page silent_link 4 4097
              [x01; x02; x03; x04] 2 observe tt) as (H1 & H2 & H3).
  - lia.
  - intros d tot s. reflexivity.
  - assert (O : outcome_of (program 4 4097 [x01; x02; x03; x04] 2 observe tt)
                = Ret tt).
    { apply H3.
      - intros []. exists 0. split; [vm_compute; reflexivity|].
        split; reflexivity.
      - cbn [length]. lia. }
    split; [exact H1|]. split; [exact (H2 O)|exact O].
Defined.

(** The scenario of the specification: 64 bytes at [0x1000] with pages
    of 256 bytes. *)
Lemma program_reports_progress_witness :
  let data := repeat xaa 64 in
  let r := program 64 4096 data 256 observe tt in
  let chunks := page_programs (events_of r) in
  (high (events_of r) =
     program_plan observe 0 (len data) chunks
       ++ [Progress (len data) (len data) None] /\
   progress_calls (events_of r) =
     progress_plan 0 (len data) chunks ++ [(len data, len data, None)] /\
   paged 256 4096 data chunks /\
   concat (map snd chunks) = data /\
   contiguous_from 4096 chunks /\
   (data <> [] -> chunks <> [])) /\
  outcome_of r = Ret tt.
Proof.
  cbv zeta.
  destruct (program_reports_progress silent_link 64 4096 (repeat xaa 64) 256 tt)
    as (H1 & H2).
  - lia.
  - assert (O : outcome_of (program 64 4096 (repeat xaa 64) 256 observe tt)
                = Ret tt).
    { apply H2.
      - intros []. exists 0. split; [vm_compute; reflexivity|].
        split; reflexivity.
      - rewrite repeat_length. lia. }
    split; [exact (H1 O)|exact O].
Defined.

(** The same scenario evaluated: one page program with all 64 bytes,
    one report before it and the closing report. *)
Example program_scenario_64_bytes :
  let r := program 64 4096 (repeat xaa 64) 256 observe tt in
  outcome_of r = Ret tt /\
  page_programs (events_of r) = [(4096, repeat xaa 64)] /\
  progress_calls (events_of r) =
    [(0, 64, Some (ProgrammingPage 4096)); (64, 64, None)].
Proof. vm_compute. repeat split; reflexivity. Qed.

(** ** Reading back *)

Section Reading.

Context {T : Type} (link : JTAG T).

Lemma high_read_loop (length cs cmd dummy : Z) :
  forall (fuel : nat) (address : Z) (data : list byte) (t : T),
  high (events_of (_read_loop fuel address length cs cmd dummy no_callback
                              data t)) = [].
Proof.
  induction fuel as [|fuel IH]; intros address data t; cbn [_read_loop];
    destruct (len data <? length); try reflexivity.
  rewrite high_mbind. cbn [emit no_callback outcome_of link_of events_of].
  rewrite high_mbind, high_command.
  destruct (outcome_of (_command _ _ _ _ t)); try reflexivity.
  apply IH.
Qed.

Lemma high_read (gas : nat) (address length : Z) (t : T) :
  high (events_of (read gas address length None no_callback t))
  = [Log (LogRead address length)].
Proof.
  unfold read, _read_command. rewrite high_mbind.
  cbn [_log emit outcome_of link_of events_of].
  rewrite high_read_loop. reflexivity.
Qed.

(** Over a full-duplex link the read loop fills the buffer up to
    [length]; a unit of fuel per missing byte is enough. *)
Lemma read_loop_returns (length cs cmd dummy : Z) (cb : callback_t) :
  full_duplex link -> is_byte cmd -> 1 <= cs ->
  forall (fuel : nat) (address : Z) (data : list byte) (t : T),
  (Z.to_nat (length - len data) <= fuel)%nat ->
  exists out,
    outcome_of (_read_loop fuel address length cs cmd dummy cb data t)
    = Ret out /\
    len out = Z.max (len data) length.
Proof.
  intros Hfd Hcmd Hcs. induction fuel as [|fuel IH]; intros address data t Hf;
    cbn [_read_loop]; destruct (Z.ltb_spec (len data) length) as [Hlt|Hge];
    try (exists data; split; [reflexivity|lia]); [lia|].
  rewrite outcome_mbind. cbn [emit outcome_of link_of]. rewrite outcome_mbind.
  destruct (command_returns link cmd (_format_addr address) dummy
              (Z.min cs (length - len data)) t Hcmd) as (chunk & O & L).
  rewrite O. specialize (L Hfd).
  destruct (IH (address + len chunk) (data ++ chunk) (link_of (_command cmd
              (_format_addr address) dummy (Z.min cs (length - len data)) t)))
    as (out & Oout & Lout).
  - rewrite len_app. unfold len in *. lia.
  - exists out. split; [exact Oout|]. rewrite Lout, len_app.
    unfold len in *. lia.
Qed.

Lemma read_returns (gas : nat) (address length : Z) (t : T) :
  full_duplex link -> (Z.to_nat length <= gas)%nat ->
  exists data,
    outcome_of (read gas address length None no_callback t) = Ret data /\
    len data = Z.max 0 length.
Proof.
  intros Hfd Hg. unfold read, _read_command. rewrite outcome_mbind.
  cbn [_log emit outcome_of link_of].
  apply read_loop_returns; try assumption; try lia.
  - unfold is_byte. lia.
  - unfold len. cbn [List.length]. lia.
Qed.

End Reading.

(** ** [verify] (claim C6) *)

Lemma bytes_eqb_eq (a b : list byte) : bytes_eqb a b = true <-> a = b.
Proof.
  revert b. induction a as [|x a IH]; intros [|y b]; cbn [bytes_eqb];
    try (split; congruence).
  rewrite andb_true_iff, IH. split.
  - intros [Hxy ->]. apply Byte.byte_dec_bl in Hxy. congruence.
  - intros E. injection E as -> ->. split; [|reflexivity].
    apply Byte.byte_dec_lb. reflexivity.
Qed.

(** On two different strings of one length the loop stops at the first
    offset where they differ. *)
Lemma first_differing_found (gold : list byte) :
  forall (flash : list byte) (offset : Z),
  length gold = length flash -> gold <> flash ->
  exists n g f,
    first_differing offset gold flash = Some (offset + Z.of_nat n, g, f) /\
    nth_error gold n = Some g /\ nth_error flash n = Some f /\
    g <> f /\ firstn n gold = firstn n flash.
Proof.
  induction gold as [|x gold IH]; intros [|y flash] offset L Hne;
    try discriminate L; [congruence|].
  cbn [first_differing]. destruct (Byte.eqb x y) eqn:E.
  - apply Byte.byte_dec_bl in E. subst y.
    destruct (IH flash (offset + 1)) as (n & g & f & Hf & Hg & Hfl & Hgf & Hpre).
    + cbn in L. lia.
    + congruence.
    + exists (S n), g, f. rewrite Hf. repeat split; try assumption.
      * do 3 f_equal. lia.
      * cbn [firstn]. rewrite Hpre. reflexivity.
  - exists 0%nat, x, y. repeat split.
    + do 3 f_equal. lia.
    + intros ->. rewrite (Byte.byte_dec_lb eq_refl) in E. discriminate.
Qed.

Section Verify.

Context {T : Type} (link : JTAG T).

(** C6.  For every base address and every two byte strings of one
    length, the expected data and the flash contents: if they are equal
    the comparison of [verify] logs a pass and returns; if not, it logs
    the address [base + offset] of the first differing byte with the
    expected and the actual byte there, and raises the verify fault.
    The flash contents compared are what [read] returns for the same
    address and length, which over a full-duplex link has the length of
    the expected data. *)
Theorem verify_reports_first_difference
    (gas : nat) (address : Z) (gold_data flash_data : list byte) (t : T) :
  length gold_data = length flash_data ->
  let r := verify_compare address gold_data flash_data t in
  (gold_data = flash_data ->
     outcome_of r = Ret tt /\ events_of r = [Log InfoVerifyPass]) /\
  (gold_data <> flash_data ->
     exists offset gold_byte flash_byte,
       nth_error gold_data offset = Some gold_byte /\
       nth_error flash_data offset = Some flash_byte /\
       gold_byte <> flash_byte /\
       firstn offset gold_data = firstn offset flash_data /\
       events_of r =
         [Log (ErrorFirstDiffering (address + Z.of_nat offset)
                 (byte_val gold_byte) (byte_val flash_byte))] /\
       outcome_of r = Raise (GlasgowAppletError "verify FAIL")) /\
  (full_duplex link -> (length gold_data <= gas)%nat ->
     let rd := read gas address (len gold_data) None no_callback t in
     exists read_back,
       outcome_of rd = Ret read_back /\
       length read_back = length gold_data /\
       outcome_of (interact_verify gas address gold_data t) =
         outcome_of (verify_compare address gold_data read_back (link_of rd)) /\
       high (events_of (interact_verify gas address gold_data t)) =
         Log (LogRead address (len gold_data))
           :: high (events_of (verify_compare address gold_data read_back
                                 (link_of rd)))).
Proof.
  intros L r. split; [|split].
  - intros E. subst r. unfold verify_compare.
    rewrite (proj2 (bytes_eqb_eq _ _) E). split; reflexivity.
  - intros Hne. subst r. unfold verify_compare.
    destruct (bytes_eqb gold_data flash_data) eqn:E.
    + apply bytes_eqb_eq in E. contradiction.
    + destruct (first_differing_found gold_data flash_data 0 L Hne)
        as (n & g & f & Hf & Hg & Hfl & Hgf & Hpre).
      rewrite Hf. exists n, g, f. repeat split; assumption.
  - intros Hfd Hg rd.
    destruct (read_returns link gas address (len gold_data) t Hfd) as
      (rb & O & Lrb).
    + unfold len. lia.
    + exists rb. subst rd. split; [exact O|]. split.
      * unfold len in Lrb. lia.
      * unfold interact_verify. rewrite outcome_mbind, high_mbind, O, high_read.
        split; reflexivity.
Qed.

End Verify.

(** The scenario of the specification: 100 bytes, the one at offset 50
    differs. *)
Lemma verify_reports_first_difference_witness :
  let gold_data := repeat xff 100 in
  let flash_data := repeat xff 50 ++ x00 :: repeat xff 49 in
  let r := verify_compare 4096 gold_data flash_data tt in
  (outcome_of (verify_compare 4096 gold_data gold_data tt) = Ret tt /\
   events_of (verify_compare 4096 gold_data gold_data tt)
     = [Log InfoVerifyPass]) /\
  (exists offset gold_byte flash_byte,
     nth_error gold_data offset = Some gold_byte /\
     nth_error flash_data offset = Some flash_byte /\
     gold_byte <> flash_byte /\
     firstn offset gold_data = firstn offset flash_data /\
     events_of r =
       [Log (ErrorFirstDiffering (4096 + Z.of_nat offset)
               (byte_val gold_byte) (byte_val flash_byte))] /\
     outcome_of r = Raise (GlasgowAppletError "verify FAIL")).
Proof.
  cbv zeta. split.
  - apply (verify_reports_first_difference silent_link 100 4096
             (repeat xff 100) (repeat xff 100) tt); reflexivity.
  - apply (verify_reports_first_difference silent_link 100 4096
             (repeat xff 100) (repeat xff 50 ++ x00 :: repeat xff 49) tt).
    + reflexivity.
    + intros E. apply (f_equal (fun l => nth_error l 50)) in E.
      vm_compute in E. discriminate E.
Defined.

(** The scenario evaluated: the report names [0x1000 + 50], expected
    [0xff], actual [0x00]. *)
Example verify_scenario_offset_50 :
  events_of (verify_compare (T := unit) 4096 (repeat xff 100)
               (repeat xff 50 ++ x00 :: repeat xff 49) tt)
  = [Log (ErrorFirstDiffering 4146 255 0)].
Proof. vm_compute. reflexivity. Qed.

(** ** Block protection (claim C9) *)

Lemma mask_outside_field : Z.land (Z.lnot MSK_PROT) MSK_PROT = 0.
Proof. reflexivity. Qed.

Lemma protect_update_in_field (s b : Z) :
  Z.land (protect_update s b) MSK_PROT = Z.land (Z.shiftl b 2) MSK_PROT.
Proof.
  unfold protect_update.
  rewrite Z.land_lor_distr_l, <- !Z.land_assoc, mask_outside_field.
  rewrite Z.land_0_r, Z.lor_0_l, Z.land_diag. reflexivity.
Qed.

Lemma protect_update_outside_field (s b : Z) :
  Z.land (protect_update s b) (Z.lnot MSK_PROT) = Z.land s (Z.lnot MSK_PROT).
Proof.
  unfold protect_update.
  rewrite Z.land_lor_distr_l, <- !Z.land_assoc, Z.land_diag.
  rewrite (Z.land_comm MSK_PROT), mask_outside_field.
  rewrite Z.land_0_r, Z.lor_0_r. reflexivity.
Qed.

Lemma protect_field_update (s b : Z) :
  0 <= b < 16 -> protect_field (protect_update s b) = b.
Proof.
  intros Hb. unfold protect_field. rewrite protect_update_in_field.
  rewrite Z.shiftr_land, Z.shiftr_shiftl_l by lia.
  change (2 - 2) with 0. rewrite Z.shiftl_0_r.
  change (Z.shiftr MSK_PROT 2) with (Z.ones 4).
  rewrite Z.land_ones by lia. apply Z.mod_small. lia.
Qed.

Lemma mask_bit_outside (i : Z) :
  0 <= i < 2 \/ 5 < i -> Z.testbit MSK_PROT i = false.
Proof.
  intros [Hi|Hi].
  - assert (i = 0 \/ i = 1) as [-> | ->] by lia; reflexivity.
  - apply Z.bits_above_log2; [unfold MSK_PROT; lia|].
    change (Z.log2 MSK_PROT) with 5. exact Hi.
Qed.

Lemma protect_update_bit_outside (s b i : Z) :
  0 <= i < 2 \/ 5 < i ->
  Z.testbit (protect_update s b) i = Z.testbit s i.
Proof.
  intros Hi. pose proof (mask_bit_outside i Hi) as Hm.
  assert (Hi0 : 0 <= i) by lia.
  pose proof (f_equal (fun z => Z.testbit z i)
                (protect_update_outside_field s b)) as E.
  cbv beta in E. rewrite !Z.land_spec, Z.lnot_spec, Hm in E by exact Hi0.
  cbn [negb] in E. rewrite !andb_true_r in E. exact E.
Qed.

Lemma protect_update_byte (s b : Z) : is_byte s -> is_byte (protect_update s b).
Proof.
  intros [Hs0 Hs]. unfold is_byte.
  assert (Hlow : Z.land (protect_update s b) (Z.ones 8) = protect_update s b).
  { apply Z.bits_inj'. intros n Hn. rewrite Z.land_spec.
    destruct (Z.ltb_spec n 8) as [Hlt|Hge].
    - rewrite Z.ones_spec_low by lia. apply andb_true_r.
    - rewrite Z.ones_spec_high by lia. rewrite andb_false_r.
      rewrite protect_update_bit_outside by lia.
      destruct (Z.eq_dec s 0) as [->|Hs1]; [symmetry; apply Z.bits_0|].
      symmetry. apply Z.bits_above_log2; [lia|].
      assert (Z.log2 s < 8) by (apply Z.log2_lt_pow2; lia). lia. }
  rewrite Z.land_ones in Hlow by lia.
  rewrite <- Hlow. apply Z.mod_pos_bound. lia.
Qed.

Section Protect.

Context {T : Type} (link : JTAG T).

Lemma read_status_byte (t : T) (s : Z) :
  outcome_of (read_status t) = Ret s -> is_byte s.
Proof.
  unfold read_status. rewrite outcome_mbind.
  destruct (outcome_of (_command 5 [] 0 1 t)) as [[|b [|]]| |];
    try discriminate.
  cbn. intros E. injection E as <-. apply byte_val_range.
Qed.

Lemma commands_sent_app (e1 e2 : list event) :
  commands_sent (e1 ++ e2) = commands_sent e1 ++ commands_sent e2.
Proof. apply select_app. Qed.

Lemma commands_sent_mbind {A B} (m : M T A) (f : A -> M T B) (t : T) :
  commands_sent (events_of (mbind m f t)) =
  commands_sent (events_of (m t)) ++
  match outcome_of (m t) with
  | Ret a => commands_sent (events_of (f a (link_of (m t))))
  | _ => []
  end.
Proof.
  rewrite events_mbind, commands_sent_app.
  destruct (outcome_of (m t)); reflexivity.
Qed.

(** Every [_command] shows as one command, whatever becomes of it. *)
Lemma commands_sent_command (cmd : Z) (arg : list byte) (dummy ret : Z) (t : T) :
  commands_sent (events_of (_command cmd arg dummy ret t)) = [(cmd, arg)].
Proof.
  unfold _command, _log, _sdr_array, mbind, emit.
  cbn [outcome_of link_of events_of].
  destruct (_bitarray _) as [tdi1|];
    cbn [lift_option mret raise outcome_of link_of events_of]; [|reflexivity].
  destruct (shift_tdio tdi1 _) as [tdo1 t2]. cbn [outcome_of link_of events_of].
  destruct (_bitarray _) as [tdi2|];
    cbn [lift_option mret raise outcome_of link_of events_of]; [|reflexivity].
  destruct (shift_tdio tdi2 _) as [tdo2 t4]. reflexivity.
Qed.

Lemma commands_sent_read_status (t : T) :
  commands_sent (events_of (read_status t)) = [(5, [])].
Proof.
  unfold read_status. rewrite commands_sent_mbind, commands_sent_command.
  destruct (outcome_of (_command 5 [] 0 1 t)) as [[|b [|]]| |]; reflexivity.
Qed.

Lemma commands_sent_write_in_progress (c : string) (t : T) :
  Forall (fun x => x = (5, [])) (commands_sent (events_of (write_in_progress c t))).
Proof.
  unfold write_in_progress.
  rewrite commands_sent_mbind, commands_sent_read_status.
  destruct (outcome_of (read_status t)) as [s| |]; try (repeat constructor).
  destruct (wel_without_wip s); try (repeat constructor).
  rewrite commands_sent_mbind, commands_sent_read_status.
  destruct (outcome_of (read_status _)) as [s'| |]; try (repeat constructor).
  destruct (wel_without_wip s'); repeat constructor.
Qed.

Lemma commands_sent_wait_write (fuel : nat) (c : string) :
  forall t : T,
  Forall (fun x => x = (5, [])) (commands_sent (events_of (wait_write fuel c t))).
Proof.
  induction fuel as [|fuel IH]; intros t; [constructor|].
  cbn [wait_write]. rewrite commands_sent_mbind. apply Forall_app. split.
  - apply commands_sent_write_in_progress.
  - destruct (outcome_of (write_in_progress c t)) as [[|]| |];
      try constructor. apply IH.
Qed.

(** C9.  For every four-bit value [b] and every status [s] read from
    the register: the value that the set operation writes has [b] in the
    protect field (bits 2 to 5) and the bits of [s] everywhere else; it
    is written with write-enable and write-status; and a query that then
    reads this value from the register reports exactly [b]. *)
Theorem block_protect_set_then_query (gas : nat) (b s : Z) (t t' : T) :
  0 <= b < 16 ->
  outcome_of (read_status t) = Ret s ->
  let w := protect_update s b in
  let r := interact_protect gas (Some b) t in
  protect_field w = b /\
  (forall i, 0 <= i < 2 \/ 5 < i -> Z.testbit w i = Z.testbit s i) /\
  Z.land w (Z.lnot MSK_PROT) = Z.land s (Z.lnot MSK_PROT) /\
  status_writes (events_of r) = [w] /\
  (exists wb polls,
     byte_val wb = w /\
     commands_sent (events_of r) = (5, []) :: (6, []) :: (1, [wb]) :: polls /\
     Forall (fun c => c = (5, [])) polls) /\
  (outcome_of (read_status t') = Ret w ->
     outcome_of (interact_protect gas None t') = Ret tt /\
     high (events_of (interact_protect gas None t'))
     = [Log (InfoBlockProtect b)]).
Proof.
  intros Hb Hs w r.
  pose proof (read_status_byte t s Hs) as Hsb.
  pose proof (protect_update_byte s b Hsb) as Hwb. fold w in Hwb.
  destruct (is_byte_val w Hwb) as (wb & Ewb & Vwb).
  split; [apply protect_field_update; exact Hb|].
  split; [intros i Hi; apply protect_update_bit_outside; exact Hi|].
  split; [apply protect_update_outside_field|].
  assert (Hwe : forall u : T, outcome_of (write_enable u) = Ret tt)
    by (intros u; apply (write_enable_run link u)).
  split; [|split].
  - subst r. unfold interact_protect, status_writes.
    rewrite events_mbind, select_app, Hs.
    rewrite (select_low _ (events_of (read_status t)));
      [|intros [| | |[]|]; cbn; congruence|].
    + rewrite events_mbind, select_app, Hwe.
      rewrite <- (select_high _ (events_of (write_enable _)));
        [|intros [| | |[]|]; cbn; congruence].
      rewrite (proj2 (write_enable_run link _)).
      rewrite <- (select_high _ (events_of (write_status _ _ _)));
        [|intros [| | |[]|]; cbn; congruence].
      unfold write_status. rewrite high_mbind.
      cbn [_log emit outcome_of link_of events_of].
      rewrite high_mbind. fold w. rewrite Ewb.
      cbn [lift_option mret outcome_of link_of events_of].
      rewrite high_mbind, high_command.
      destruct (outcome_of (_command 1 [wb] 0 0 _)); cbn [app];
        rewrite ?high_wait_write; reflexivity.
    + pose proof (high_read_status link t) as Hh.
      unfold high in Hh.
      induction (events_of (read_status t)) as [|e l IH]; [constructor|].
      cbn [filter] in Hh. destruct (low e) eqn:El; cbn [negb] in Hh;
        [|discriminate Hh].
      constructor; [exact El|exact (IH Hh)].
  - subst r. unfold interact_protect.
    rewrite commands_sent_mbind, commands_sent_read_status, Hs.
    rewrite commands_sent_mbind, Hwe.
    unfold write_enable at 1.
    rewrite commands_sent_mbind. cbn [_log emit outcome_of link_of events_of].
    rewrite commands_sent_mbind, commands_sent_command.
    unfold write_status.
    rewrite commands_sent_mbind. cbn [_log emit outcome_of link_of events_of].
    rewrite commands_sent_mbind. fold w. rewrite Ewb.
    cbn [lift_option mret outcome_of link_of events_of].
    rewrite commands_sent_mbind, commands_sent_command.
    eexists wb, _. split; [exact Vwb|].
    split.
    + destruct (outcome_of (_command 6 [] 0 0 _)); cbn [app select flat_map commands_sent];
        reflexivity.
    + destruct (outcome_of (_command 1 [wb] 0 0 _));
        try constructor. apply commands_sent_wait_write.
  - intros Hq. unfold interact_protect.
    rewrite outcome_mbind, high_mbind, Hq, high_read_status.
    cbn [_log emit outcome_of events_of app]. subst w.
    rewrite (protect_field_update s b Hb). split; reflexivity.
Qed.

End Protect.

(** Protect bits [0b1010] set on a status of [0b01000010] (CP and WEL
    set), then queried. *)
Lemma block_protect_set_then_query_witness :
  let t := script_of [[x42]; []; []; [x00]] in
  let t' := script_of [[x6a]] in
  let w := protect_update 66 10 in
  let r := interact_protect 1 (Some 10) t in
  protect_field w = 10 /\
  (forall i, 0 <= i < 2 \/ 5 < i -> Z.testbit w i = Z.testbit 66 i) /\
  Z.land w (Z.lnot MSK_PROT) = Z.land 66 (Z.lnot MSK_PROT) /\
  status_writes (events_of r) = [w] /\
  (exists wb polls,
     byte_val wb = w /\
     commands_sent (events_of r) = (5, []) :: (6, []) :: (1, [wb]) :: polls /\
     Forall (fun c => c = (5, [])) polls) /\
  (outcome_of (read_status t') = Ret w ->
     outcome_of (interact_protect 1 None t') = Ret tt /\
     high (events_of (interact_protect 1 None t'))
     = [Log (InfoBlockProtect 10)]).
Proof.
  apply (block_protect_set_then_query scripted_link 1 10 66
           (script_of [[x42]; []; []; [x00]]) (script_of [[x6a]])).
  - lia.
  - vm_compute. reflexivity.
Defined.

(** The scenario evaluated: the value written is [0b01101010], and the
    query on it reports [0b1010]. *)
Example block_protect_scenario :
  status_writes (events_of (interact_protect 1 (Some 10)
                              (script_of [[x42]; []; []; [x00]]))) = [106] /\
  high (events_of (interact_protect 1 None (script_of [[x6a]])))
  = [Log (InfoBlockProtect 10)].
Proof. vm_compute. split; reflexivity. Qed.

(** ** Sectors *)

(** For a sector size that is a power of two, the mask gives the base of
    the sector an address lies in. *)
Lemma sector_start_pow2 (k a : Z) :
  0 <= k -> Z.land a (Z.lnot (2 ^ k - 1)) = a - a mod 2 ^ k.
Proof.
  intros Hk.
  replace (2 ^ k - 1) with (Z.ones k) by (rewrite Z.ones_equiv; lia).
  rewrite <- Z.ldiff_land, Z.ldiff_ones_r by exact Hk.
  rewrite Z.shiftl_mul_pow2, Z.shiftr_div_pow2 by exact Hk.
  pose proof (Z.div_mod a (2 ^ k)) as E.
  assert (0 < 2 ^ k) by (apply Z.pow_pos_nonneg; lia). lia.
Qed.



(** *** The test for an erased image *)

Lemma eqb_ff (b : byte) : Byte.eqb b xff = Byte.eqb xff b.
Proof. destruct b; reflexivity. Qed.

Lemma all_ff_re_match (d : list byte) : all_ff d = true -> re_match_ff d = true.
Proof.
  unfold all_ff. induction d as [|b d IH]; [reflexivity|].
  cbn [forallb re_match_ff]. intros H. apply andb_prop in H as [Hb Hd].
  rewrite eqb_ff, Hb. destruct d; [reflexivity|]. cbn [andb]. exact (IH Hd).
Qed.

Lemma ff_then_newline_cons (b : byte) (d : list byte) :
  d <> [] ->
  ff_then_newline (b :: d) = Byte.eqb xff b && ff_then_newline d.
Proof.
  intros Hd. unfold ff_then_newline. cbn [rev].
  destruct (rev d) as [|x front] eqn:E.
  - apply (f_equal (@rev byte)) in E. rewrite rev_involutive in E.
    cbn in E. congruence.
  - cbn [app]. unfold all_ff. rewrite forallb_app. cbn [forallb].
    rewrite andb_true_r.
    destruct (Byte.eqb x x0a), (forallb (Byte.eqb xff) front),
      (Byte.eqb xff b); reflexivity.
Qed.

(** What the regular expression accepts: the images that are all
    [0xff], and those that are so up to a final line feed. *)
Lemma re_match_ff_spec (d : list byte) :
  re_match_ff d = all_ff d || ff_then_newline d.
Proof.
  induction d as [|b d IH]; [reflexivity|].
  destruct d as [|c d].
  - unfold all_ff, ff_then_newline. cbn [re_match_ff forallb rev app].
    rewrite eqb_ff. destruct (Byte.eqb xff b), (Byte.eqb b x0a); reflexivity.
  - rewrite ff_then_newline_cons by discriminate.
    change (re_match_ff (b :: c :: d))
      with (Byte.eqb b xff && re_match_ff (c :: d)).
    change (all_ff (b :: c :: d)) with (Byte.eqb xff b && all_ff (c :: d)).
    rewrite IH, eqb_ff.
    destruct (Byte.eqb xff b), (all_ff (c :: d)), (ff_then_newline (c :: d));
      reflexivity.
Qed.

(** *** Assigning a chunk to its slice of a sector *)

Lemma slice_assign_inside {A} (off : Z) (chunk s : list A) :
  0 <= off -> off + len chunk <= len s ->
  slice_assign off (off + len chunk) chunk s =
    firstn (Z.to_nat off) s ++ chunk ++ skipn (Z.to_nat (off + len chunk)) s /\
  len (slice_assign off (off + len chunk) chunk s) = len s.
Proof.
  intros Hoff Hfit. pose proof (len_nonneg chunk) as Hc.
  unfold slice_assign, slice_index.
  destruct (Z.ltb_spec off 0); [lia|].
  destruct (Z.ltb_spec (off + len chunk) 0); [lia|].
  replace (Z.min off (len s)) with off by lia.
  replace (Z.min (off + len chunk) (len s)) with (off + len chunk) by lia.
  replace (Nat.max (Z.to_nat off) (Z.to_nat (off + len chunk)))
    with (Z.to_nat (off + len chunk)) by lia.
  split; [reflexivity|].
  unfold len in *. rewrite !length_app, length_firstn, length_skipn. lia.
Qed.

(** ** [erase_program] (claims C2 and C3) *)

Section EraseProgram.

Context {T : Type} (link : JTAG T).

(** A view of the trace that keeps nothing of what [program] does sees
    nothing in any run of [program]. *)
Lemma select_program_loop {X} (pick : event -> list X)
    (ps : Z) (cb : callback_t) (gas : nat) (total : Z) :
  (forall e, low e = true -> pick e = []) ->
  (forall d t s, pick (Progress d t s) = []) ->
  pick (Log LogWriteEnable) = [] ->
  (forall a d, pick (Log (LogPageProgram a d)) = []) ->
  1 <= ps -> reporting cb ->
  forall (fuel : nat) (a : Z) (data : list byte) (done : Z) (t : T),
  select pick (events_of (program_loop fuel gas a data ps cb done total t)) = [].
Proof.
  intros Hlow Hprog Hwe Hpp Hps Hcb.
  induction fuel as [|fuel IH]; intros a data done t.
  - destruct data; reflexivity.
  - destruct data as [|b data]; [rewrite program_loop_done; reflexivity|].
    assert (Hd : b :: data <> []) by discriminate.
    destruct (program_loop_turn link fuel gas a (b :: data) ps cb done total t
                Hd Hps Hcb) as (_ & HE).
    cbv zeta in HE. rewrite <- (select_high pick) by exact Hlow.
    rewrite HE, select_app, reporting_select by assumption.
    unfold select at 1. cbn [flat_map]. rewrite Hwe, Hpp. cbn [app].
    destruct (outcome_of (page_program _ _ _ _)); try reflexivity.
    fold (select pick). rewrite select_high by exact Hlow. apply IH.
Qed.

Lemma select_program {X} (pick : event -> list X)
    (gas : nat) (a : Z) (data : list byte) (ps : Z) (cb : callback_t) (t : T) :
  (forall e, low e = true -> pick e = []) ->
  (forall d t s, pick (Progress d t s) = []) ->
  pick (Log LogWriteEnable) = [] ->
  (forall a d, pick (Log (LogPageProgram a d)) = []) ->
  1 <= ps -> reporting cb ->
  select pick (events_of (program gas a data ps cb t)) = [].
Proof.
  intros Hlow Hprog Hwe Hpp Hps Hcb. unfold program.
  rewrite events_mbind, select_app, select_program_loop by assumption.
  destruct (outcome_of (program_loop _ _ _ _ _ _ _ _ _)); try reflexivity.
  cbn [emit events_of app]. apply reporting_select; assumption.
Qed.

Lemma reporting_offset (cb : callback_t) (done total : Z) :
  reporting cb ->
  reporting (fun page_done (_ : Z) status => cb (done + page_done) total status).
Proof. intros H d t s. apply H. Qed.

(** *** The sector image *)

Lemma sector_image_whole (gas : nat) (address : Z) (chunk : list byte)
    (ss : Z) (t : T) :
  (address mod ss =? 0) && (len chunk =? ss) = true ->
  sector_image gas address chunk ss t = Run (Ret chunk) t [].
Proof. intros H. unfold sector_image. rewrite H. reflexivity. Qed.

Lemma sector_image_merged (gas : nat) (address : Z) (chunk : list byte)
    (ss : Z) (t : T) :
  (address mod ss =? 0) && (len chunk =? ss) = false ->
  let rd := read gas (Z.land address (Z.lnot (ss - 1))) ss None no_callback t in
  outcome_of (sector_image gas address chunk ss t) =
    match outcome_of rd with
    | Ret rb => Ret (slice_assign (address mod ss)
                       (address mod ss + len chunk) chunk rb)
    | Raise e => Raise e
    | Timeout => Timeout
    end /\
  high (events_of (sector_image gas address chunk ss t)) =
    [Log (LogRead (Z.land address (Z.lnot (ss - 1))) ss)].
Proof.
  intros H. cbv zeta. unfold sector_image. rewrite H.
  rewrite outcome_mbind, high_mbind, high_read.
  destruct (outcome_of (read _ _ _ _ _ _)); split; reflexivity.
Qed.

Lemma high_sector_image (gas : nat) (address : Z) (chunk : list byte)
    (ss : Z) (t : T) :
  high (events_of (sector_image gas address chunk ss t)) =
  if (address mod ss =? 0) && (len chunk =? ss) then []
  else [Log (LogRead (Z.land address (Z.lnot (ss - 1))) ss)].
Proof.
  destruct ((address mod ss =? 0) && (len chunk =? ss)) eqn:W.
  - rewrite sector_image_whole by exact W. reflexivity.
  - apply sector_image_merged. exact W.
Qed.

(** *** One turn of the loop *)

Lemma erase_program_chunk_turn (gas : nat) (address : Z) (chunk : list byte)
    (ss ps : Z) (cb : callback_t) (done total : Z) (t : T) :
  let start := Z.land address (Z.lnot (ss - 1)) in
  let ri := sector_image gas address chunk ss t in
  let r := erase_program_chunk gas address chunk ss ps cb done total t in
  match outcome_of ri with
  | Ret image =>
      let re := sector_erase gas start (link_of (write_enable (link_of ri))) in
      let rp := program gas start image ps
                  (fun page_done (_ : Z) status =>
                     cb (done + page_done) total status) (link_of re) in
      outcome_of r =
        match outcome_of re with
        | Ret _ => if re_match_ff image then Ret tt else outcome_of rp
        | Raise e => Raise e
        | Timeout => Timeout
        end /\
      high (events_of r) =
        high (events_of ri)
          ++ high (cb done total (Some (ErasingSector start)))
          ++ Log LogWriteEnable :: Log (LogSectorErase start)
          :: match outcome_of re with
             | Ret _ => if re_match_ff image then []
                        else high (events_of rp)
             | _ => []
             end
  | Raise e => outcome_of r = Raise e /\ high (events_of r) = high (events_of ri)
  | Timeout => outcome_of r = Timeout /\ high (events_of r) = high (events_of ri)
  end.
Proof.
  cbv zeta. unfold erase_program_chunk.
  rewrite outcome_mbind, high_mbind.
  destruct (outcome_of (sector_image gas address chunk ss t)) as [image| |];
    [|split; [reflexivity|apply app_nil_r]..].
  rewrite outcome_mbind, high_mbind.
  cbn [emit outcome_of link_of events_of].
  destruct (write_enable_run link (link_of (sector_image gas address chunk ss t)))
    as (Owe & Hwe).
  rewrite outcome_mbind, high_mbind, Owe, Hwe.
  rewrite outcome_mbind, high_mbind, high_sector_erase.
  split; [destruct (re_match_ff image); reflexivity|].
  do 2 f_equal. cbn [app]. do 2 f_equal.
  destruct (outcome_of (sector_erase _ _ _)); try reflexivity.
  destruct (re_match_ff image); reflexivity.
Qed.

Lemma sector_erases_high (evs : list event) :
  sector_erases (high evs) = sector_erases evs.
Proof. apply select_high. intros [| | |[]|]; cbn; congruence. Qed.

Lemma sector_reads_high (evs : list event) :
  sector_reads (high evs) = sector_reads evs.
Proof. apply select_high. intros [| | |[]|]; cbn; congruence. Qed.

(** The erase of a turn: the sector at the masked address, once the
    image is there. *)
Lemma sector_erases_chunk (gas : nat) (address : Z) (chunk : list byte)
    (ss ps : Z) (cb : callback_t) (done total : Z) (t : T) :
  1 <= ps -> reporting cb ->
  sector_erases
    (events_of (erase_program_chunk gas address chunk ss ps cb done total t)) =
  match outcome_of (sector_image gas address chunk ss t) with
  | Ret _ => [Z.land address (Z.lnot (ss - 1))]
  | _ => []
  end.
Proof.
  intros Hps Hcb.
  pose proof (erase_program_chunk_turn gas address chunk ss ps cb done total t)
    as H. cbv zeta in H.
  pose proof (high_sector_image gas address chunk ss t) as Hi.
  rewrite <- sector_erases_high.
  assert (Hi0 : sector_erases
                  (high (events_of (sector_image gas address chunk ss t))) = []).
  { rewrite Hi. destruct (_ && _); reflexivity. }
  destruct (outcome_of (sector_image gas address chunk ss t)) as [image| |].
  - destruct H as (_ & ->). unfold sector_erases in *.
    rewrite !select_app, Hi0, reporting_high by exact Hcb.
    rewrite reporting_select by (exact Hcb || reflexivity).
    unfold select at 1. cbn [flat_map app]. f_equal.
    fold (select (fun e => match e with
                           | Log (LogSectorErase a) => [a]
                           | _ => []
                           end)).
    destruct (outcome_of (sector_erase _ _ _)); try reflexivity.
    destruct (re_match_ff image); [reflexivity|].
    rewrite select_high by (intros [| | |[]|]; cbn; congruence).
    apply select_program; try reflexivity; try assumption.
    + intros [| | |[]|]; cbn; congruence.
    + apply reporting_offset. exact Hcb.
  - destruct H as (_ & ->). exact Hi0.
  - destruct H as (_ & ->). exact Hi0.
Qed.

(** The read of a turn: the whole sector at the masked address, unless
    the chunk is a whole aligned sector. *)
Lemma sector_reads_chunk (gas : nat) (address : Z) (chunk : list byte)
    (ss ps : Z) (cb : callback_t) (done total : Z) (t : T) :
  1 <= ps -> reporting cb ->
  sector_reads
    (events_of (erase_program_chunk gas address chunk ss ps cb done total t)) =
  if (address mod ss =? 0) && (len chunk =? ss) then []
  else [(Z.land address (Z.lnot (ss - 1)), ss)].
Proof.
  intros Hps Hcb.
  pose proof (erase_program_chunk_turn gas address chunk ss ps cb done total t)
    as H. cbv zeta in H.
  pose proof (high_sector_image gas address chunk ss t) as Hi.
  rewrite <- sector_reads_high.
  assert (Hi0 : sector_reads
                  (high (events_of (sector_image gas address chunk ss t))) =
                if (address mod ss =? 0) && (len chunk =? ss) then []
                else [(Z.land address (Z.lnot (ss - 1)), ss)]).
  { rewrite Hi. destruct (_ && _); reflexivity. }
  destruct (outcome_of (sector_image gas address chunk ss t)) as [image| |].
  - destruct H as (_ & ->). unfold sector_reads in *.
    rewrite !select_app, Hi0, reporting_high by exact Hcb.
    rewrite reporting_select by (exact Hcb || reflexivity).
    unfold select at 1. cbn [flat_map app].
    fold (select (fun e => match e with
                           | Log (LogRead a n) => [(a, n)]
                           | _ => []
                           end)).
    match goal with |- ?l ++ ?x = ?l => assert (E : x = []) end.
    { destruct (outcome_of (sector_erase _ _ _)); try reflexivity.
      destruct (re_match_ff image); [reflexivity|].
      rewrite select_high by (intros [| | |[]|]; cbn; congruence).
      apply select_program; try reflexivity; try assumption.
      + intros [| | |[]|]; cbn; congruence.
      + apply reporting_offset. exact Hcb. }
    rewrite E. apply app_nil_r.
  - destruct H as (_ & ->). exact Hi0.
  - destruct H as (_ & ->). exact Hi0.
Qed.

End EraseProgram.

Section EraseProgramRuns.

Context {T : Type} (link : JTAG T).

(** A turn that returns, seen at command level. *)
Lemma erase_program_chunk_Ret (gas : nat) (address : Z) (chunk : list byte)
    (ss ps : Z) (cb : callback_t) (done total : Z) (t : T) (image : list byte) :
  1 <= ps -> reporting cb ->
  let start := Z.land address (Z.lnot (ss - 1)) in
  let cb' := fun page_done (_ : Z) status => cb (done + page_done) total status in
  let r := erase_program_chunk gas address chunk ss ps cb done total t in
  outcome_of (sector_image gas address chunk ss t) = Ret image ->
  outcome_of r = Ret tt ->
  high (events_of r) =
    (if (address mod ss =? 0) && (len chunk =? ss) then []
     else [Log (LogRead start ss)])
      ++ cb done total (Some (ErasingSector start))
      ++ Log LogWriteEnable :: Log (LogSectorErase start)
      :: (if re_match_ff image then []
          else program_plan cb' 0 (len image) (page_programs (events_of r))
                 ++ cb' (len image) (len image) None) /\
  (re_match_ff image = true -> page_programs (events_of r) = []) /\
  (re_match_ff image = false ->
     paged ps start image (page_programs (events_of r))).
Proof.
  intros Hps Hcb start cb' r Oi Or.
  pose proof (erase_program_chunk_turn link gas address chunk ss ps cb done total t)
    as H. cbv zeta in H. rewrite Oi in H. destruct H as (HO & HE).
  fold r in HO, HE. fold start in HO, HE. fold cb' in HO, HE.
  rewrite Or in HO.
  rewrite high_sector_image in HE. fold start in HE.
  rewrite reporting_high in HE by exact Hcb.
  assert (Hcb' : reporting cb') by (apply reporting_offset; exact Hcb).
  assert (Hpre : forall tail,
            page_programs
              ((if (address mod ss =? 0) && (len chunk =? ss) then []
                else [Log (LogRead start ss)])
                 ++ cb done total (Some (ErasingSector start))
                 ++ Log LogWriteEnable :: Log (LogSectorErase start) :: tail)
            = page_programs tail).
  { intros tail. unfold page_programs. rewrite !select_app.
    rewrite reporting_select by (exact Hcb || reflexivity).
    destruct (_ && _); reflexivity. }
  destruct (outcome_of (sector_erase gas start _)) as [[]| |];
    try discriminate HO.
  destruct (re_match_ff image) eqn:Wm.
  - split; [exact HE|]. split; [|discriminate].
    intros _. rewrite <- page_programs_high, HE, Hpre. reflexivity.
  - symmetry in HO.
    destruct (program_Ret link gas start image ps cb' _ Hps Hcb' HO)
      as (chunks & Hp & Hh).
    assert (Ec : page_programs (events_of r) = chunks).
    { rewrite <- page_programs_high, HE, Hpre, Hh.
      unfold page_programs at 1. rewrite select_app. fold page_programs.
      rewrite page_programs_plan by exact Hcb'.
      unfold page_programs.
      rewrite reporting_select by (exact Hcb' || reflexivity).
      apply app_nil_r. }
    rewrite Ec. split; [rewrite HE, Hh; reflexivity|].
    split; [discriminate|]. intros _. exact Hp.
Qed.

(** A chunk as the loop cuts it, for a sector size that is a power of
    two. *)
Lemma chunk_in_sector (k address : Z) (data : list byte) :
  0 <= k -> data <> [] ->
  let ss := 2 ^ k in
  let chunk := slice_to (ss - address mod ss) data in
  1 <= ss /\ 0 <= address mod ss < ss /\
  chunk <> [] /\ len chunk = Z.min (len data) (ss - address mod ss) /\
  chunk ++ skipn (length chunk) data = data /\
  Z.land address (Z.lnot (ss - 1)) = address - address mod ss.
Proof.
  intros Hk Hd. cbv zeta.
  assert (Hss : 0 < 2 ^ k) by (apply Z.pow_pos_nonneg; lia).
  pose proof (Z.mod_pos_bound address (2 ^ k) Hss) as Hm.
  destruct (slice_to_facts (2 ^ k - address mod 2 ^ k) data ltac:(lia) Hd)
    as (Hc1 & Hc2 & _ & Hc4).
  repeat split; try assumption; try lia.
  apply sector_start_pow2. exact Hk.
Qed.

(** Over a full-duplex link the image is there, one sector long. *)
Lemma sector_image_returns (k : Z) (gas : nat) (address : Z)
    (chunk : list byte) (t : T) :
  0 <= k -> full_duplex link -> (Z.to_nat (2 ^ k) <= gas)%nat ->
  chunk <> [] -> len chunk <= 2 ^ k - address mod 2 ^ k ->
  exists image,
    outcome_of (sector_image gas address chunk (2 ^ k) t) = Ret image /\
    len image = 2 ^ k.
Proof.
  intros Hk Hfd Hg Hc Hfit.
  assert (Hss : 0 < 2 ^ k) by (apply Z.pow_pos_nonneg; lia).
  pose proof (Z.mod_pos_bound address (2 ^ k) Hss) as Hm.
  destruct ((address mod 2 ^ k =? 0) && (len chunk =? 2 ^ k)) eqn:W.
  - rewrite sector_image_whole by exact W. exists chunk.
    split; [reflexivity|]. apply andb_prop in W as [_ W]. lia.
  - destruct (sector_image_merged link gas address chunk (2 ^ k) t W)
      as (HO & _). cbv zeta in HO.
    destruct (read_returns link gas (Z.land address (Z.lnot (2 ^ k - 1)))
                (2 ^ k) t Hfd Hg) as (rb & Ord & Lrb).
    rewrite Ord in HO. eexists. split; [exact HO|].
    destruct (slice_assign_inside (address mod 2 ^ k) chunk rb) as (_ & L);
      lia.
Qed.

Lemma erase_program_chunk_returns (k : Z) (gas : nat) (address : Z)
    (chunk : list byte) (ps : Z) (cb : callback_t) (done total : Z) (t : T) :
  0 <= k -> 1 <= ps -> reporting cb ->
  full_duplex link -> always_ready link -> (Z.to_nat (2 ^ k) <= gas)%nat ->
  chunk <> [] -> len chunk <= 2 ^ k - address mod 2 ^ k ->
  outcome_of (erase_program_chunk gas address chunk (2 ^ k) ps cb done total t)
  = Ret tt.
Proof.
  intros Hk Hps Hcb Hfd Hr Hg Hc Hfit.
  assert (Hss : 0 < 2 ^ k) by (apply Z.pow_pos_nonneg; lia).
  destruct (sector_image_returns k gas address chunk t Hk Hfd Hg Hc Hfit)
    as (image & Oi & Li).
  pose proof (erase_program_chunk_turn link gas address chunk (2 ^ k) ps cb
                done total t) as H.
  cbv zeta in H. rewrite Oi in H. destruct H as (-> & _).
  destruct gas as [|n]; [lia|].
  rewrite (sector_erase_returns link n _ _ Hr).
  destruct (re_match_ff image); [reflexivity|].
  apply program_returns; try assumption.
  - apply reporting_offset. exact Hcb.
  - unfold len in Li. lia.
Qed.

Lemma erase_program_loop_done (fuel gas : nat) (a ss ps : Z)
    (cb : callback_t) (done total : Z) (t : T) :
  erase_program_loop fuel gas a [] ss ps cb done total t = Run (Ret done) t [].
Proof. destruct fuel; reflexivity. Qed.

(** How the loop goes on a non-empty buffer. *)
Lemma erase_program_loop_turn (fuel gas : nat) (address : Z)
    (data : list byte) (ss ps : Z) (cb : callback_t) (done total : Z) (t : T) :
  data <> [] -> ss <> 0 ->
  let chunk := slice_to (ss - address mod ss) data in
  erase_program_loop (S fuel) gas address data ss ps cb done total t =
  mbind (erase_program_chunk gas address chunk ss ps cb done total)
        (fun _ => erase_program_loop fuel gas (address + len chunk)
                    (skipn (length chunk) data) ss ps cb
                    (done + len chunk) total) t.
Proof.
  intros Hd Hss. cbv zeta. cbn [erase_program_loop].
  pose proof (len_pos data Hd).
  destruct (Z.ltb_spec 0 (len data)); [|lia].
  destruct (Z.eqb_spec ss 0); [contradiction|]. reflexivity.
Qed.





End EraseProgramRuns.

Section EraseProgramClaims.

Context {T : Type} (link : JTAG T).

(** C3, for sector sizes that are powers of two.  Every turn of the
    loop of [erase_program] takes the chunk that reaches to the end of
    the sector of [address] or to the end of the data; the chunk lies in
    the sector whose base is [address - address mod sector_size], and
    that is the only sector the turn erases.  When the chunk is not a
    whole aligned sector, the turn first reads the whole sector at that
    base and the image is what was read with the chunk put at offset
    [address mod sector_size]; else the image is the chunk and nothing
    is read.  A turn that returns has read (if it had to), reported,
    write-enabled and erased in this order, then programmed the image
    from the base unless the test for an erased image accepted it. *)
Theorem erase_program_chunk_in_its_sector
    (k : Z) (gas : nat) (address : Z) (data : list byte) (page_size : Z)
    (callback : callback_t) (done total : Z) (t : T) :
  0 <= k -> 1 <= page_size -> reporting callback -> data <> [] ->
  let sector_size := 2 ^ k in
  let offset := address mod sector_size in
  let base := address - offset in
  let chunk := slice_to (sector_size - offset) data in
  let whole := (offset =? 0) && (len chunk =? sector_size) in
  let nested := fun page_done (_ : Z) status =>
                  callback (done + page_done) total status in
  let r := erase_program_chunk gas address chunk sector_size page_size
             callback done total t in
  let image_run := sector_image gas address chunk sector_size t in
  (forall fuel,
     erase_program_loop (S fuel) gas address data sector_size page_size
       callback done total t =
     mbind (erase_program_chunk gas address chunk sector_size page_size
              callback done total)
           (fun _ => erase_program_loop fuel gas (address + len chunk)
                       (skipn (length chunk) data) sector_size page_size
                       callback (done + len chunk) total) t) /\
  (chunk <> [] /\ base mod sector_size = 0 /\
   base <= address /\ address + len chunk <= base + sector_size) /\
  (forall a, In a (sector_erases (events_of r)) -> a = base) /\
  sector_reads (events_of r) = (if whole then [] else [(base, sector_size)]) /\
  (whole = true -> outcome_of image_run = Ret chunk) /\
  (whole = false ->
     forall read_back,
       outcome_of (read gas base sector_size None no_callback t)
         = Ret read_back ->
       len read_back = sector_size ->
       outcome_of image_run =
         Ret (firstn (Z.to_nat offset) read_back ++ chunk
                ++ skipn (Z.to_nat (offset + len chunk)) read_back)) /\
  (forall image,
     outcome_of image_run = Ret image -> outcome_of r = Ret tt ->
     sector_erases (events_of r) = [base] /\
     high (events_of r) =
       (if whole then [] else [Log (LogRead base sector_size)])
         ++ callback done total (Some (ErasingSector base))
         ++ Log LogWriteEnable :: Log (LogSectorErase base)
         :: (if re_match_ff image then []
             else program_plan nested 0 (len image)
                    (page_programs (events_of r))
                    ++ nested (len image) (len image) None) /\
     (re_match_ff image = false ->
        concat (map snd (page_programs (events_of r))) = image /\
        contiguous_from base (page_programs (events_of r)))) /\
  (full_duplex link -> always_ready link ->
   (Z.to_nat sector_size <= gas)%nat ->
     outcome_of r = Ret tt /\
     exists image, outcome_of image_run = Ret image /\
                   len image = sector_size).
Proof.
  intros Hk Hps Hcb Hd. cbv zeta.
  destruct (chunk_in_sector k address data Hk Hd)
    as (Hss & Hm & Hc1 & Hc2 & Hc4 & Hstart).
  cbv zeta in Hss, Hm, Hc1, Hc2, Hc4, Hstart.
  set (ss := 2 ^ k) in *.
  set (chunk := slice_to (ss - address mod ss) data) in *.
  pose proof (len_nonneg chunk) as Hc0.
  pose proof (Z.div_mod address ss ltac:(lia)) as Hdm.
  split; [intros fuel; apply erase_program_loop_turn; [exact Hd|lia]|].
  split.
  { split; [exact Hc1|]. split; [|lia].
    replace (address - address mod ss) with (0 + address / ss * ss) by lia.
    rewrite Z.mod_add by lia. reflexivity. }
  split.
  { intros a Ha. rewrite (sector_erases_chunk link) in Ha by assumption.
    rewrite Hstart in Ha.
    destruct (outcome_of (sector_image gas address chunk ss t));
      cbn in Ha; intuition congruence. }
  split.
  { rewrite (sector_reads_chunk link) by assumption. rewrite Hstart.
    reflexivity. }
  split.
  { intros W. rewrite sector_image_whole by exact W. reflexivity. }
  split.
  { intros W rb Ord Lrb.
    destruct (sector_image_merged link gas address chunk ss t W) as (HO & _).
    cbv zeta in HO. rewrite Hstart, Ord in HO. rewrite HO. f_equal.
    apply slice_assign_inside; lia. }
  split.
  { intros image Oi Or.
    destruct (erase_program_chunk_Ret link gas address chunk ss page_size
                callback done total t image Hps Hcb Oi Or) as (HE & H1 & H2).
    cbv zeta in HE. rewrite Hstart in HE, H2.
    split.
    - rewrite (sector_erases_chunk link), Oi, Hstart by assumption.
      reflexivity.
    - split; [exact HE|]. intros Wm. specialize (H2 Wm).
      split; [exact (paged_concat _ _ _ _ H2)|].
      exact (paged_contiguous _ _ _ _ H2). }
  intros Hfd Hr Hg. split.
  - apply erase_program_chunk_returns; try assumption. fold ss. lia.
  - apply sector_image_returns; try assumption. fold ss. lia.
Qed.


End EraseProgramClaims.

(** C3 as stated fails for a sector size that is not a power of two:
    with sectors of 3 bytes the turn for address 6 erases (and reads) at
    4, not at [6 - 6 mod 3 = 6]. *)
Lemma erase_program_chunk_base_fails :
  let r := erase_program_chunk 8 6 (slice_to (3 - 6 mod 3) [x00]) 3 1
             observe 0 1 tt in
  outcome_of r = Ret tt /\
  sector_erases (events_of r) = [4] /\
  sector_reads (events_of r) = [(4, 3)] /\
  ~ In (6 - 6 mod 3) (sector_erases (events_of r)).
Proof.
  vm_compute. repeat split; try reflexivity.
  intros [H|[]]. discriminate H.
Qed.


(** Four bytes from address 14 with sectors of 16 bytes: the first turn
    takes the two bytes up to the end of sector 0, reads that sector,
    and erases it. *)
Lemma erase_program_chunk_in_its_sector_witness :
  let data := [xaa; xaa; xaa; xaa] in
  let chunk := slice_to (2 ^ 4 - 14 mod 2 ^ 4) data in
  let r := erase_program_chunk 16 14 chunk (2 ^ 4) 4 observe 0 4 tt in
  (chunk <> [] /\ (14 - 14 mod 2 ^ 4) mod 2 ^ 4 = 0 /\
   14 - 14 mod 2 ^ 4 <= 14 /\
   14 + len chunk <= 14 - 14 mod 2 ^ 4 + 2 ^ 4) /\
  (forall a, In a (sector_erases (events_of r)) -> a = 14 - 14 mod 2 ^ 4) /\
  sector_reads (events_of r) = [(0, 16)] /\
  outcome_of r = Ret tt.
Proof.
  cbv zeta.
  destruct (erase_program_chunk_in_its_sector silent_link 4 16 14
              [xaa; xaa; xaa; xaa] 4 observe 0 4 tt)
    as (_ & H2 & H3 & H4 & _ & _ & _ & H8).
  - lia.
  - lia.
  - intros d tot s. reflexivity.
  - discriminate.
  - split; [exact H2|]. split; [exact H3|]. split; [exact H4|].
    apply H8.
    + intros tdi u. apply repeat_length.
    + intros []. exists 0. split; [vm_compute; reflexivity|].
      split; reflexivity.
    + vm_compute. lia.
Defined.


(** The scenario of the specification, evaluated on a flash that reads
    back zeros: 32 bytes of [0xaa] from [0x0ff0] with sectors of
    [0x1000] bytes and pages of 256.  The data crosses into the next
    sector, so there are two turns of 16 bytes each: both sectors are
    read back, erased and programmed as 16 pages; the last page of the
    first sector carries the first 16 bytes at offset [0xf0]. *)
Example erase_program_scenario_0x0ff0 :
  let r := erase_program 4096 4080 (repeat xaa 32) 4096 256 observe tt in
  outcome_of r = Ret tt /\
  sector_reads (events_of r) = [(0, 4096); (4096, 4096)] /\
  sector_erases (events_of r) = [0; 4096] /\
  map (fun ac => (fst ac, len (snd ac))) (page_programs (events_of r))
    = map (fun i => (256 * Z.of_nat i, 256)) (seq 0 32) /\
  nth_error (page_programs (events_of r)) 15
    = Some (3840, repeat x00 240 ++ repeat xaa 16) /\
  nth_error (page_programs (events_of r)) 16
    = Some (4096, repeat xaa 16 ++ repeat x00 240).
Proof. vm_compute. repeat split; reflexivity. Qed.

(** A flash that is busy: after the page program the status reads
    [0b11] twice (WIP and WEL set) and then [0].  The poll goes round
    three times and [program] returns with the same page program and
    reports as on an idle flash. *)
Example program_on_a_busy_flash :
  let t := script_of [[]; []; [x03]; [x03]; [x00]] in
  let r := program 3 4096 [x01; x02] 256 observe t in
  outcome_of r = Ret tt /\
  status_reads (events_of r) = [3; 3; 0] /\
  high (events_of r) =
    [Progress 0 2 (Some (ProgrammingPage 4096));
     Log LogWriteEnable; Log (LogPageProgram 4096 [x01; x02]);
     Progress 2 2 None].
Proof. vm_compute. repeat split; reflexivity. Qed.

(** The same flash with too little fuel for the poll: the run is cut
    off, which stands for a caller still waiting. *)
Example program_cut_off :
  let t := script_of [[]; []; [x03]; [x03]; [x00]] in
  outcome_of (program 2 4096 [x01; x02] 256 observe t) = Timeout.
Proof. vm_compute. reflexivity. Qed.

(** A flash that keeps WEL set with WIP clear: the page program is
    reported as failed. *)
Example program_command_failed :
  let t := script_of [[]; []; [x02]; [x02]] in
  outcome_of (program 3 4096 [x01; x02] 256 observe t)
  = Raise (ProgramECP5Error "PAGE PROGRAM" 2).
Proof. vm_compute. reflexivity. Qed.

(** * Further properties of the driver *)

(** ** Addresses on the wire *)

Lemma byte_val_low_byte (z : Z) : byte_val (low_byte (Z.land z 255)) = z mod 256.
Proof.
  unfold low_byte. rewrite <- Z.land_assoc. change (Z.land 255 255) with 255.
  change 255 with (Z.ones 8). rewrite Z.land_ones by lia.
  change (2 ^ 8) with 256.
  assert (Hb : is_byte (z mod 256)) by (apply Z.mod_pos_bound; lia).
  destruct (is_byte_val _ Hb) as (b & -> & Hv). exact Hv.
Qed.

(** X1.  [_format_addr] gives three bytes, most significant first, that
    spell the address modulo [2^24]: an address is sent without any
    check, and one beyond 16 MiB (or below zero) wraps around. *)
Theorem _format_addr_big_endian (addr : Z) :
  exists b2 b1 b0,
    _format_addr addr = [b2; b1; b0] /\
    65536 * byte_val b2 + 256 * byte_val b1 + byte_val b0 = addr mod 2 ^ 24 /\
    be_value (_format_addr addr) = addr mod 2 ^ 24 /\
    forall k, _format_addr (addr + k * 2 ^ 24) = _format_addr addr.
Proof.
  assert (V : 65536 * ((addr / 65536) mod 256) + 256 * ((addr / 256) mod 256)
              + addr mod 256 = addr mod 2 ^ 24).
  { pose proof (Z.rem_mul_r addr 256 65536 ltac:(lia) ltac:(lia)) as H1.
    pose proof (Z.rem_mul_r (addr / 256) 256 256 ltac:(lia) ltac:(lia)) as H2.
    rewrite Z.div_div in H2 by lia.
    change (256 * 256) with 65536 in H2. change (256 * 65536) with (2 ^ 24) in H1.
    lia. }
  unfold _format_addr. do 3 eexists. split; [reflexivity|].
  rewrite !byte_val_low_byte, !Z.shiftr_div_pow2 by lia.
  change (2 ^ 16) with 65536. change (2 ^ 8) with 256.
  split; [exact V|]. split.
  - unfold be_value. cbn [fold_left].
    rewrite !byte_val_low_byte. lia.
  - intros k.
    assert (E : forall d m, 0 < d -> 2 ^ 24 = d * m -> 256 * (m / 256) = m ->
              ((addr + k * 2 ^ 24) / d) mod 256 = (addr / d) mod 256).
    { intros d m Hd Hm H256. rewrite Hm.
      replace (addr + k * (d * m)) with (addr + (k * m) * d) by lia.
      rewrite Z.div_add by lia. rewrite <- H256.
      replace (addr / d + k * (256 * (m / 256)))
        with (addr / d + (k * (m / 256)) * 256) by lia.
      apply Z.mod_add. lia. }
    assert (L : forall z z', z mod 256 = z' mod 256 ->
              low_byte (Z.land z 255) = low_byte (Z.land z' 255)).
    { intros z z' H. unfold low_byte. rewrite <- !Z.land_assoc.
      change (Z.land 255 255) with (Z.ones 8).
      rewrite !Z.land_ones by lia. change (2 ^ 8) with 256. rewrite H.
      reflexivity. }
    rewrite !Z.shiftr_div_pow2 by lia.
    change (2 ^ 16) with 65536. change (2 ^ 8) with 256.
    f_equal; [|f_equal; [|f_equal]]; apply L.
    + apply (E 65536 256); [lia|reflexivity|reflexivity].
    + apply (E 256 65536); [lia|reflexivity|reflexivity].
    + pose proof (E 1 (2 ^ 24) ltac:(lia) ltac:(lia) eq_refl) as H.
      rewrite !Z.div_1_r in H. exact H.
Qed.

(** ** More on the codecs *)

Lemma odd_text_padded (s : list ascii) :
  Nat.odd (length s) = true ->
  Hex.rjust0 ((len s + 1) / 2 * 2) s = "0"%char :: s /\
  Hex.rjust0 ((len ("0"%char :: s) + 1) / 2 * 2) ("0"%char :: s) = "0"%char :: s.
Proof.
  intros Hodd. apply Nat.odd_spec in Hodd. destruct Hodd as (k & Hk).
  unfold Hex.rjust0, len. cbn [length]. rewrite Hk.
  replace ((Z.of_nat (2 * k + 1) + 1) / 2) with (Z.of_nat k + 1)
    by (apply Z.div_unique with (r := 0); lia).
  replace ((Z.of_nat (S (2 * k + 1)) + 1) / 2) with (Z.of_nat k + 1)
    by (apply Z.div_unique with (r := 1); lia).
  replace (Z.to_nat ((Z.of_nat k + 1) * 2 - Z.of_nat (2 * k + 1))) with 1%nat
    by lia.
  replace (Z.to_nat ((Z.of_nat k + 1) * 2 - Z.of_nat (S (2 * k + 1))))
    with 0%nat by lia.
  split; reflexivity.
Qed.

(** X2.  A text with an odd number of nibbles is encoded, by either
    codec, exactly as the text with a zero nibble put in front. *)
Theorem odd_nibbles_read_with_leading_zero (s : list ascii) :
  Nat.odd (length s) = true ->
  _hex_to_bitarray s = _hex_to_bitarray ("0"%char :: s) /\
  _bitarray s = _bitarray ("0"%char :: s).
Proof.
  intros Hodd. destruct (odd_text_padded s Hodd) as (E1 & E2).
  unfold _hex_to_bitarray, _bitarray. rewrite E1, E2. split; reflexivity.
Qed.

Lemma odd_nibbles_read_with_leading_zero_witness :
  _hex_to_bitarray ["3"; "a"; "5"]%char
    = _hex_to_bitarray ("0" :: ["3"; "a"; "5"])%char /\
  _bitarray ["3"; "a"; "5"]%char = _bitarray ("0" :: ["3"; "a"; "5"])%char.
Proof.
  apply (odd_nibbles_read_with_leading_zero ["3"; "a"; "5"]%char).
  reflexivity.
Defined.

Lemma bits_to_Z_app (l1 l2 : bitarray) :
  bits_to_Z (l1 ++ l2) = bits_to_Z l1 + 2 ^ Z.of_nat (length l1) * bits_to_Z l2.
Proof.
  induction l1 as [|b l1 IH]; [cbn [app length bits_to_Z]; lia|].
  cbn [app length bits_to_Z]. rewrite IH, Nat2Z.inj_succ, Z.pow_succ_r by lia.
  lia.
Qed.

Lemma bits_to_Z_byte (b : byte) : bits_to_Z (byte_bits b) = byte_val b.
Proof. destruct b; reflexivity. Qed.

Lemma bits_to_Z_frombytes_rev (bs : list byte) :
  bits_to_Z (frombytes (rev bs)) = be_value bs.
Proof.
  unfold be_value. rewrite <- fold_left_rev_right.
  induction (rev bs) as [|b l IH]; [reflexivity|].
  unfold frombytes in *. cbn [flat_map fold_right].
  rewrite bits_to_Z_app, byte_bits_length, bits_to_Z_byte, IH.
  change (2 ^ Z.of_nat 8) with 256. lia.
Qed.

(** X3.  The two codecs are mirror images: whatever the text, what
    [_bitarray] produces is what [_hex_to_bitarray] produces with the
    order of all bits reversed (and the one fails exactly when the other
    does).  For the text of a byte string the instruction-direction
    codec gives eight bits per byte that spell the integer written in
    the text, least significant bit first; the command-direction codec
    gives the same integer most significant bit first. *)
Theorem codecs_are_mirror_images :
  (forall s, _bitarray s = option_map reverse (_hex_to_bitarray s)) /\
  (forall B, exists bits,
     encode_instruction (map byte_val B) = Some bits /\
     encode_command (map byte_val B) = Some (reverse bits) /\
     length bits = (8 * length B)%nat /\
     bits_to_Z bits = be_value B).
Proof.
  split.
  - intros s. unfold _bitarray, _hex_to_bitarray.
    destruct (Hex.fromhex _) as [bs|]; [|reflexivity].
    cbn [option_map]. f_equal.
    rewrite reverse_frombytes, bytereverse_turned, reverse_frombytes.
    rewrite rev_involutive. apply bytereverse_frombytes.
  - intros B. exists (frombytes (rev B)).
    split; [apply _hex_to_bitarray_hexlify|]. split.
    + unfold encode_command. rewrite _bitarray_hexlify. f_equal.
      rewrite reverse_frombytes, rev_involutive. apply bytereverse_frombytes.
    + split; [rewrite length_frombytes, length_rev; reflexivity|].
      apply bits_to_Z_frombytes_rev.
Qed.

(** ** More on reading *)

Section ReadingMore.

Context {T : Type} (link : JTAG T).

Lemma requests_command (cmd : Z) (arg : list byte) (dummy ret : Z) (t : T) :
  requests (events_of (_command cmd arg dummy ret t)) = [(cmd, arg, dummy, ret)].
Proof.
  unfold _command, _log, _sdr_array, mbind, emit.
  cbn [outcome_of link_of events_of].
  destruct (_bitarray _) as [tdi1|];
    cbn [lift_option mret raise outcome_of link_of events_of]; [|reflexivity].
  destruct (shift_tdio tdi1 _) as [tdo1 t2]. cbn [outcome_of link_of events_of].
  destruct (_bitarray _) as [tdi2|];
    cbn [lift_option mret raise outcome_of link_of events_of]; [|reflexivity].
  destruct (shift_tdio tdi2 _) as [tdo2 t4]. reflexivity.
Qed.

Lemma read_requests_none (cmd dummy cs a n : Z) :
  1 <= cs -> n <= 0 -> read_requests cmd dummy cs a n = [].
Proof.
  intros Hcs Hn. unfold read_requests.
  assert (H : (n + cs - 1) / cs <= 0).
  { replace 0 with ((cs - 1) / cs) by (apply Z.div_small; lia).
    apply Z.div_le_mono; lia. }
  replace (Z.to_nat ((n + cs - 1) / cs)) with 0%nat by lia. reflexivity.
Qed.

Lemma read_requests_step (cmd dummy cs a n : Z) :
  1 <= cs -> 0 < n ->
  read_requests cmd dummy cs a n =
  (cmd, _format_addr a, dummy, Z.min cs n)
    :: read_requests cmd dummy cs (a + Z.min cs n) (n - Z.min cs n).
Proof.
  intros Hcs Hn. destruct (Z.le_gt_cases n cs) as [Hle|Hgt].
  - rewrite Z.min_r by exact Hle.
    rewrite (read_requests_none cmd dummy cs (a + n) (n - n)) by lia.
    unfold read_requests.
    replace ((n + cs - 1) / cs) with 1
      by (apply Z.div_unique with (r := n - 1); lia).
    change (Z.to_nat 1) with 1%nat. cbn [seq map]. change (Z.of_nat 0) with 0.
    replace (a + cs * 0) with a by lia. replace (n - cs * 0) with n by lia.
    rewrite Z.min_r by lia. reflexivity.
  - rewrite Z.min_l by lia. unfold read_requests.
    replace (n + cs - 1) with ((n - cs + cs - 1) + 1 * cs) by lia.
    rewrite Z.div_add by lia.
    assert (H0 : 0 <= (n - cs + cs - 1) / cs) by (apply Z.div_pos; lia).
    replace (Z.to_nat ((n - cs + cs - 1) / cs + 1))
      with (S (Z.to_nat ((n - cs + cs - 1) / cs))) by lia.
    cbn [seq map]. f_equal.
    + change (Z.of_nat 0) with 0.
      replace (a + cs * 0) with a by lia. replace (n - cs * 0) with n by lia.
      rewrite Z.min_l by lia. reflexivity.
    + rewrite <- seq_shift, map_map. apply map_ext. intros i.
      rewrite Nat2Z.inj_succ.
      replace (a + cs + cs * Z.of_nat i) with (a + cs * Z.succ (Z.of_nat i))
        by lia.
      replace (n - cs - cs * Z.of_nat i) with (n - cs * Z.succ (Z.of_nat i))
        by lia.
      reflexivity.
Qed.

(** What the read loop sends over a full-duplex link. *)
Lemma read_loop_requests (length cs cmd dummy : Z) (cb : callback_t) :
  full_duplex link -> is_byte cmd -> 1 <= cs -> reporting cb ->
  forall (fuel : nat) (address : Z) (data : list byte) (t : T),
  (Z.to_nat (length - len data) <= fuel)%nat ->
  requests (events_of (_read_loop fuel address length cs cmd dummy cb data t))
  = read_requests cmd dummy cs address (length - len data).
Proof.
  intros Hfd Hcmd Hcs Hcb.
  induction fuel as [|fuel IH]; intros address data t Hf; cbn [_read_loop];
    destruct (Z.ltb_spec (len data) length) as [Hlt|Hge].
  1: lia.
  1, 3: rewrite read_requests_none by lia; reflexivity.
  rewrite events_mbind. cbn [emit outcome_of link_of events_of].
  unfold requests at 1. rewrite select_app.
  rewrite reporting_select by (exact Hcb || reflexivity).
  fold requests. cbn [app]. rewrite events_mbind.
  unfold requests at 1. rewrite select_app. fold requests.
  rewrite requests_command.
  destruct (command_returns link cmd (_format_addr address) dummy
              (Z.min cs (length - len data)) t Hcmd) as (chunk & O & L).
  rewrite O. specialize (L Hfd).
  rewrite IH by (rewrite len_app; unfold len in *; lia).
  rewrite (read_requests_step cmd dummy cs address (length - len data))
    by lia.
  cbn [app]. f_equal. rewrite len_app.
  replace (len chunk) with (Z.min cs (length - len data))
    by (unfold len in *; lia).
  f_equal. lia.
Qed.

(** X4.  Reading no bytes sends nothing: for a length of zero or less,
    [read] and [fast_read] log the call, leave the link alone and return
    the empty string, whatever the chunk size and the callback. *)
Theorem read_nothing (gas : nat) (address length : Z) (chunk_size : option Z)
    (callback : callback_t) (t : T) :
  length <= 0 ->
  read gas address length chunk_size callback t =
    Run (Ret []) t [Log (LogRead address length)] /\
  fast_read gas address length chunk_size callback t =
    Run (Ret []) t [Log (LogFastRead address length)].
Proof.
  intros Hl. unfold read, fast_read, _read_command, mbind.
  cbn [_log emit outcome_of link_of events_of].
  assert (E : forall cs cmd dummy,
            _read_loop gas address length cs cmd dummy callback [] t
            = Run (Ret []) t []).
  { intros cs cmd dummy. destruct gas; cbn [_read_loop];
      (destruct (Z.ltb_spec (len (@nil byte)) length) as [H|H];
       [unfold len in H; cbn in H; lia|reflexivity]). }
  rewrite !E. split; reflexivity.
Qed.

(** X5.  Over a full-duplex link, [read] and [fast_read] of a positive
    length return exactly that many bytes.  They fetch them chunk by
    chunk (255 bytes when no chunk size is given): one command per
    chunk, with the address of the first byte of the chunk in three
    bytes; every command asks for a full chunk but the last, which asks
    for what is left.  [read] sends opcode [0x03] with no dummy byte,
    [fast_read] opcode [0x0b] with one. *)
Theorem read_in_chunks (gas : nat) (address length : Z) (chunk_size : option Z)
    (t : T) :
  full_duplex link -> 0 < length ->
  let cs := match chunk_size with None => 255 | Some c => c end in
  1 <= cs -> (Z.to_nat length <= gas)%nat ->
  (exists data,
     outcome_of (read gas address length chunk_size no_callback t) = Ret data /\
     len data = length) /\
  requests (events_of (read gas address length chunk_size no_callback t))
    = read_requests 3 0 cs address length /\
  (exists data,
     outcome_of (fast_read gas address length chunk_size no_callback t)
       = Ret data /\
     len data = length) /\
  requests (events_of (fast_read gas address length chunk_size no_callback t))
    = read_requests 11 1 cs address length.
Proof.
  intros Hfd Hl cs Hcs Hg.
  assert (Hg' : (Z.to_nat (length - len (@nil byte)) <= gas)%nat)
    by (unfold len; cbn [List.length]; lia).
  assert (El : length - len (@nil byte) = length)
    by (unfold len; cbn [List.length]; lia).
  assert (R : forall x cmd dummy, is_byte cmd -> requests [Log x] = [] ->
            let r := mbind (_log x)
                       (fun _ => _read_loop gas address length cs cmd dummy
                                   no_callback []) t in
            (exists data, outcome_of r = Ret data /\ len data = length) /\
            requests (events_of r) = read_requests cmd dummy cs address length).
  { intros x cmd dummy Hcmd Hx. cbv zeta.
    rewrite outcome_mbind, events_mbind.
    cbn [_log emit outcome_of link_of events_of].
    destruct (read_loop_returns link length cs cmd dummy no_callback Hfd Hcmd
                Hcs gas address [] t Hg') as (d & O & L).
    unfold len in L. cbn [List.length] in L.
    split; [exists d; split; [exact O|unfold len; lia]|].
    unfold requests. rewrite select_app. fold requests.
    rewrite (read_loop_requests length cs cmd dummy no_callback Hfd Hcmd Hcs
               reporting_no_callback gas address [] t Hg'), El, Hx.
    reflexivity. }
  assert (H3 : is_byte 3) by (unfold is_byte; lia).
  assert (H11 : is_byte 11) by (unfold is_byte; lia).
  destruct (R (LogRead address length) 3 0 H3 eq_refl) as (Ra & Rb).
  destruct (R (LogFastRead address length) 11 1 H11 eq_refl) as (Fa & Fb).
  unfold read, fast_read, _read_command. fold cs.
  repeat split; assumption.
Qed.

Lemma read_loop_stuck (address length c : Z) :
  full_duplex link -> 0 < length -> c <= 0 ->
  forall (gas : nat) (t : T),
  outcome_of (_read_loop gas address length c 3 0 no_callback [] t) = Timeout /\
  requests (events_of (_read_loop gas address length c 3 0 no_callback [] t))
    = repeat (3, _format_addr address, 0, c) gas.
Proof.
  intros Hfd Hl Hc.
  assert (Hb : is_byte 3) by (unfold is_byte; lia).
  assert (H0 : len (@nil byte) = 0) by reflexivity.
  induction gas as [|gas IH]; intros t; cbn [_read_loop]; rewrite H0;
    (destruct (Z.ltb_spec 0 length) as [H|H]; [|lia]); [split; reflexivity|].
  rewrite outcome_mbind, events_mbind.
  cbn [emit no_callback outcome_of link_of events_of app].
  rewrite outcome_mbind, events_mbind.
  unfold requests at 1. rewrite select_app. fold requests.
  rewrite requests_command.
  replace (Z.min c (length - 0)) with c by lia.
  destruct (command_returns link 3 (_format_addr address) 0 c t Hb)
    as (chunk & O & L).
  rewrite O. specialize (L Hfd).
  destruct chunk; [|cbn [List.length] in L; lia].
  cbn [app]. rewrite H0, Z.add_0_r.
  destruct (IH (link_of (_command 3 (_format_addr address) 0 c t)))
    as (IHo & IHr).
  split; [exact IHo|]. cbn [repeat]. rewrite IHr. reflexivity.
Qed.

(** X6.  A chunk size of zero or less is not refused: every command then
    asks for no bytes, the buffer never grows, and the loop never ends.
    Over a full-duplex link a [read] of a positive length with such a
    chunk size uses up any supply of fuel, one command per unit. *)
Theorem read_with_no_chunk_never_ends (gas : nat) (address length c : Z)
    (t : T) :
  full_duplex link -> 0 < length -> c <= 0 ->
  outcome_of (read gas address length (Some c) no_callback t) = Timeout /\
  requests (events_of (read gas address length (Some c) no_callback t))
    = repeat (3, _format_addr address, 0, c) gas.
Proof.
  intros Hfd Hl Hc. unfold read, _read_command.
  rewrite outcome_mbind, events_mbind.
  cbn [_log emit outcome_of link_of events_of].
  destruct (read_loop_stuck address length c Hfd Hl Hc gas t) as (Ho & Hr).
  split; [exact Ho|].
  unfold requests. rewrite select_app. fold requests. rewrite Hr. reflexivity.
Qed.

End ReadingMore.

Lemma read_nothing_witness :
  read 0 4096 0 None observe tt = Run (Ret []) tt [Log (LogRead 4096 0)] /\
  fast_read 0 4096 0 None observe tt
    = Run (Ret []) tt [Log (LogFastRead 4096 0)].
Proof. apply (read_nothing silent_link 0 4096 0 None observe tt). lia. Defined.

(** 600 bytes from [0x1000]: chunks of 255, 255 and 90 bytes. *)
Lemma read_in_chunks_witness :
  (exists data,
     outcome_of (read 600 4096 600 None no_callback tt) = Ret data /\
     len data = 600) /\
  requests (events_of (read 600 4096 600 None no_callback tt))
    = read_requests 3 0 255 4096 600 /\
  (exists data,
     outcome_of (fast_read 600 4096 600 None no_callback tt) = Ret data /\
     len data = 600) /\
  requests (events_of (fast_read 600 4096 600 None no_callback tt))
    = read_requests 11 1 255 4096 600.
Proof.
  apply (read_in_chunks silent_link 600 4096 600 None tt).
  - intros tdi u. apply repeat_length.
  - lia.
  - lia.
  - lia.
Defined.

Example read_requests_600 :
  read_requests 3 0 255 4096 600 =
  [(3, [x00; x10; x00], 0, 255); (3, [x00; x10; xff], 0, 255);
   (3, [x00; x11; xfe], 0, 90)].
Proof. vm_compute. reflexivity. Qed.

Lemma read_with_no_chunk_never_ends_witness :
  outcome_of (read 5 4096 16 (Some 0) no_callback tt) = Timeout /\
  requests (events_of (read 5 4096 16 (Some 0) no_callback tt))
    = repeat (3, _format_addr 4096, 0, 0) 5.
Proof.
  apply (read_with_no_chunk_never_ends silent_link 5 4096 16 0 tt).
  - intros tdi u. apply repeat_length.
  - lia.
  - lia.
Defined.

(** ** Waiting for a write to end *)

Section Waiting.

Context {T : Type} (link : JTAG T).

Lemma status_reads_command (cmd : Z) (arg : list byte) (dummy ret : Z) (t : T) :
  status_reads (events_of (_command cmd arg dummy ret t)) = [].
Proof.
  unfold _command, _log, _sdr_array, mbind, emit.
  cbn [outcome_of link_of events_of].
  destruct (_bitarray _) as [tdi1|];
    cbn [lift_option mret raise outcome_of link_of events_of]; [|reflexivity].
  destruct (shift_tdio tdi1 _) as [tdo1 t2]. cbn [outcome_of link_of events_of].
  destruct (_bitarray _) as [tdi2|];
    cbn [lift_option mret raise outcome_of link_of events_of]; [|reflexivity].
  destruct (shift_tdio tdi2 _) as [tdo2 t4]. reflexivity.
Qed.

Lemma command_raises (cmd : Z) (arg : list byte) (dummy ret : Z) (t : T)
    (e : exn) :
  outcome_of (_command cmd arg dummy ret t) = Raise e -> e = ValueError.
Proof.
  unfold _command, _log, _sdr_array, mbind, emit.
  cbn [outcome_of link_of events_of].
  destruct (_bitarray _) as [tdi1|];
    cbn [lift_option mret raise outcome_of link_of events_of];
    [|congruence].
  destruct (shift_tdio tdi1 _) as [tdo1 t2]. cbn [outcome_of link_of events_of].
  destruct (_bitarray _) as [tdi2|];
    cbn [lift_option mret raise outcome_of link_of events_of];
    [|congruence].
  destruct (shift_tdio tdi2 _) as [tdo2 t4]. cbn. discriminate.
Qed.

Lemma command_no_timeout (cmd : Z) (arg : list byte) (dummy ret : Z) (t : T) :
  outcome_of (_command cmd arg dummy ret t) <> Timeout.
Proof.
  unfold _command, _log, _sdr_array, mbind, emit.
  cbn [outcome_of link_of events_of].
  destruct (_bitarray _) as [tdi1|];
    cbn [lift_option mret raise outcome_of link_of events_of];
    [|discriminate].
  destruct (shift_tdio tdi1 _) as [tdo1 t2]. cbn [outcome_of link_of events_of].
  destruct (_bitarray _) as [tdi2|];
    cbn [lift_option mret raise outcome_of link_of events_of];
    [|discriminate].
  destruct (shift_tdio tdi2 _) as [tdo2 t4]. cbn. discriminate.
Qed.

(** A status read, however it ends. *)
Lemma read_status_cases (t : T) :
  (exists s, outcome_of (read_status t) = Ret s /\
             status_reads (events_of (read_status t)) = [s]) \/
  (outcome_of (read_status t) = Raise ValueError /\
   status_reads (events_of (read_status t)) = []).
Proof.
  unfold read_status. rewrite outcome_mbind, events_mbind.
  unfold status_reads. rewrite select_app. fold status_reads.
  rewrite status_reads_command.
  pose proof (command_raises 5 [] 0 1 t) as Hr.
  pose proof (command_no_timeout 5 [] 0 1 t) as Ht.
  destruct (outcome_of (_command 5 [] 0 1 t)) as [[|b [|]]|e|].
  - right. split; reflexivity.
  - left. eexists. split; reflexivity.
  - right. split; reflexivity.
  - right. rewrite (Hr e eq_refl). split; reflexivity.
  - congruence.
Qed.

(** A poll, however it ends: it returns the WIP bit of the last status
    read, or raises. *)
Lemma write_in_progress_cases (c : string) (t : T) :
  let r := write_in_progress c t in
  (exists reads s,
     status_reads (events_of r) = reads ++ [s] /\
     (outcome_of r = Ret (Z.testbit s 0) \/
      outcome_of r = Raise (ProgramECP5Error c s) /\ wel_set_wip_clear s)) \/
  outcome_of r = Raise ValueError.
Proof.
  cbv zeta. unfold write_in_progress.
  rewrite outcome_mbind, events_mbind.
  unfold status_reads. rewrite select_app. fold status_reads.
  destruct (read_status_cases t) as [(s1 & O1 & R1)|(O1 & R1)];
    rewrite O1, R1; [|right; reflexivity].
  destruct (wel_without_wip s1) eqn:W1.
  - rewrite outcome_mbind, events_mbind.
    unfold status_reads. rewrite select_app. fold status_reads.
    destruct (read_status_cases (link_of (read_status t)))
      as [(s2 & O2 & R2)|(O2 & R2)]; rewrite O2, R2; [|right; reflexivity].
    left. exists [s1], s2.
    destruct (wel_without_wip s2) eqn:W2; cbn [raise mret outcome_of events_of].
    + split; [rewrite app_nil_r; reflexivity|]. right.
      split; [reflexivity|]. apply wel_without_wip_spec. exact W2.
    + split; [rewrite app_nil_r; reflexivity|]. left. rewrite wip_bit.
      reflexivity.
  - left. exists [], s1. cbn [mret outcome_of events_of].
    split; [rewrite app_nil_r; reflexivity|]. left. rewrite wip_bit.
    reflexivity.
Qed.

(** X7.  The wait after a command that changes the flash sends nothing
    but status reads.  It returns only once a status value with WIP
    clear has been read, and that is the last value read.  When it
    raises, the fault names the command and carries a status with WEL
    set and WIP clear, or is a failed status read. *)
Theorem wait_write_ends_on_wip_clear (command : string) :
  forall (fuel : nat) (t : T),
  let r := wait_write fuel command t in
  Forall (fun x => x = (5, [])) (commands_sent (events_of r)) /\
  (outcome_of r = Ret tt ->
     exists reads s, status_reads (events_of r) = reads ++ [s] /\
                     Z.testbit s 0 = false) /\
  (forall e, outcome_of r = Raise e ->
     e = ValueError \/
     exists reads s, status_reads (events_of r) = reads ++ [s] /\
                     e = ProgramECP5Error command s /\ wel_set_wip_clear s).
Proof.
  intros fuel t. cbv zeta.
  split; [apply commands_sent_wait_write|].
  revert t. induction fuel as [|fuel IH]; intros t.
  - split; [discriminate|]. intros e H. discriminate H.
  - cbn [wait_write]. rewrite outcome_mbind, events_mbind.
    unfold status_reads. rewrite select_app. fold status_reads.
    destruct (write_in_progress_cases command t)
      as [(reads & s & R & [O|(O & W)])|O]; cbv zeta in *; rewrite O.
    + rewrite R. destruct (Z.testbit s 0) eqn:B.
      * destruct (IH (link_of (write_in_progress command t))) as (IH1 & IH2).
        split.
        -- intros H. destruct (IH1 H) as (reads' & s' & R' & B').
           exists ((reads ++ [s]) ++ reads'), s'. rewrite R'.
           split; [rewrite <- !app_assoc; reflexivity|exact B'].
        -- intros e H. destruct (IH2 e H) as [E|(reads' & s' & R' & E & W')];
             [left; exact E|right].
           exists ((reads ++ [s]) ++ reads'), s'. rewrite R'.
           split; [rewrite <- !app_assoc; reflexivity|]. split; assumption.
      * cbn [mret outcome_of events_of]. rewrite app_nil_r. split.
        -- intros _. exists reads, s. split; [reflexivity|exact B].
        -- intros e H. discriminate H.
    + rewrite R, app_nil_r. split; [discriminate|].
      intros e H. injection H as <-. right. exists reads, s.
      split; [reflexivity|]. split; [reflexivity|exact W].
    + split; [discriminate|]. intros e H. injection H as <-. left. reflexivity.
Qed.

(** X8.  Each of the commands that change the flash sends exactly one
    command of its own, then only status reads: [sector_erase] opcode
    [0x20] and [block_erase] opcode [0x52] with the address in three
    bytes, [chip_erase] opcode [0x60] alone, [page_program] opcode
    [0x02] with the address and then all the data.  None of them sends
    write-enable (opcode [0x06]): that is left to the caller. *)
Theorem write_commands_framing (gas : nat) (address : Z) (data : list byte)
    (t : T) :
  let framed (r : run T unit) (cmd : Z) (arg : list byte) :=
    (exists polls,
       commands_sent (events_of r) = (cmd, arg) :: polls /\
       Forall (fun x => x = (5, [])) polls) /\
    ~ In (6, []) (commands_sent (events_of r)) in
  framed (sector_erase gas address t) 32 (_format_addr address) /\
  framed (block_erase gas address t) 82 (_format_addr address) /\
  framed (chip_erase gas t) 96 [] /\
  framed (page_program gas address data t) 2 (_format_addr address ++ data).
Proof.
  cbv zeta.
  assert (F : forall x cmd arg c, cmd <> 6 ->
            commands_sent [Log x] = [] ->
            let r := mbind (_log x) (fun _ => mbind (_command cmd arg 0 0)
                       (fun _ => wait_write gas c)) t in
            (exists polls,
               commands_sent (events_of r) = (cmd, arg) :: polls /\
               Forall (fun x => x = (5, [])) polls) /\
            ~ In (6, []) (commands_sent (events_of r))).
  { intros x cmd arg c Hcmd Hx. cbv zeta.
    assert (E : exists polls,
              commands_sent (events_of
                (mbind (_log x) (fun _ => mbind (_command cmd arg 0 0)
                   (fun _ => wait_write gas c)) t)) = (cmd, arg) :: polls /\
              Forall (fun x => x = (5, [])) polls).
    { rewrite commands_sent_mbind.
      cbn [_log emit outcome_of link_of events_of]. rewrite Hx.
      rewrite commands_sent_mbind, commands_sent_command. cbn [app].
      eexists. split; [reflexivity|].
      destruct (outcome_of (_command cmd arg 0 0 t)); try constructor.
      apply commands_sent_wait_write. }
    split; [exact E|]. destruct E as (polls & -> & Hp).
    intros [H|H]; [congruence|].
    rewrite Forall_forall in Hp. specialize (Hp _ H). discriminate Hp. }
  unfold sector_erase, block_erase, chip_erase, page_program.
  repeat split; apply F; (lia || reflexivity).
Qed.

(** X9.  [write_status] takes any integer but can only send a byte: a
    status outside [0, 256) raises [ValueError] with nothing sent and
    the link untouched.  A status that is a byte is sent as the one
    argument of opcode [0x01], followed only by status reads. *)
Theorem write_status_needs_a_byte (gas : nat) (status : Z) (t : T) :
  let r := write_status gas status t in
  (~ is_byte status ->
     outcome_of r = Raise ValueError /\ link_of r = t /\
     events_of r = [Log (LogWriteStatus status)]) /\
  (is_byte status ->
     exists b polls,
       byte_val b = status /\
       commands_sent (events_of r) = (1, [b]) :: polls /\
       Forall (fun x => x = (5, [])) polls).
Proof.
  cbv zeta. unfold write_status. split.
  - intros Hn.
    assert (E : byte_of_Z status = None).
    { unfold byte_of_Z. destruct (Z.ltb_spec status 0); [reflexivity|].
      apply Byte.of_N_None_iff. unfold is_byte in Hn. lia. }
    unfold mbind. cbn [_log emit outcome_of link_of events_of].
    rewrite E. cbn. repeat split; reflexivity.
  - intros Hb. destruct (is_byte_val status Hb) as (b & E & V).
    rewrite commands_sent_mbind.
    cbn [_log emit outcome_of link_of events_of].
    rewrite commands_sent_mbind, E.
    cbn [lift_option mret outcome_of link_of events_of].
    rewrite commands_sent_mbind, commands_sent_command.
    exists b. eexists. split; [exact V|]. split; [reflexivity|].
    destruct (outcome_of (_command 1 [b] 0 0 t)); try constructor.
    apply commands_sent_wait_write.
Qed.

End Waiting.

(** A sector erase on a flash that is busy for two polls. *)
Lemma wait_write_ends_on_wip_clear_witness :
  let r := wait_write 3 "SECTOR ERASE" (script_of [[x03]; [x01]; [x00]]) in
  outcome_of r = Ret tt /\
  exists reads s, status_reads (events_of r) = reads ++ [s] /\
                  Z.testbit s 0 = false.
Proof.
  cbv zeta.
  destruct (wait_write_ends_on_wip_clear scripted_link "SECTOR ERASE" 3
              (script_of [[x03]; [x01]; [x00]])) as (_ & H & _).
  assert (O : outcome_of (wait_write 3 "SECTOR ERASE"
                            (script_of [[x03]; [x01]; [x00]])) = Ret tt)
    by (vm_compute; reflexivity).
  split; [exact O|exact (H O)].
Defined.

Lemma write_status_needs_a_byte_witness :
  outcome_of (write_status 1 256 tt) = Raise ValueError /\
  link_of (write_status 1 256 tt) = tt /\
  events_of (write_status 1 256 tt) = [Log (LogWriteStatus 256)].
Proof.
  apply (write_status_needs_a_byte silent_link 1 256 tt).
  unfold is_byte. lia.
Defined.

(** ** Edges of the bulk operations *)

Section BulkEdges.

Context {T : Type} (link : JTAG T).

(** X10.  A page size of zero in [program], or a sector size of zero in
    [erase_program], with data to write, ends in [ZeroDivisionError]
    before anything is reported or sent. *)
Theorem zero_size_is_a_division_by_zero (gas : nat) (address : Z)
    (data : list byte) (page_size : Z) (callback : callback_t) (t : T) :
  data <> [] ->
  program (S gas) address data 0 callback t
    = Run (Raise ZeroDivisionError) t [] /\
  erase_program (S gas) address data 0 page_size callback t
    = Run (Raise ZeroDivisionError) t [].
Proof.
  intros Hd. pose proof (len_pos data Hd) as Hl.
  unfold program, erase_program, mbind.
  cbn [program_loop erase_program_loop].
  destruct (Z.ltb_spec 0 (len data)); [|lia]. split; reflexivity.
Qed.

(** X11.  [erase_program] with no data reads, erases and programs
    nothing and leaves the link as it was; the progress callback is
    called exactly once, with [done = 0], [total = 0] and no status.
    This holds for every address, sector size and page size. *)
Theorem erase_program_empty_data (gas : nat) (address sector_size page_size : Z)
    (t : T) :
  let r := erase_program gas address [] sector_size page_size observe t in
  outcome_of r = Ret tt /\
  events_of r = [Progress 0 0 None] /\
  link_of r = t.
Proof.
  cbv zeta. unfold erase_program, mbind.
  rewrite erase_program_loop_done. cbn. repeat split; reflexivity.
Qed.

Lemma progress_calls_app (l1 l2 : list event) :
  progress_calls (l1 ++ l2) = progress_calls l1 ++ progress_calls l2.
Proof. apply select_app. Qed.

Lemma progress_calls_nested_plan (done total : Z)
    (chunks : list (Z * list byte)) :
  forall d0 L,
  progress_calls
    (program_plan (fun page_done (_ : Z) status =>
                     observe (done + page_done) total status) d0 L chunks)
  = progress_plan (done + d0) total chunks.
Proof.
  induction chunks as [|[a c] rest IH]; intros d0 L; [reflexivity|].
  cbn [program_plan progress_plan]. unfold progress_calls, select in *.
  cbn [observe flat_map app]. rewrite IH. do 2 f_equal. lia.
Qed.

(** X12.  What the observer of [erase_program] is told in one turn that
    returns.  First the erase: the bytes done so far, the total, and the
    sector.  If the sector image passes the blank test of the code (it
    is all [0xff], or a run of [0xff] closed by one line feed) nothing
    more is told.  Otherwise the sector is programmed: one report per
    page, counting from the bytes done so far, and a closing report with
    no status whose [done] is the bytes done so far plus the length of
    the whole sector image.  So a report without status comes after
    every programmed sector, not only at the end, and its [done] counts
    the sector, not the data: it can exceed [total]. *)
Theorem erase_program_turn_reports (gas : nat) (address : Z)
    (chunk : list byte) (sector_size page_size done total : Z) (t : T)
    (image : list byte) :
  1 <= page_size ->
  let start := Z.land address (Z.lnot (sector_size - 1)) in
  let r := erase_program_chunk gas address chunk sector_size page_size
             observe done total t in
  outcome_of (sector_image gas address chunk sector_size t) = Ret image ->
  outcome_of r = Ret tt ->
  progress_calls (events_of r) =
    (done, total, Some (ErasingSector start))
      :: (if re_match_ff image then []
          else progress_plan done total (page_programs (events_of r))
                 ++ [(done + len image, total, None)]) /\
  re_match_ff image = all_ff image || ff_then_newline image.
Proof.
  intros Hps start r Oi Or. split; [|apply re_match_ff_spec].
  destruct (erase_program_chunk_Ret link gas address chunk sector_size
              page_size observe done total t image Hps reporting_observe
              Oi Or) as (HE & _).
  cbv zeta in HE. fold r in HE. fold start in HE.
  rewrite <- progress_calls_high, HE.
  rewrite progress_calls_app.
  replace (progress_calls
             (if (address mod sector_size =? 0) && (len chunk =? sector_size)
              then [] else [Log (LogRead start sector_size)])) with
    (@nil (Z * Z * option status_text)) by (destruct (_ && _); reflexivity).
  cbn [app observe].
  change (progress_calls (?e :: Log LogWriteEnable :: Log ?x :: ?tail))
    with (progress_calls [e] ++ progress_calls tail).
  change (progress_calls [Progress done total (Some (ErasingSector start))])
    with [(done, total, Some (ErasingSector start))].
  cbn [app]. f_equal.
  destruct (re_match_ff image); [reflexivity|].
  rewrite progress_calls_app, progress_calls_nested_plan, Z.add_0_r.
  reflexivity.
Qed.

Lemma first_differing_prefix (gold : list byte) :
  forall (flash : list byte) (offset : Z),
  firstn (length flash) gold = firstn (length gold) flash ->
  first_differing offset gold flash = None.
Proof.
  induction gold as [|x gold IH]; intros [|y flash] offset H; try reflexivity.
  cbn [length firstn] in H. injection H as -> H.
  cbn [first_differing]. rewrite (Byte.byte_dec_lb eq_refl). apply IH. exact H.
Qed.

(** X13.  The comparison of [verify] on strings of different lengths
    that agree as far as the shorter one goes: they are not equal, the
    loop finds no differing byte, and the report fails on the unbound
    [different_at].  The fault is [UnboundLocalError], not the verify
    failure, and nothing is logged. *)
Theorem verify_on_a_prefix (address : Z) (gold_data flash_data : list byte)
    (t : T) :
  length gold_data <> length flash_data ->
  firstn (length flash_data) gold_data
    = firstn (length gold_data) flash_data ->
  verify_compare address gold_data flash_data t
    = Run (Raise UnboundLocalError) t [].
Proof.
  intros Hl Hp. unfold verify_compare.
  destruct (bytes_eqb gold_data flash_data) eqn:E.
  - apply bytes_eqb_eq in E. subst. contradiction.
  - rewrite (first_differing_prefix _ _ 0 Hp). reflexivity.
Qed.

(** *** Write-enable before every write *)

Lemma write_enabled_armed (evs : list event) (a : bool) :
  write_enabled_before false evs = true -> write_enabled_before a evs = true.
Proof.
  destruct evs as [|e evs]; [reflexivity|]. cbn [write_enabled_before].
  destruct (is_write_command e); [discriminate|]. auto.
Qed.

Lemma write_enabled_app (l1 l2 : list event) :
  write_enabled_before false l2 = true ->
  forall a, write_enabled_before a l1 = true ->
  write_enabled_before a (l1 ++ l2) = true.
Proof.
  intros H2. induction l1 as [|e l1 IH]; intros a H1.
  - apply write_enabled_armed. exact H2.
  - cbn [app write_enabled_before] in *.
    destruct (is_write_command e).
    + apply andb_prop in H1 as [-> H1]. rewrite (IH _ H1). reflexivity.
    + apply IH. exact H1.
Qed.

Lemma write_enabled_reporting (cb : callback_t) (d t : Z)
    (s : option status_text) (a : bool) :
  reporting cb -> write_enabled_before a (cb d t s) = true.
Proof.
  intros H. specialize (H d t s). revert a.
  induction (cb d t s) as [|e l IH]; intros a; [reflexivity|].
  cbn [forallb] in H. apply andb_prop in H as [He Hl].
  destruct e; try discriminate He. cbn [write_enabled_before is_write_command].
  apply IH. exact Hl.
Qed.

Lemma write_enabled_program_loop (ps : Z) (cb : callback_t) (gas : nat)
    (total : Z) :
  1 <= ps -> reporting cb ->
  forall (fuel : nat) (a : Z) (data : list byte) (done : Z) (t : T),
  write_enabled_before false
    (high (events_of (program_loop fuel gas a data ps cb done total t))) = true.
Proof.
  intros Hps Hcb. induction fuel as [|fuel IH]; intros a data done t.
  - destruct data; reflexivity.
  - destruct data as [|b data]; [rewrite program_loop_done; reflexivity|].
    assert (Hd : b :: data <> []) by discriminate.
    destruct (program_loop_turn link fuel gas a (b :: data) ps cb done total t
                Hd Hps Hcb) as (_ & HE).
    cbv zeta in HE. rewrite HE.
    apply write_enabled_app; [|apply write_enabled_reporting; exact Hcb].
    cbn [write_enabled_before is_write_command is_write_enable andb].
    destruct (outcome_of (page_program _ _ _ _)); try reflexivity. apply IH.
Qed.

Lemma write_enabled_program (gas : nat) (a : Z) (data : list byte) (ps : Z)
    (cb : callback_t) (t : T) :
  1 <= ps -> reporting cb ->
  write_enabled_before false (high (events_of (program gas a data ps cb t)))
  = true.
Proof.
  intros Hps Hcb. unfold program. rewrite high_mbind.
  apply write_enabled_app;
    [|apply write_enabled_program_loop; assumption].
  destruct (outcome_of (program_loop _ _ _ _ _ _ _ _ _)); try reflexivity.
  cbn [emit events_of]. rewrite reporting_high by exact Hcb.
  apply write_enabled_reporting. exact Hcb.
Qed.

Lemma write_enabled_chunk (gas : nat) (address : Z) (chunk : list byte)
    (ss ps : Z) (cb : callback_t) (done total : Z) (t : T) :
  1 <= ps -> reporting cb ->
  write_enabled_before false
    (high (events_of (erase_program_chunk gas address chunk ss ps cb done
                        total t))) = true.
Proof.
  intros Hps Hcb.
  pose proof (erase_program_chunk_turn link gas address chunk ss ps cb done
                total t) as H. cbv zeta in H.
  assert (Hi : write_enabled_before false
                 (high (events_of (sector_image gas address chunk ss t)))
               = true).
  { rewrite high_sector_image. destruct (_ && _); reflexivity. }
  destruct (outcome_of (sector_image gas address chunk ss t)) as [image| |];
    [|destruct H as (_ & ->); exact Hi..].
  destruct H as (_ & ->).
  apply write_enabled_app; [|exact Hi].
  rewrite reporting_high by exact Hcb.
  apply write_enabled_app; [|apply write_enabled_reporting; exact Hcb].
  cbn [write_enabled_before is_write_command is_write_enable andb].
  destruct (outcome_of (sector_erase _ _ _)); try reflexivity.
  destruct (re_match_ff image); [reflexivity|].
  apply write_enabled_program; [exact Hps|].
  apply reporting_offset. exact Hcb.
Qed.

(* The guard at the level of the lines logged. *)
Lemma write_enabled_bulk (gas : nat) (address : Z)
    (data : list byte) (sector_size page_size : Z) (callback : callback_t)
    (t : T) :
  1 <= page_size -> reporting callback ->
  write_enabled_before false
    (high (events_of (program gas address data page_size callback t)))
  = true /\
  write_enabled_before false
    (high (events_of (erase_program gas address data sector_size page_size
                        callback t))) = true.
Proof.
  intros Hps Hcb. split; [apply write_enabled_program; assumption|].
  unfold erase_program. rewrite high_mbind.
  assert (L : forall fuel address data done total t',
            write_enabled_before false
              (high (events_of (erase_program_loop fuel gas address data
                                  sector_size page_size callback done total
                                  t'))) = true).
  { induction fuel as [|fuel IH]; intros a d dn tot t'.
    - destruct d; reflexivity.
    - destruct d as [|b d]; [rewrite erase_program_loop_done; reflexivity|].
      destruct (Z.eq_dec sector_size 0) as [->|Hss].
      + cbn [erase_program_loop].
        destruct (0 <? len (b :: d)); reflexivity.
      + rewrite erase_program_loop_turn by (discriminate || exact Hss).
        rewrite high_mbind.
        apply write_enabled_app; [|apply write_enabled_chunk; assumption].
        destruct (outcome_of (erase_program_chunk _ _ _ _ _ _ _ _ _));
          try reflexivity. apply IH. }
  apply write_enabled_app; [|apply L].
  destruct (outcome_of (erase_program_loop _ _ _ _ _ _ _ _ _ _));
    try reflexivity.
  cbn [emit events_of]. rewrite reporting_high by exact Hcb.
  apply write_enabled_reporting. exact Hcb.
Qed.

End BulkEdges.

Lemma zero_size_is_a_division_by_zero_witness :
  program 1 4096 [x01] 0 observe tt = Run (Raise ZeroDivisionError) tt [] /\
  erase_program 1 4096 [x01] 0 256 observe tt
    = Run (Raise ZeroDivisionError) tt [].
Proof.
  apply (zero_size_is_a_division_by_zero silent_link 0 4096 [x01] 256 observe tt).
  discriminate.
Defined.

(** Two bytes written into a sector of 16 bytes, with 4 as the total:
    the closing report of the sector says 16 of 4. *)
Lemma erase_program_turn_reports_witness :
  let r := erase_program_chunk 16 14 [xaa; xaa] 16 4 observe 0 4 tt in
  progress_calls (events_of r) =
    (0, 4, Some (ErasingSector (Z.land 14 (Z.lnot (16 - 1)))))
      :: (if re_match_ff (repeat x00 14 ++ [xaa; xaa]) then []
          else progress_plan 0 4 (page_programs (events_of r))
                 ++ [(0 + len (repeat x00 14 ++ [xaa; xaa]), 4, None)]) /\
  re_match_ff (repeat x00 14 ++ [xaa; xaa])
  = all_ff (repeat x00 14 ++ [xaa; xaa])
    || ff_then_newline (repeat x00 14 ++ [xaa; xaa]).
Proof.
  apply (erase_program_turn_reports silent_link 16 14 [xaa; xaa] 16 4 0 4 tt
           (repeat x00 14 ++ [xaa; xaa])).
  - lia.
  - vm_compute. reflexivity.
  - vm_compute. reflexivity.
Defined.

Example erase_program_reports_16_of_4 :
  progress_calls
    (events_of (erase_program_chunk 16 14 [xaa; xaa] 16 4 observe 0 4 tt))
  = [(0, 4, Some (ErasingSector 0));
     (0, 4, Some (ProgrammingPage 0)); (4, 4, Some (ProgrammingPage 4));
     (8, 4, Some (ProgrammingPage 8)); (12, 4, Some (ProgrammingPage 12));
     (16, 4, None)].
Proof. vm_compute. reflexivity. Qed.

Lemma verify_on_a_prefix_witness :
  verify_compare 4096 [x01; x02; x03] [x01; x02] tt
    = Run (Raise UnboundLocalError) tt [].
Proof.
  apply (verify_on_a_prefix 4096 [x01; x02; x03] [x01; x02] tt).
  - cbn [length]. lia.
  - reflexivity.
Defined.


(** ** Reading back what the flash sends *)

Lemma resize_exact (n : nat) (v : bitarray) : length v = n -> resize n v = v.
Proof.
  intros <-. unfold resize.
  rewrite firstn_app, firstn_all, Nat.sub_diag. cbn [firstn]. apply app_nil_r.
Qed.

Lemma length_wire_of_bytes (bs : list byte) :
  length (wire_of_bytes bs) = (8 * length bs)%nat.
Proof.
  unfold wire_of_bytes. rewrite bytereverse_frombytes, reverse_turned.
  rewrite length_frombytes, length_rev. reflexivity.
Qed.

(** A command that asks for as many bytes as the flash answers gets
    these bytes, and uses up two entries of the script. *)
Lemma command_scripted (cmd : Z) (arg : list byte) (dummy : Z)
    (r : list byte) (t rest : list bitarray) :
  is_byte cmd -> t = [] :: wire_of_bytes r :: rest ->
  let run := _command (link := scripted_link) cmd arg dummy (len r) t in
  outcome_of run = Ret r /\ link_of run = rest.
Proof.
  intros Hcmd ->.
  destruct (_command_run scripted_link cmd arg dummy (len r)
              ([] :: wire_of_bytes r :: rest) Hcmd) as (_ & _ & E).
  cbv zeta in E |- *. rewrite E. clear E.
  cbn [outcome_of link_of shift_tdio scripted_link enter_shift_dr
       enter_pause_dr fst snd].
  rewrite resize_exact.
  - rewrite decode_wire_of_bytes. split; reflexivity.
  - rewrite length_wire_of_bytes, bytereverse_frombytes, length_turned.
    rewrite repeat_length. unfold len. rewrite Nat2Z.id. reflexivity.
Qed.

Ltac answer_command cmd address dummy r rest Hcmd :=
  let HO := fresh "HO" in
  let HL := fresh "HL" in
  match goal with
  | |- context [_command cmd (_format_addr address) dummy (len r) ?t] =>
      destruct (command_scripted cmd (_format_addr address) dummy r t rest
                  Hcmd eq_refl) as (HO & HL);
      cbv zeta in HO, HL; rewrite HO, HL; clear HO HL
  end.

Lemma read_loop_scripted (cs cmd dummy : Z) (cb : callback_t)
    (last : list byte) (rest : list bitarray) :
  is_byte cmd -> 1 <= len last <= cs ->
  forall (full : list (list byte)) (fuel : nat) (address : Z)
         (data : list byte),
  Forall (fun r => len r = cs) full ->
  (length full < fuel)%nat ->
  let run := _read_loop (link := scripted_link) fuel address
               (len data + len (concat full) + len last) cs cmd dummy cb data
               (script_of (full ++ [last]) ++ rest) in
  outcome_of run = Ret (data ++ concat full ++ last) /\ link_of run = rest.
Proof.
  intros Hcmd Hlast. induction full as [|r full IH];
    intros fuel address data Hfull Hfuel; cbv zeta.
  - destruct fuel as [|fuel]; [cbn in Hfuel; lia|].
    cbn [concat app script_of flat_map _read_loop].
    change (len (@nil byte)) with 0.
    destruct (Z.ltb_spec (len data) (len data + 0 + len last)); [|lia].
    rewrite outcome_mbind, link_mbind. cbn [emit outcome_of link_of].
    rewrite outcome_mbind, link_mbind.
    replace (Z.min cs (len data + 0 + len last - len data)) with (len last)
      by lia.
    answer_command cmd address dummy last rest Hcmd.
    destruct fuel; cbn [_read_loop];
      (destruct (Z.ltb_spec (len (data ++ last)) (len data + 0 + len last));
       [rewrite len_app in *; lia|]); split; reflexivity.
  - destruct fuel as [|fuel]; [cbn in Hfuel; lia|].
    inversion Hfull as [|? ? Hr Hfull']; subst.
    pose proof (len_nonneg (concat full)) as Hc.
    assert (Hfuel' : (length full < fuel)%nat) by (cbn in Hfuel; lia).
    specialize (IH fuel (address + len r) (data ++ r) Hfull' Hfuel').
    cbv zeta in IH. destruct IH as (O' & L').
    cbn [concat app script_of flat_map _read_loop].
    rewrite len_app.
    destruct (Z.ltb_spec (len data)
                (len data + (len r + len (concat full)) + len last)); [|lia].
    rewrite outcome_mbind, link_mbind. cbn [emit outcome_of link_of].
    rewrite outcome_mbind, link_mbind.
    replace (Z.min (len r)
               (len data + (len r + len (concat full)) + len last - len data))
      with (len r) by lia.
    answer_command cmd address dummy r (script_of (full ++ [last]) ++ rest)
                   Hcmd.
    replace (len data + (len r + len (concat full)) + len last)
      with (len (data ++ r) + len (concat full) + len last)
      by (rewrite len_app; lia).
    rewrite O', L', <- !app_assoc. split; reflexivity.
Qed.

(** X15.  Reading is a round trip.  When the flash answers the
    successive READ (or FAST READ) commands with the byte strings
    [full ++ [last]], every one of [chunk_size] bytes but the last, which
    has between one and [chunk_size] bytes, then reading their total
    length returns these bytes joined in order, whatever the address,
    and takes exactly these answers from the link. *)
Theorem read_returns_what_the_flash_sent (gas : nat) (address chunk_size : Z)
    (callback : callback_t) (full : list (list byte)) (last : list byte)
    (rest : list bitarray) :
  Forall (fun r => len r = chunk_size) full ->
  1 <= len last <= chunk_size ->
  (length full < gas)%nat ->
  let length := len (concat full) + len last in
  let t := script_of (full ++ [last]) ++ rest in
  let r := read (link := scripted_link) gas address length (Some chunk_size)
             callback t in
  let f := fast_read (link := scripted_link) gas address length
             (Some chunk_size) callback t in
  outcome_of r = Ret (concat full ++ last) /\ link_of r = rest /\
  outcome_of f = Ret (concat full ++ last) /\ link_of f = rest.
Proof.
  intros Hfull Hlast Hgas. cbv zeta.
  unfold read, fast_read, _read_command.
  rewrite !outcome_mbind, !link_mbind. cbn [_log emit outcome_of link_of].
  destruct (read_loop_scripted chunk_size 3 0 callback last rest
              ltac:(unfold is_byte; lia) Hlast full gas address [] Hfull Hgas)
    as (O & L).
  destruct (read_loop_scripted chunk_size 11 1 callback last rest
              ltac:(unfold is_byte; lia) Hlast full gas address [] Hfull Hgas)
    as (O' & L').
  cbv zeta in O, L, O', L'. change (len (@nil byte)) with 0 in O, L, O', L'.
  rewrite Z.add_0_l in O, L, O', L'. cbn [app] in O, O'.
  rewrite O, L, O', L'. repeat split; reflexivity.
Qed.

Lemma read_returns_what_the_flash_sent_witness :
  let length := len (concat [[x01; x02]; [x03; x04]]) + len [x05] in
  let t := script_of ([[x01; x02]; [x03; x04]] ++ [[x05]]) ++ [] in
  let r := read (link := scripted_link) 3 4096 length (Some 2) observe t in
  let f := fast_read (link := scripted_link) 3 4096 length (Some 2) observe t in
  outcome_of r = Ret (concat [[x01; x02]; [x03; x04]] ++ [x05]) /\
  link_of r = [] /\
  outcome_of f = Ret (concat [[x01; x02]; [x03; x04]] ++ [x05]) /\
  link_of f = [].
Proof.
  apply (read_returns_what_the_flash_sent 3 4096 2 observe
           [[x01; x02]; [x03; x04]] [x05] []).
  - repeat constructor.
  - cbn. lia.
  - cbn. lia.
Defined.

(** ** Sectors, erases and reports *)

Lemma ff_then_newline_not_blank (d : list byte) :
  ff_then_newline d = true -> all_ff d = false.
Proof.
  unfold ff_then_newline. intros H.
  rewrite <- (rev_involutive d). destruct (rev d) as [|b front]; [discriminate|].
  apply andb_prop in H as [Hb _].
  apply Byte.byte_dec_bl in Hb. subst b.
  cbn [rev]. unfold all_ff. rewrite forallb_app. cbn [forallb].
  change (Byte.eqb xff x0a) with false. cbn [andb]. apply andb_false_r.
Qed.

Lemma completion_reports_high (evs : list event) :
  completion_reports (high evs) = completion_reports evs.
Proof.
  apply select_high. intros [| | |m|d t s] H; try reflexivity. discriminate H.
Qed.

Section SectorsAndReports.

Context {T : Type} (link : JTAG T).

(** X16.  A sector image that is a run of [0xff] bytes closed by one
    line feed is not blank, but the test of [erase_program] takes it for
    blank: in a turn that returns, the sector is erased and nothing is
    programmed, so the line feed is never written. *)
Theorem sector_closed_by_line_feed_stays_erased (gas : nat) (address : Z)
    (chunk : list byte) (sector_size page_size : Z) (callback : callback_t)
    (done total : Z) (t : T) (image : list byte) :
  1 <= page_size -> reporting callback ->
  let turn := erase_program_chunk gas address chunk sector_size page_size
                callback done total t in
  outcome_of (sector_image gas address chunk sector_size t) = Ret image ->
  ff_then_newline image = true ->
  outcome_of turn = Ret tt ->
  all_ff image = false /\
  sector_erases (events_of turn)
    = [Z.land address (Z.lnot (sector_size - 1))] /\
  page_programs (events_of turn) = [].
Proof.
  intros Hps Hcb turn Oi Hn Or.
  split; [apply ff_then_newline_not_blank; exact Hn|]. split.
  - unfold turn. rewrite (sector_erases_chunk link) by assumption.
    rewrite Oi. reflexivity.
  - destruct (erase_program_chunk_Ret link gas address chunk sector_size
                page_size callback done total t image Hps Hcb Oi Or)
      as (_ & Hskip & _).
    apply Hskip. rewrite re_match_ff_spec, Hn. apply orb_true_r.
Qed.




Lemma completion_reports_program_loop (ps : Z) (gas : nat) (total : Z) :
  1 <= ps ->
  forall (fuel : nat) (a : Z) (data : list byte) (done : Z) (t : T),
  completion_reports
    (high (events_of (program_loop fuel gas a data ps observe done total t)))
  = [].
Proof.
  intros Hps. induction fuel as [|fuel IH]; intros a data done t.
  - destruct data; reflexivity.
  - destruct data as [|b data]; [rewrite program_loop_done; reflexivity|].
    assert (Hd : b :: data <> []) by discriminate.
    destruct (program_loop_turn link fuel gas a (b :: data) ps observe done
                total t Hd Hps reporting_observe) as (_ & E).
    cbv zeta in E. rewrite E.
    cbn [observe app completion_reports select flat_map].
    destruct (outcome_of (page_program _ _ _ _)); try reflexivity.
    apply IH.
Qed.

(** X18.  [program] makes its report without status exactly when it
    returns, and then once, as its last call, with [done] and [total]
    both the length of the data: an observer can take the report without
    status for the end of a successful [program].  (In [erase_program]
    this does not hold: the inner [program] of every sector makes such a
    report too.) *)
Theorem program_completion_report (gas : nat) (address : Z)
    (data : list byte) (page_size : Z) (t : T) :
  1 <= page_size ->
  let r := program gas address data page_size observe t in
  completion_reports (events_of r) =
    match outcome_of r with
    | Ret _ => [(len data, len data)]
    | _ => []
    end /\
  (outcome_of r = Ret tt ->
     exists before,
       progress_calls (events_of r) = before ++ [(len data, len data, None)]).
Proof.
  intros Hps r. split.
  - rewrite <- completion_reports_high. subst r. unfold program.
    rewrite high_mbind, outcome_mbind.
    unfold completion_reports at 1. rewrite select_app.
    fold completion_reports.
    rewrite completion_reports_program_loop by exact Hps.
    destruct (outcome_of (program_loop _ _ _ _ _ _ _ _ _)) as [d| |] eqn:O;
      try reflexivity.
    destruct (program_loop_Ret link page_size observe gas (len data) Hps
                reporting_observe gas address data 0 t d O) as (-> & _).
    reflexivity.
  - intros R.
    destruct (program_Ret link gas address data page_size observe t Hps
                reporting_observe R) as (chunks & _ & E).
    rewrite <- progress_calls_high. fold r in E. rewrite E.
    rewrite progress_calls_app. eexists. reflexivity.
Qed.

End SectorsAndReports.

(** A whole sector of three [0xff] bytes and a line feed. *)
Lemma sector_closed_by_line_feed_stays_erased_witness :
  let turn := erase_program_chunk 4 8 [xff; xff; xff; x0a] 4 2 observe 0 4 tt in
  all_ff [xff; xff; xff; x0a] = false /\
  sector_erases (events_of turn) = [Z.land 8 (Z.lnot (4 - 1))] /\
  page_programs (events_of turn) = [].
Proof.
  apply (sector_closed_by_line_feed_stays_erased silent_link 4 8
           [xff; xff; xff; x0a] 4 2 observe 0 4 tt [xff; xff; xff; x0a]).
  - lia.
  - exact reporting_observe.
  - reflexivity.
  - reflexivity.
  - vm_compute. reflexivity.
Defined.

Lemma program_completion_report_witness :
  let r := program 4 4097 [x01; x02; x03] 2 observe tt in
  completion_reports (events_of r) =
    match outcome_of r with
    | Ret _ => [(len [x01; x02; x03], len [x01; x02; x03])]
    | _ => []
    end /\
  (outcome_of r = Ret tt ->
     exists before,
       progress_calls (events_of r)
       = before ++ [(len [x01; x02; x03], len [x01; x02; x03], None)]).
Proof.
  apply (program_completion_report silent_link 4 4097 [x01; x02; x03] 2 tt).
  lia.
Defined.

(** Two sectors given out of order, one of them twice, on a silent
    link. *)
Example erase_sector_three_addresses :
  high (events_of (interact_erase 1 EraseSector [8192; 4097; 8192] tt))
  = [Log LogWriteEnable; Log (LogSectorErase 8192);
     Log LogWriteEnable; Log (LogSectorErase 4097);
     Log LogWriteEnable; Log (LogSectorErase 8192)].
Proof. vm_compute. reflexivity. Qed.

(** ** The protect field for any argument *)

(** X19.  The block-protect update keeps only the four low bits of its
    argument: for every integer [bits], also negative or beyond 15, the
    field of the new status is [bits mod 16], and the bits of the status
    outside the field are kept.  So [bits = 16] clears the protection
    without any error. *)
Theorem protect_bits_are_taken_modulo_16 (status bits : Z) :
  protect_field (protect_update status bits) = bits mod 16 /\
  Z.land (protect_update status bits) (Z.lnot MSK_PROT)
    = Z.land status (Z.lnot MSK_PROT) /\
  protect_field (protect_update status 16) = 0.
Proof.
  assert (F : forall b, protect_field (protect_update status b) = b mod 16).
  { intros b. unfold protect_field. rewrite protect_update_in_field.
    rewrite Z.shiftr_land, Z.shiftr_shiftl_l by lia.
    change (2 - 2) with 0. rewrite Z.shiftl_0_r.
    change (Z.shiftr MSK_PROT 2) with (Z.ones 4).
    rewrite Z.land_ones by lia. reflexivity. }
  split; [apply F|]. split; [apply protect_update_outside_field|].
  rewrite F. reflexivity.
Qed.

(** ** The one-command operations of the applet *)

Section OneCommand.

Context {T : Type} (link : JTAG T).

(** X20.  The program-page operation does not cut its data: whatever
    the length, the data goes out in a single page program at the
    address given, after one write enable.  The erase-chip operation is
    one write enable and one chip erase.  On a flash that is never busy
    both return. *)
Theorem applet_one_command_operations (gas : nat) (address : Z)
    (data : list byte) (t : T) :
  let p := interact_program_page gas address data t in
  let c := interact_erase_chip gas t in
  high (events_of p)
    = [Log LogWriteEnable; Log (LogPageProgram address data)] /\
  page_programs (events_of p) = [(address, data)] /\
  high (events_of c) = [Log LogWriteEnable; Log LogChipErase] /\
  (always_ready link -> (1 <= gas)%nat ->
     outcome_of p = Ret tt /\ outcome_of c = Ret tt).
Proof.
  cbv zeta. unfold interact_program_page, interact_erase_chip.
  destruct (write_enable_run link t) as (Ow & Hw).
  assert (Hp : high (events_of (mbind write_enable
                 (fun _ => page_program gas address data) t))
               = [Log LogWriteEnable; Log (LogPageProgram address data)]).
  { rewrite high_mbind, Ow, Hw, (high_page_program link). reflexivity. }
  split; [exact Hp|]. split.
  - rewrite <- page_programs_high, Hp. reflexivity.
  - split.
    + rewrite high_mbind, Ow, Hw. unfold chip_erase.
      rewrite (high_logged_command link) by reflexivity. reflexivity.
    + intros Hr Hgas. destruct gas as [|g]; [lia|].
      rewrite !outcome_mbind, Ow. split.
      * apply (page_program_returns link). exact Hr.
      * unfold chip_erase. apply (logged_command_returns link);
          [exact Hr|unfold is_byte; lia].
Qed.

End OneCommand.

(** ** Verifying against what the flash sends *)

Lemma verify_compare_link {T : Type} (address : Z)
    (gold_data flash_data : list byte) (t : T) :
  link_of (verify_compare address gold_data flash_data t) = t.
Proof.
  unfold verify_compare. destruct (bytes_eqb gold_data flash_data);
    [reflexivity|].
  destruct (first_differing 0 gold_data flash_data) as [[[o g] f]|];
    reflexivity.
Qed.

(** X21.  The verify operation from end to end.  The flash answers the
    READ commands, 255 bytes at a time, with as many bytes as the
    expected data has.  Then verify passes if and only if these bytes are
    the expected data: if they are it returns, having logged the read and
    the pass; if they are not it fails with the verify fault.  In both
    cases it has taken exactly these answers from the link. *)
Theorem verify_passes_iff_the_flash_matches (gas : nat) (address : Z)
    (gold_data : list byte) (full : list (list byte)) (last : list byte)
    (rest : list bitarray) :
  Forall (fun r => len r = 255) full ->
  1 <= len last <= 255 ->
  (length full < gas)%nat ->
  len gold_data = len (concat full) + len last ->
  let flash_data := concat full ++ last in
  let r := interact_verify (link := scripted_link) gas address gold_data
             (script_of (full ++ [last]) ++ rest) in
  (outcome_of r = Ret tt <-> gold_data = flash_data) /\
  (gold_data = flash_data ->
     high (events_of r)
     = [Log (LogRead address (len gold_data)); Log InfoVerifyPass]) /\
  (gold_data <> flash_data ->
     outcome_of r = Raise (GlasgowAppletError "verify FAIL")) /\
  link_of r = rest.
Proof.
  intros Hfull Hlast Hgas Hlen flash_data r.
  destruct (read_loop_scripted 255 3 0 no_callback last rest
              ltac:(unfold is_byte; lia) Hlast full gas address [] Hfull Hgas)
    as (O & L).
  cbv zeta in O, L. change (len (@nil byte)) with 0 in O, L.
  rewrite Z.add_0_l, <- Hlen in O, L. cbn [app] in O. fold flash_data in O.
  assert (Or : outcome_of
                 (read (link := scripted_link) gas address (len gold_data)
                    None no_callback (script_of (full ++ [last]) ++ rest))
               = Ret flash_data).
  { unfold read, _read_command. rewrite outcome_mbind.
    cbn [_log emit outcome_of link_of]. exact O. }
  assert (Lr : link_of
                 (read (link := scripted_link) gas address (len gold_data)
                    None no_callback (script_of (full ++ [last]) ++ rest))
               = rest).
  { unfold read, _read_command. rewrite link_mbind.
    cbn [_log emit outcome_of link_of]. exact L. }
  assert (Hlen' : length gold_data = length flash_data).
  { apply Nat2Z.inj. fold (len gold_data). fold (len flash_data).
    unfold flash_data. rewrite len_app. exact Hlen. }
  assert (Oc : outcome_of r
               = outcome_of (verify_compare address
                               gold_data flash_data rest)).
  { unfold r, interact_verify. rewrite outcome_mbind, Or, Lr. reflexivity. }
  assert (Hpass : gold_data = flash_data ->
                  verify_compare address gold_data
                    flash_data rest
                  = Run (Ret tt) rest [Log InfoVerifyPass]).
  { intros E. unfold verify_compare.
    rewrite (proj2 (bytes_eqb_eq gold_data flash_data) E). reflexivity. }
  assert (Hfail : gold_data <> flash_data ->
                  outcome_of r = Raise (GlasgowAppletError "verify FAIL")).
  { intros N. rewrite Oc. unfold verify_compare.
    destruct (bytes_eqb gold_data flash_data) eqn:B;
      [apply bytes_eqb_eq in B; contradiction|].
    destruct (first_differing_found gold_data flash_data 0 Hlen' N)
      as (n & g & f & -> & _). reflexivity. }
  split; [|split; [|split]].
  - split.
    + intros R. destruct (list_eq_dec Byte.byte_eq_dec gold_data flash_data)
        as [E|N]; [exact E|]. rewrite (Hfail N) in R. discriminate R.
    + intros E. rewrite Oc, (Hpass E). reflexivity.
  - intros E. unfold r, interact_verify.
    rewrite high_mbind, (high_read scripted_link), Or, Lr, (Hpass E).
    reflexivity.
  - exact Hfail.
  - unfold r, interact_verify. rewrite link_mbind, Or, Lr.
    apply verify_compare_link.
Qed.

Lemma verify_passes_iff_the_flash_matches_witness :
  let flash_data := concat [] ++ [x01; x02; x03] in
  let r := interact_verify (link := scripted_link) 1 4096 [x01; x02; x04]
             (script_of ([] ++ [[x01; x02; x03]]) ++ []) in
  (outcome_of r = Ret tt <-> [x01; x02; x04] = flash_data) /\
  ([x01; x02; x04] = flash_data ->
     high (events_of r)
     = [Log (LogRead 4096 (len [x01; x02; x04])); Log InfoVerifyPass]) /\
  ([x01; x02; x04] <> flash_data ->
     outcome_of r = Raise (GlasgowAppletError "verify FAIL")) /\
  link_of r = [].
Proof.
  apply (verify_passes_iff_the_flash_matches 1 4096 [x01; x02; x04] []
           [x01; x02; x03] []).
  - constructor.
  - cbn. lia.
  - cbn. lia.
  - reflexivity.
Defined.

(** ** Write enable on the wire *)

Lemma wire_armed (cmds : list (Z * list byte)) (a : bool) :
  write_enabled_on_wire false cmds = true ->
  write_enabled_on_wire a cmds = true.
Proof.
  destruct cmds as [|[cmd arg] cmds]; [reflexivity|].
  cbn [write_enabled_on_wire].
  destruct (is_write_opcode cmd); [discriminate|]. auto.
Qed.

Lemma wire_app (l1 l2 : list (Z * list byte)) :
  write_enabled_on_wire false l2 = true ->
  forall a, write_enabled_on_wire a l1 = true ->
  write_enabled_on_wire a (l1 ++ l2) = true.
Proof.
  intros H2. induction l1 as [|[cmd arg] l1 IH]; intros a H1.
  - apply wire_armed. exact H2.
  - cbn [app write_enabled_on_wire] in *.
    destruct (is_write_opcode cmd).
    + apply andb_prop in H1 as [-> H1]. rewrite (IH _ H1). reflexivity.
    + apply IH. exact H1.
Qed.

Lemma wire_no_writes (cmds : list (Z * list byte)) :
  Forall (fun c => is_write_opcode (fst c) = false) cmds ->
  forall a, write_enabled_on_wire a cmds = true.
Proof.
  induction 1 as [|[cmd arg] l Hc _ IH]; intros a; [reflexivity|].
  cbn [write_enabled_on_wire]. cbn [fst] in Hc. rewrite Hc. apply IH.
Qed.

Lemma wire_polls (polls : list (Z * list byte)) (a : bool) :
  Forall (fun x => x = (5, [])) polls ->
  write_enabled_on_wire a polls = true.
Proof.
  intros H. apply wire_no_writes.
  apply (Forall_impl _ (P := fun x => x = (5, []))); [|exact H].
  intros c ->. reflexivity.
Qed.

Lemma commands_sent_reporting (cb : callback_t) (d t : Z)
    (s : option status_text) :
  reporting cb -> commands_sent (cb d t s) = [].
Proof. intros H. apply reporting_select; [exact H|reflexivity]. Qed.

Section OnTheWire.

Context {T : Type} (link : JTAG T).

Lemma commands_sent_write_enable (t : T) :
  commands_sent (events_of (write_enable t)) = [(6, [])].
Proof.
  unfold write_enable. rewrite commands_sent_mbind.
  cbn [_log emit outcome_of link_of events_of].
  rewrite commands_sent_mbind, (commands_sent_command link).
  destruct (outcome_of (_command 6 [] 0 0 t)); reflexivity.
Qed.

Lemma commands_sent_logged_command (x : log_msg) (cmd : Z) (arg : list byte)
    (gas : nat) (c : string) (t : T) :
  commands_sent [Log x] = [] ->
  exists polls,
    commands_sent
      (events_of (mbind (_log x) (fun _ => mbind (_command cmd arg 0 0)
                    (fun _ => wait_write gas c)) t))
    = (cmd, arg) :: polls /\
    Forall (fun p => p = (5, [])) polls.
Proof.
  intros Hx. rewrite commands_sent_mbind.
  cbn [_log emit outcome_of link_of events_of]. rewrite Hx.
  rewrite commands_sent_mbind, (commands_sent_command link). cbn [app].
  eexists. split; [reflexivity|].
  destruct (outcome_of (_command cmd arg 0 0 t)); try constructor.
  apply (commands_sent_wait_write link).
Qed.

(** What follows a write enable is armed. *)
Lemma wire_after_write_enable {B} (k : M T B) (t : T) :
  (forall t', write_enabled_on_wire true (commands_sent (events_of (k t')))
              = true) ->
  write_enabled_on_wire false
    (commands_sent (events_of (mbind write_enable (fun _ => k) t))) = true.
Proof.
  intros Hk. rewrite commands_sent_mbind, commands_sent_write_enable.
  rewrite (proj1 (write_enable_run link t)). cbn [app].
  change (write_enabled_on_wire false ((6, []) :: ?l))
    with (write_enabled_on_wire true l).
  apply Hk.
Qed.

(** A logged command that changes the flash, once armed, and what
    follows it. *)
Lemma wire_write_command {B} (x : log_msg) (cmd : Z) (arg : list byte)
    (gas : nat) (c : string) (k : M T B) (t : T) :
  commands_sent [Log x] = [] ->
  (forall t', write_enabled_on_wire false (commands_sent (events_of (k t')))
              = true) ->
  write_enabled_on_wire true
    (commands_sent
       (events_of
          (mbind (mbind (_log x) (fun _ => mbind (_command cmd arg 0 0)
                    (fun _ => wait_write gas c))) (fun _ => k) t))) = true.
Proof.
  intros Hx Hk. rewrite commands_sent_mbind.
  destruct (commands_sent_logged_command x cmd arg gas c t Hx)
    as (polls & -> & Hp).
  cbn [app write_enabled_on_wire].
  assert (Ht : write_enabled_on_wire false
                 (polls ++
                  match
                    outcome_of
                      (mbind (_log x) (fun _ => mbind (_command cmd arg 0 0)
                         (fun _ => wait_write gas c)) t)
                  with
                  | Ret _ =>
                      commands_sent
                        (events_of
                           (k (link_of
                                 (mbind (_log x)
                                    (fun _ => mbind (_command cmd arg 0 0)
                                       (fun _ => wait_write gas c)) t))))
                  | _ => []
                  end) = true).
  { apply wire_app; [|apply wire_polls; exact Hp].
    destruct (outcome_of _); try reflexivity. apply Hk. }
  destruct (is_write_opcode cmd); [exact Ht|apply wire_armed; exact Ht].
Qed.

Lemma wire_program_loop (ps : Z) (cb : callback_t) (gas : nat) (total : Z) :
  reporting cb ->
  forall (fuel : nat) (a : Z) (data : list byte) (done : Z) (t : T),
  write_enabled_on_wire false
    (commands_sent
       (events_of (program_loop fuel gas a data ps cb done total t))) = true.
Proof.
  intros Hcb. induction fuel as [|fuel IH]; intros a data done t;
    cbn [program_loop]; destruct (0 <? len data); try reflexivity.
  destruct (ps =? 0); [reflexivity|].
  rewrite commands_sent_mbind. cbn [emit outcome_of link_of events_of].
  rewrite commands_sent_reporting by exact Hcb. cbn [app].
  apply wire_after_write_enable. intros t'. unfold page_program.
  apply wire_write_command; [reflexivity|]. intros t''. apply IH.
Qed.

Lemma wire_program (gas : nat) (a : Z) (data : list byte) (ps : Z)
    (cb : callback_t) (t : T) :
  reporting cb ->
  write_enabled_on_wire false
    (commands_sent (events_of (program gas a data ps cb t))) = true.
Proof.
  intros Hcb. unfold program. rewrite commands_sent_mbind.
  apply wire_app; [|apply wire_program_loop; exact Hcb].
  destruct (outcome_of _); try reflexivity.
  cbn [emit events_of]. rewrite commands_sent_reporting by exact Hcb.
  reflexivity.
Qed.

Lemma commands_sent_read_loop (length cs cmd dummy : Z) (cb : callback_t) :
  reporting cb ->
  forall (fuel : nat) (address : Z) (data : list byte) (t : T),
  Forall (fun c => fst c = cmd)
    (commands_sent
       (events_of (_read_loop fuel address length cs cmd dummy cb data t))).
Proof.
  intros Hcb. induction fuel as [|fuel IH]; intros address data t;
    cbn [_read_loop]; destruct (len data <? length); try constructor.
  rewrite commands_sent_mbind. cbn [emit outcome_of link_of events_of].
  rewrite commands_sent_reporting by exact Hcb. cbn [app].
  rewrite commands_sent_mbind, (commands_sent_command link). cbn [app].
  constructor; [reflexivity|].
  destruct (outcome_of _); try constructor. apply IH.
Qed.

Lemma wire_sector_image (gas : nat) (address : Z) (chunk : list byte)
    (ss : Z) (t : T) (a : bool) :
  write_enabled_on_wire a
    (commands_sent (events_of (sector_image gas address chunk ss t))) = true.
Proof.
  apply wire_no_writes. unfold sector_image.
  destruct ((address mod ss =? 0) && (len chunk =? ss)); [constructor|].
  rewrite commands_sent_mbind. apply Forall_app. split.
  - unfold read, _read_command. rewrite commands_sent_mbind.
    cbn [_log emit outcome_of link_of events_of app].
    change (commands_sent [Log (LogRead ?x ?y)]) with (@nil (Z * list byte)).
    cbn [app].
    apply (Forall_impl _ (P := fun c : Z * list byte => fst c = 3));
      [intros c ->; reflexivity|].
    apply commands_sent_read_loop. exact reporting_no_callback.
  - destruct (outcome_of _); constructor.
Qed.

Lemma wire_chunk (gas : nat) (address : Z) (chunk : list byte)
    (ss ps : Z) (cb : callback_t) (done total : Z) (t : T) :
  reporting cb ->
  write_enabled_on_wire false
    (commands_sent
       (events_of (erase_program_chunk gas address chunk ss ps cb done total t)))
  = true.
Proof.
  intros Hcb. unfold erase_program_chunk. rewrite commands_sent_mbind.
  apply wire_app; [|apply wire_sector_image].
  destruct (outcome_of (sector_image gas address chunk ss t)) as [image| |];
    try reflexivity.
  rewrite commands_sent_mbind. cbn [emit outcome_of link_of events_of].
  rewrite commands_sent_reporting by exact Hcb. cbn [app].
  apply wire_after_write_enable. intros t'. unfold sector_erase.
  apply wire_write_command; [reflexivity|]. intros t''.
  destruct (negb (re_match_ff image)); [|reflexivity].
  apply wire_program. apply reporting_offset. exact Hcb.
Qed.

Lemma wire_erase_program_loop (gas : nat) (ss ps : Z) (cb : callback_t)
    (total : Z) :
  reporting cb ->
  forall (fuel : nat) (a : Z) (data : list byte) (done : Z) (t : T),
  write_enabled_on_wire false
    (commands_sent
       (events_of (erase_program_loop fuel gas a data ss ps cb done total t)))
  = true.
Proof.
  intros Hcb. induction fuel as [|fuel IH]; intros a data done t;
    cbn [erase_program_loop]; destruct (0 <? len data); try reflexivity.
  destruct (ss =? 0); [reflexivity|].
  rewrite commands_sent_mbind.
  apply wire_app; [|apply wire_chunk; exact Hcb].
  destruct (outcome_of _); try reflexivity. apply IH.
Qed.

(** X14.  Neither [program] nor [erase_program] ever sends a command
    that changes the flash without a write enable right before it.  In
    the list of all the commands sent on the link, every page program
    (opcode [0x02]) and every sector erase (opcode [0x20]) comes
    directly after a write enable (opcode [0x06]): no other command, not
    even a status read, is sent between the two.  The same holds of the
    lines logged.  This holds for every address, data, sector size and
    page size of at least one byte, over any link and however the run
    ends. *)
Theorem bulk_writes_are_write_enabled (gas : nat) (address : Z)
    (data : list byte) (sector_size page_size : Z) (callback : callback_t)
    (t : T) :
  1 <= page_size -> reporting callback ->
  let p := program gas address data page_size callback t in
  let e := erase_program gas address data sector_size page_size callback t in
  write_enabled_on_wire false (commands_sent (events_of p)) = true /\
  write_enabled_on_wire false (commands_sent (events_of e)) = true /\
  write_enabled_before false (high (events_of p)) = true /\
  write_enabled_before false (high (events_of e)) = true.
Proof.
  intros Hps Hcb p e.
  split; [apply wire_program; exact Hcb|]. split.
  - unfold e, erase_program. rewrite commands_sent_mbind.
    apply wire_app; [|apply wire_erase_program_loop; exact Hcb].
    destruct (outcome_of _); try reflexivity.
    cbn [emit events_of]. rewrite commands_sent_reporting by exact Hcb.
    reflexivity.
  - exact (write_enabled_bulk link gas address data sector_size page_size
             callback t Hps Hcb).
Qed.

End OnTheWire.

Lemma bulk_writes_are_write_enabled_witness :
  let p := program 8 4097 [x01; x02; x03] 2 observe tt in
  let e := erase_program 8 4097 [x01; x02; x03] 4 2 observe tt in
  write_enabled_on_wire false (commands_sent (events_of p)) = true /\
  write_enabled_on_wire false (commands_sent (events_of e)) = true /\
  write_enabled_before false (high (events_of p)) = true /\
  write_enabled_before false (high (events_of e)) = true.
Proof.
  exact (bulk_writes_are_write_enabled silent_link 8 4097 [x01; x02; x03] 4 2
           observe tt ltac:(lia) reporting_observe).
Defined.

(** The commands of that [program] on a silent link: three bytes from
    [0x1001] in pages of two, so one byte and then two, each page
    program right after its write enable and followed by one status
    read. *)
Example program_three_bytes_on_the_wire :
  commands_sent (events_of (program 8 4097 [x01; x02; x03] 2 observe tt))
  = [(6, []); (2, [x00; x10; x01; x01]); (5, []);
     (6, []); (2, [x00; x10; x02; x02; x03]); (5, [])].
Proof. vm_compute. reflexivity. Qed.

(** A stray status read between the write enable and the page program
    is seen on the wire. *)
Example stray_status_read_is_seen :
  write_enabled_on_wire false [(6, []); (5, []); (2, [x00; x10; x01; x01])]
  = false.
Proof. reflexivity. Qed.

(** A whole sector of three [0xff] bytes and a line feed passes the
    blank test: the erase report is the only one. *)
Example line_feed_sector_reports_the_erase_only :
  progress_calls
    (events_of (erase_program_chunk 4 8 [xff; xff; xff; x0a] 4 2 observe 0 4 tt))
  = [(0, 4, Some (ErasingSector 8))].
Proof. vm_compute. reflexivity. Qed.
